(** * Triparific image tools: stamp collage and flag grid

    A shallow embedding of [functions/main.py] (and of the command-line
    variants under [src/triparific_tools], which share the same helpers)
    together with the properties of the layout and placement engine.

    Conventions of the embedding:
    - Python [int] is [Z]; Python [float] is modelled by exact rationals [Q]:
      the rounding error of float arithmetic is left out.  The two float
      results the layout depends on, [2.0 * box_h] and the ceiling of the
      tile count over the column count, are computed exactly by floats for
      every operand below 2^53.  The sizes the tile normalizer scales a
      flag to do depend on the rounding: for them the normalizer is given a
      second time, [make_uniform_tile_from_bytes_float], with every float
      operation rounded to the nearest float;
    - Python [str] is [string], read as text of 8-bit code points;
    - a raised exception is the [Raise] outcome, carrying the exception
      class and its message;
    - the process-wide random generator, the storage bucket and the imaging
      library's resampling filters are variables of the section. *)

From Stdlib Require Import ZArith QArith Qround List String Ascii Bool Lia Lqa.
Import ListNotations.

Local Open Scope string_scope.
Local Open Scope list_scope.
Local Open Scope Z_scope.

(** ** Python values and exceptions *)

Module Py.

Inductive exn : Type :=
| ValueError (msg : string)
| RuntimeError (msg : string)
| ZeroDivisionError (msg : string)
| IndexError (msg : string)
| OSError (msg : string).

Inductive Outcome (A : Type) : Type :=
| Return (a : A)
| Raise (e : exn).

Arguments Return {A} a.
Arguments Raise {A} e.

Definition bind {A B : Type} (m : Outcome A) (k : A -> Outcome B) : Outcome B :=
  match m with
  | Return a => k a
  | Raise e => Raise e
  end.

(** [len(s)] *)
Definition len (s : string) : Z := Z.of_nat (String.length s).

(** [s[a:b]] for [0 <= a <= b]; a slice never fails, it is cut at the end of
    the string. *)
Definition slice (a b : nat) (s : string) : string := substring a (b - a) s.

Definition code (c : ascii) : nat := nat_of_ascii c.

Definition between (lo hi n : nat) : bool := (lo <=? n)%nat && (n <=? hi)%nat.

(** [str.lower] on code points below 256: the ASCII capitals and the Latin-1
    capitals (all of 0xC0-0xDE but the multiplication sign 0xD7) move up by
    32; everything else is unchanged. *)
Definition lower_char (c : ascii) : ascii :=
  let n := code c in
  if between 65 90 n || (between 192 222 n && negb (n =? 215)%nat)
  then ascii_of_nat (n + 32)
  else c.

Fixpoint lower (s : string) : string :=
  match s with
  | EmptyString => EmptyString
  | String c r => String (lower_char c) (lower r)
  end.

(** [str.upper] restricted to the ASCII letters; only used to phrase
    case-insensitivity of ASCII keywords. *)
Definition upper_ascii_char (c : ascii) : ascii :=
  let n := code c in
  if between 97 122 n then ascii_of_nat (n - 32) else c.

(** Characters removed by [str.strip()]: tab to carriage return, the four
    separators 0x1C-0x1F, space, NEL and the no-break space. *)
Definition isspace (c : ascii) : bool :=
  let n := code c in
  between 9 13 n || between 28 31 n || (n =? 32)%nat || (n =? 133)%nat || (n =? 160)%nat.

Fixpoint lstrip_by (p : ascii -> bool) (s : string) : string :=
  match s with
  | EmptyString => EmptyString
  | String c r => if p c then lstrip_by p r else s
  end.

Fixpoint rstrip_by (p : ascii -> bool) (s : string) : string :=
  match s with
  | EmptyString => EmptyString
  | String c r =>
      match rstrip_by p r with
      | EmptyString => if p c then EmptyString else String c EmptyString
      | r' => String c r'
      end
  end.

(** [s.strip()] *)
Definition strip (s : string) : string := rstrip_by isspace (lstrip_by isspace s).

(** [s.rstrip('/')] *)
Definition rstrip_slash (s : string) : string :=
  rstrip_by (fun c => Ascii.eqb c "/"%char) s.

(** [s.startswith(p)] *)
Definition startswith (p s : string) : bool := String.prefix p s.

(** Truthiness of a string: [if s] holds for every non-empty string. *)
Definition truthy (s : string) : bool :=
  match s with EmptyString => false | _ => true end.

(** *** [int(s, 16)] *)

Definition hex_digit (c : ascii) : option Z :=
  let n := code c in
  if between 48 57 n then Some (Z.of_nat n - 48)
  else if between 97 102 n then Some (Z.of_nat n - 87)
  else if between 65 70 n then Some (Z.of_nat n - 55)
  else None.

(** Blanks skipped by [int()] around the literal: the C-locale blanks, and
    the two non-ASCII blanks below 256, which the conversion first rewrites
    to a space. *)
Definition int_space (c : ascii) : bool :=
  let n := code c in
  between 9 13 n || (n =? 32)%nat || (n =? 133)%nat || (n =? 160)%nat.

Fixpoint skip_spaces (l : list ascii) : list ascii :=
  match l with
  | c :: r => if int_space c then skip_spaces r else l
  | [] => []
  end.

(** The digit run of the literal: digits, with single underscores allowed
    between two digits only.  [acc] is the value read so far, [seen] tells
    whether a digit was read, [us] whether the previous character was an
    underscore.  Returns the value and the unread rest. *)
Fixpoint digit_run (acc : Z) (seen us : bool) (l : list ascii)
  : option (Z * list ascii) :=
  match l with
  | [] => if seen && negb us then Some (acc, []) else None
  | c :: r =>
      if Ascii.eqb c "_"%char then
        if seen && negb us then digit_run acc seen true r else None
      else
        match hex_digit c with
        | Some d => digit_run (16 * acc + d) true false r
        | None => if seen && negb us then Some (acc, l) else None
        end
  end.

Definition invalid_literal : exn :=
  ValueError "invalid literal for int() with base 16".

Definition int16 (s : string) : Outcome Z :=
  let l := skip_spaces (list_ascii_of_string s) in
  let '(negative, l) :=
    match l with
    | "+"%char :: r => (false, r)
    | "-"%char :: r => (true, r)
    | _ => (false, l)
    end in
  let l :=
    match l with
    | "0"%char :: x :: r =>
        if Ascii.eqb x "x"%char || Ascii.eqb x "X"%char
        then match r with "_"%char :: r' => r' | _ => r end
        else l
    | _ => l
    end in
  match digit_run 0 false false l with
  | Some (v, rest) =>
      match skip_spaces rest with
      | [] => Return (if negative then - v else v)
      | _ => Raise invalid_literal
      end
  | None => Raise invalid_literal
  end.

(** *** Numbers *)

(** [a / b] on integers (true division). *)
Definition truediv (a b : Z) : Outcome Q :=
  if b =? 0 then Raise (ZeroDivisionError "division by zero")
  else Return (inject_Z a / inject_Z b)%Q.

(** [min(a, b)] and [max(a, b)] on floats: the first argument wins ties. *)
Definition minq (a b : Q) : Q :=
  match (b ?= a)%Q with Lt => b | _ => a end.

Definition maxq (a b : Q) : Q :=
  match (b ?= a)%Q with Gt => b | _ => a end.

(** [round(x)]: to the nearest integer, halves to the even neighbour. *)
Definition round (x : Q) : Z :=
  let f := Qfloor x in
  match ((x - inject_Z f) ?= (1 # 2))%Q with
  | Lt => f
  | Gt => f + 1
  | Eq => if Z.even f then f else f + 1
  end.

(** [int(x)] on a float: truncation towards zero. *)
Definition int_of_float (x : Q) : Z :=
  if Qle_bool 0 x then Qfloor x else Qceiling x.

(** [math.ceil(x)] *)
Definition ceil (x : Q) : Z := Qceiling x.

End Py.

Import Py.

Notation "x <- m ;; k" := (Py.bind m (fun x => k))
  (at level 61, m at next level, right associativity).

(** ** The imaging library, at the level the layout code observes it

    An image is its mode, its size and its pixels.  The operations below are
    the ones the source calls on [PIL.Image]; each keeps the library's own
    validation of sizes and boxes.  In-place updates ([alpha_composite])
    return the updated image. *)

Module PIL.

Inductive Mode : Type := RGBA | RGB.

Definition color : Type := (Z * Z * Z * Z)%type.

Definition alpha (c : color) : Z := let '(_, _, _, a) := c in a.

Record Image : Type := mkImage {
  mode : Mode;
  width : Z;
  height : Z;
  getpixel : Z -> Z -> color
}.

Definition size (im : Image) : Z * Z := (width im, height im).

(** A resampling filter: the pixels of the image scaled to a new size. *)
Definition resample : Type := Image -> Z * Z -> Z -> Z -> color.

(** The "over" operator on two pixels: backdrop first, source second. *)
Definition blend : Type := color -> color -> color.

(** A channel of a fill colour is stored in one byte: values below 0 and
    above 255 are cut to the nearest bound. *)
Definition clip8 (v : Z) : Z := if v <=? 0 then 0 else if v <? 256 then v else 255.

Definition ink (c : color) : color :=
  let '(r, g, b, a) := c in (clip8 r, clip8 g, clip8 b, clip8 a).

(** [Image.new(mode, size, color)] *)
Definition new (m : Mode) (sz : Z * Z) (c : color) : Outcome Image :=
  let '(w, h) := sz in
  if (w <? 0) || (h <? 0)
  then Raise (ValueError "Width and height must be >= 0")
  else Return (mkImage m w h (fun _ _ => ink c)).

(** [im.convert(mode)]: the alpha channel is dropped for RGB and left as it
    is for RGBA. *)
Definition convert (m : Mode) (im : Image) : Image :=
  match m with
  | RGBA => mkImage RGBA (width im) (height im) (getpixel im)
  | RGB =>
      mkImage RGB (width im) (height im)
        (fun x y => let '(r, g, b, _) := getpixel im x y in (r, g, b, 255))
  end.

(** [im.resize(size, filter)]: a copy when the size is unchanged. *)
Definition resize (im : Image) (sz : Z * Z) (f : resample) : Outcome Image :=
  let '(w, h) := sz in
  if (w =? width im) && (h =? height im) then Return im
  else if (w <=? 0) || (h <=? 0)
  then Raise (ValueError "height and width must be > 0")
  else Return (mkImage (mode im) w h (f im sz)).

(** [im.crop((left, upper, right, lower))]: pixels outside the source are
    transparent black. *)
Definition crop (im : Image) (bx : Z * Z * Z * Z) : Outcome Image :=
  let '(x0, y0, x1, y1) := bx in
  if x1 <? x0 then Raise (ValueError "Coordinate 'right' is less than 'left'")
  else if y1 <? y0 then Raise (ValueError "Coordinate 'lower' is less than 'upper'")
  else
    Return (mkImage (mode im) (x1 - x0) (y1 - y0)
      (fun x y =>
         let sx := x + x0 in
         let sy := y + y0 in
         if (0 <=? sx) && (sx <? width im) && (0 <=? sy) && (sy <? height im)
         then getpixel im sx sy
         else (0, 0, 0, 0))).

(** [dst.alpha_composite(src, dest)]: [src] is blended over [dst] with its
    top-left corner at [dest]; the size of [dst] never changes and whatever
    falls outside of it is dropped. *)
Definition alpha_composite (over : blend) (dst src : Image) (dest : Z * Z) : Image :=
  let '(dx, dy) := dest in
  mkImage (mode dst) (width dst) (height dst)
    (fun x y =>
       let sx := x - dx in
       let sy := y - dy in
       if (0 <=? sx) && (sx <? width src) && (0 <=? sy) && (sy <? height src)
       then over (getpixel dst x y) (getpixel src sx sy)
       else getpixel dst x y).

(** [im.save(fp, format="PNG")], as far as it can fail: an image without
    pixels cannot be written. *)
Definition save_png (im : Image) : Outcome unit :=
  if (width im =? 0) || (height im =? 0)
  then Raise (ValueError "cannot write empty image")
  else Return tt.

(** [ImageOps.contain(image, size, method)] *)
Definition contain (image : Image) (sz : Z * Z) (method : resample) : Outcome Image :=
  let '(sw, sh) := sz in
  im_ratio <- truediv (width image) (height image) ;;
  dest_ratio <- truediv sw sh ;;
  let sz' :=
    if Qeq_bool im_ratio dest_ratio then sz
    else if Qle_bool im_ratio dest_ratio then
      (* the image is narrower than the box *)
      let new_width :=
        round (inject_Z (width image) / inject_Z (height image) * inject_Z sh) in
      if new_width =? sw then sz else (new_width, sh)
    else
      let new_height :=
        round (inject_Z (height image) / inject_Z (width image) * inject_Z sw) in
      if new_height =? sh then sz else (sw, new_height) in
  resize image sz' method.

End PIL.

Import PIL.

(** ** A concrete environment

    A deterministic generator, a two-blob bucket and trivial filters; the
    programs below are run in it to exhibit concrete behaviours. *)

Module Demo.

(** The generator is a counter; the n-th draw of [randint lo hi] is the
    n-th point of the range, cyclically. *)
Definition Rng : Type := nat.

Definition randint (lo hi : Z) (g : Rng) : Z * Rng :=
  (lo + Z.of_nat g mod (hi - lo + 1), S g).

Definition uniform (lo hi : Q) (g : Rng) : Q * Rng := (lo, S g).

Definition choices (alphabet : string) (k : nat) (g : Rng) : string * Rng :=
  (substring 0 k alphabet, S g).

Definition utcnow : string := "20240101T000000Z".

Definition nearest : resample :=
  fun im sz x y =>
    getpixel im (x * width im / fst sz) (y * height im / snd sz).

Definition src_over : blend :=
  fun under top => if alpha top =? 0 then under else top.

Definition rotate (im : Image) (angle : Q) (f : resample) : Image := im.

(** Encoded images are a header of two bytes, width then height. *)
Definition decode (b : list Byte.byte) : option Image :=
  match b with
  | w :: h :: _ =>
      Some (mkImage RGB (Z.of_N (Byte.to_N w)) (Z.of_N (Byte.to_N h))
              (fun _ _ => (200, 0, 0, 255)))
  | _ => None
  end.

Definition flag_4x2 : list Byte.byte := [Byte.x04; Byte.x02].

(** Rounding of a non-negative rational to the nearest binary64 float,
    halves to the even significand: the significand has 53 bits and the
    exponent is at least -1074.  Overflow is left out. *)
Definition nearest_double (x : Q) : Q :=
  let z := (x * inject_Z (2 ^ 1074))%Q in
  let e := Z.max 0 (Z.log2 (Qfloor z) - 52) in
  (inject_Z (round (z / inject_Z (2 ^ e)) * 2 ^ e) / inject_Z (2 ^ 1074))%Q.

Definition bucket (path : string) : option (list Byte.byte) :=
  if String.eqb path "passportStamps/au-arrival.png" then Some [Byte.x64; Byte.x50]
  else if String.eqb path "flags/png1000px/au.png" then Some flag_4x2
  else None.

End Demo.

(** ** The program *)

Section Triparific.

Set Default Proof Using "Type".

(** The process-wide random generator: its state, and the draws the source
    makes from it. *)
Variable Rng : Type.
Variable randint : Z -> Z -> Rng -> Z * Rng.
Variable uniform : Q -> Q -> Rng -> Q * Rng.
(** ["".join(random.choices(alphabet, k=k))] *)
Variable choices : string -> nat -> Rng -> string * Rng.
(** [datetime.utcnow().strftime("%Y%m%dT%H%M%SZ")] *)
Variable utcnow : string.

(** The imaging library's filters, blending and decoder. *)
Variables LANCZOS BICUBIC : resample.
Variable over : blend.
(** [im.rotate(angle, resample, expand=True)] *)
Variable rotate : Image -> Q -> resample -> Image.
(** [Image.open] on a byte buffer; [None] when the bytes are no image. *)
Variable decode : list Byte.byte -> option Image.

(** Configuration read from the process environment, and the bucket. *)
Variable STAMP_BUCKET : option string.
Variables STAMPS_PREFIX FLAGS_PREFIX FLAGS_OUTPUT_PREFIX : string.
Variable bucket : string -> option (list Byte.byte).

Definition CANVAS_WIDTH : Z := 2000.
Definition CANVAS_HEIGHT : Z := 2000.
Definition MIN_SCALE : Q := 6 # 10.
Definition MAX_SCALE : Q := 12 # 10.
Definition MAX_ROTATION_DEG : Z := 25.
Definition AVOID_OVERLAP : bool := true.
Definition OVERLAP_RETRIES : nat := 15.

(** *** Effects

    A run threads the generator and the list of uploads made so far; an
    exception leaves the world as it was when it was raised. *)

Record World : Type := mkWorld {
  rng : Rng;
  uploads : list (string * Image)
}.

Definition M (A : Type) : Type := World -> Outcome A * World.

Definition ret {A : Type} (a : A) : M A := fun w => (Return a, w).

Definition throw {A : Type} (e : exn) : M A := fun w => (Raise e, w).

Definition mbind {A B : Type} (m : M A) (k : A -> M B) : M B :=
  fun w =>
    match m w with
    | (Return a, w') => k a w'
    | (Raise e, w') => (Raise e, w')
    end.

Definition lift {A : Type} (o : Outcome A) : M A := fun w => (o, w).

Definition draw {A : Type} (f : Rng -> A * Rng) : M A :=
  fun w => let (a, g) := f (rng w) in (Return a, mkWorld g (uploads w)).

Definition upload (path : string) (im : Image) : M unit :=
  fun w => (Return tt, mkWorld (rng w) (uploads w ++ [(path, im)])).

Notation "x <~ m ;; k" := (mbind m (fun x => k))
  (at level 61, m at next level, right associativity).
Notation "' p <~ m ;; k" := (mbind m (fun p => k))
  (at level 61, p pattern, m at next level, right associativity).

Definition _require_bucket : Outcome string :=
  match STAMP_BUCKET with
  | Some b => if truthy b then Return b
              else Raise (RuntimeError "STAMP_BUCKET env var not set")
  | None => Raise (RuntimeError "STAMP_BUCKET env var not set")
  end.

(** [Image.open(io.BytesIO(img_bytes)).convert("RGBA")] *)
Definition open_rgba (img_bytes : list Byte.byte) : Outcome Image :=
  match decode img_bytes with
  | Some im => Return (convert RGBA im)
  | None => Raise (OSError "cannot identify image file")
  end.

(** *** Shared helpers *)

Definition _random_filename (prefix : string) : M string :=
  rand <~ draw (choices "abcdefghijklmnopqrstuvwxyz0123456789" 6) ;;
  ret (prefix ++ "_" ++ utcnow ++ "_" ++ rand ++ ".png")%string.

Definition _save_canvas_to_gcs (canvas : Image) (filename output_prefix : string)
  : M string :=
  bucket_name <~ lift _require_bucket ;;
  let blob_path := (rstrip_slash output_prefix ++ "/" ++ filename)%string in
  _ <~ lift (save_png canvas) ;;
  _ <~ upload blob_path canvas ;;
  ret ("gs://" ++ bucket_name ++ "/" ++ blob_path)%string.

(** *** Passport stamp composition *)

Definition _random_transform (img : Image) : M Image :=
  scale <~ draw (uniform MIN_SCALE MAX_SCALE) ;;
  let new_w := Z.max 1 (int_of_float (inject_Z (width img) * scale)) in
  let new_h := Z.max 1 (int_of_float (inject_Z (height img) * scale)) in
  img_scaled <~ lift (resize img (new_w, new_h) LANCZOS) ;;
  angle <~ draw (uniform (inject_Z (- MAX_ROTATION_DEG)) (inject_Z MAX_ROTATION_DEG)) ;;
  ret (rotate img_scaled angle BICUBIC).

Definition box : Type := (Z * Z * Z * Z)%type.

Definition _boxes_overlap (a b : box) : bool :=
  let '(ax, ay, aw, ah) := a in
  let '(bx, by_, bw, bh) := b in
  negb ((ax + aw <=? bx) || (bx + bw <=? ax) || (ay + ah <=? by_) || (by_ + bh <=? ay)).

(** [any(_boxes_overlap(candidate, b) for b in placed_boxes)] *)
Definition overlaps_any (candidate : box) (placed_boxes : list box) : bool :=
  existsb (_boxes_overlap candidate) placed_boxes.

(** How the retry loop of [_choose_position] ends: by its [return], or by
    running out of iterations, in which case the locals [x, y] still hold
    the last candidate (they are unbound if the loop never ran). *)
Inductive search : Type :=
| Accepted (xy : Z * Z) (g : Rng)
| Exhausted (last : option (Z * Z)) (g : Rng).

Fixpoint retry_loop (n : nat) (img_w img_h : Z) (placed_boxes : list box)
  (last : option (Z * Z)) (g : Rng) : search :=
  match n with
  | O => Exhausted last g
  | S n' =>
      let (x, g1) := randint 0 (Z.max 0 (CANVAS_WIDTH - img_w)) g in
      let (y, g2) := randint 0 (Z.max 0 (CANVAS_HEIGHT - img_h)) g1 in
      let candidate := (x, y, img_w, img_h) in
      if negb AVOID_OVERLAP || negb (overlaps_any candidate placed_boxes)
      then Accepted (x, y) g2
      else retry_loop n' img_w img_h placed_boxes (Some (x, y)) g2
  end.

Definition _choose_position (img_w img_h : Z) (placed_boxes : list box) (g : Rng)
  : (Z * Z) * Rng :=
  let retries := if AVOID_OVERLAP then OVERLAP_RETRIES else 1%nat in
  match retry_loop retries img_w img_h placed_boxes None g with
  | Accepted xy g' => (xy, g')
  | Exhausted _ g' =>
      (* Fallback: accept overlap *)
      let (x, g1) := randint 0 (Z.max 0 (CANVAS_WIDTH - img_w)) g' in
      let (y, g2) := randint 0 (Z.max 0 (CANVAS_HEIGHT - img_h)) g1 in
      ((x, y), g2)
  end.

(** The candidates of the first [n] iterations, were none of them accepted,
    and the generator after them. *)
Fixpoint candidates (n : nat) (img_w img_h : Z) (g : Rng) : list (Z * Z) * Rng :=
  match n with
  | O => ([], g)
  | S n' =>
      let (x, g1) := randint 0 (Z.max 0 (CANVAS_WIDTH - img_w)) g in
      let (y, g2) := randint 0 (Z.max 0 (CANVAS_HEIGHT - img_h)) g1 in
      let (rest, g') := candidates n' img_w img_h g2 in
      ((x, y) :: rest, g')
  end.

Definition _load_stamp_from_gcs (code : string) : Outcome (option Image) :=
  bucket_name <- _require_bucket ;;
  let filename := (lower code ++ "-arrival.png")%string in
  let blob_path := (rstrip_slash STAMPS_PREFIX ++ "/" ++ filename)%string in
  match bucket blob_path with
  | None => Return None
  | Some img_bytes =>
      img <- open_rgba img_bytes ;;
      img <- contain img (width img, height img) BICUBIC ;;
      Return (Some img)
  end.

Record CompositionResult : Type := mkResult {
  filename : string;
  gs_path : string;
  placed : list string;
  missing : list string
}.

(** The locals the stamp loop updates. *)
Record stamp_state : Type := mkStampState {
  st_canvas : Image;
  st_placed_boxes : list box;
  st_placed : list string;
  st_missing : list string
}.

Fixpoint stamp_loop (codes : list string) (st : stamp_state) : M stamp_state :=
  match codes with
  | [] => ret st
  | code :: rest =>
      stamp <~ lift (_load_stamp_from_gcs code) ;;
      match stamp with
      | None =>
          stamp_loop rest
            (mkStampState (st_canvas st) (st_placed_boxes st) (st_placed st)
               (st_missing st ++ [code]))
      | Some stamp =>
          transformed <~ _random_transform stamp ;;
          '(x, y) <~ draw (_choose_position (width transformed) (height transformed)
                             (st_placed_boxes st)) ;;
          let canvas := alpha_composite over (st_canvas st) transformed (x, y) in
          stamp_loop rest
            (mkStampState canvas
               (st_placed_boxes st ++ [(x, y, width transformed, height transformed)])
               (st_placed st ++ [code])
               (st_missing st))
      end
  end.

(** [[c.lower() for c in codes if c]] *)
Definition stamp_codes (codes : list string) : list string :=
  map lower (filter truthy codes).

Definition compose_passport_stamps (codes : list string) : M CompositionResult :=
  let codes := stamp_codes codes in
  match codes with
  | [] => throw (ValueError "No country codes provided.")
  | _ =>
      canvas <~ lift (new RGBA (CANVAS_WIDTH, CANVAS_HEIGHT) (0, 0, 0, 0)) ;;
      st <~ stamp_loop codes (mkStampState canvas [] [] []) ;;
      match st_placed st with
      | [] => throw (ValueError "No stamps found matching provided codes.")
      | _ =>
          filename <~ _random_filename "stamps" ;;
          gs_path <~ _save_canvas_to_gcs (st_canvas st) filename FLAGS_OUTPUT_PREFIX ;;
          ret (mkResult filename gs_path (st_placed st) (st_missing st))
      end
  end.

(** *** Flag grid *)

(** ["".join([c * 2 for c in s])] *)
Fixpoint double_chars (s : string) : string :=
  match s with
  | EmptyString => EmptyString
  | String c r => String c (String c (double_chars r))
  end.

(** The background colour: [None] stands for the keyword [transparent]. *)
Definition hex_to_rgba (col : string) : Outcome (option color) :=
  if String.eqb (lower col) "transparent" then Return None
  else if startswith "#" col && ((len col =? 4) || (len col =? 7)) then
    let col := if len col =? 4
               then ("#" ++ double_chars (substring 1 (String.length col - 1) col))%string
               else col in
    r <- int16 (slice 1 3 col) ;;
    g <- int16 (slice 3 5 col) ;;
    b <- int16 (slice 5 7 col) ;;
    Return (Some (r, g, b, 255))
  else Return (Some (255, 255, 255, 255)).

Definition make_uniform_tile_from_bytes (img_bytes : list Byte.byte) (box_h : Z)
  (ratio_w_over_h : Q) (fit_mode : string) : Outcome Image :=
  let box_w := round (ratio_w_over_h * inject_Z box_h) in
  img <- open_rgba img_bytes ;;
  let w := width img in
  let h := height img in
  if String.eqb fit_mode "pad" then
    sx <- truediv box_w w ;;
    sy <- truediv box_h h ;;
    let scale := minq sx sy in
    let new_w := Z.max 1 (round (inject_Z w * scale)) in
    let new_h := Z.max 1 (round (inject_Z h * scale)) in
    img <- resize img (new_w, new_h) LANCZOS ;;
    tile <- new RGBA (box_w, box_h) (0, 0, 0, 0) ;;
    let x := (box_w - new_w) / 2 in
    let y := (box_h - new_h) / 2 in
    Return (alpha_composite over tile img (x, y))
  else if String.eqb fit_mode "crop" then
    sx <- truediv box_w w ;;
    sy <- truediv box_h h ;;
    let scale := maxq sx sy in
    let new_w := Z.max 1 (round (inject_Z w * scale)) in
    let new_h := Z.max 1 (round (inject_Z h * scale)) in
    img <- resize img (new_w, new_h) LANCZOS ;;
    let left := Z.max 0 ((new_w - box_w) / 2) in
    let top := Z.max 0 ((new_h - box_h) / 2) in
    let right := left + box_w in
    let bottom := top + box_h in
    crop img (left, top, right, bottom)
  else
    (* fit_mode == "stretch" *)
    resize img (box_w, box_h) LANCZOS.

(** The normalizer of the command-line variant, [make_uniform_tile] of
    [flag_grid_12ratio_fit.py], on the content of the image file: it has no
    stretch branch, every mode other than [pad] crops. *)
Definition make_uniform_tile (img_file : list Byte.byte) (box_h : Z)
  (ratio_w_over_h : Q) (fit_mode : string) : Outcome Image :=
  let box_w := round (ratio_w_over_h * inject_Z box_h) in
  img <- open_rgba img_file ;;
  let w := width img in
  let h := height img in
  if String.eqb fit_mode "pad" then
    sx <- truediv box_w w ;;
    sy <- truediv box_h h ;;
    let scale := minq sx sy in
    let new_w := Z.max 1 (round (inject_Z w * scale)) in
    let new_h := Z.max 1 (round (inject_Z h * scale)) in
    img <- resize img (new_w, new_h) LANCZOS ;;
    tile <- new RGBA (box_w, box_h) (0, 0, 0, 0) ;;
    let x := (box_w - new_w) / 2 in
    let y := (box_h - new_h) / 2 in
    Return (alpha_composite over tile img (x, y))
  else
    sx <- truediv box_w w ;;
    sy <- truediv box_h h ;;
    let scale := maxq sx sy in
    let new_w := Z.max 1 (round (inject_Z w * scale)) in
    let new_h := Z.max 1 (round (inject_Z h * scale)) in
    img <- resize img (new_w, new_h) LANCZOS ;;
    let left := Z.max 0 ((new_w - box_w) / 2) in
    let top := Z.max 0 ((new_h - box_h) / 2) in
    let right := left + box_w in
    let bottom := top + box_h in
    crop img (left, top, right, bottom).

Definition _load_flag_tile_from_gcs (code : string) (tile_height : Z)
  (fit_mode : string) : Outcome (option Image) :=
  bucket_name <- _require_bucket ;;
  let flag_filename := (lower code ++ ".png")%string in
  let blob_path := (rstrip_slash FLAGS_PREFIX ++ "/" ++ flag_filename)%string in
  match bucket blob_path with
  | None => Return None
  | Some img_bytes =>
      tile <- make_uniform_tile_from_bytes img_bytes tile_height (2 # 1) fit_mode ;;
      Return (Some tile)
  end.

(** [[c.strip().lower() for c in codes if c.strip()]] *)
Definition flag_codes (codes : list string) : list string :=
  map (fun c => lower (strip c)) (filter (fun c => truthy (strip c)) codes).

Fixpoint load_tiles (codes : list string) (tile_height : Z) (fit_mode : string)
  (missing : list string) (tiles : list (string * Image))
  : Outcome (list string * list (string * Image)) :=
  match codes with
  | [] => Return (missing, tiles)
  | code :: rest =>
      tile <- _load_flag_tile_from_gcs code tile_height fit_mode ;;
      match tile with
      | None => load_tiles rest tile_height fit_mode (missing ++ [code]) tiles
      | Some tile => load_tiles rest tile_height fit_mode missing (tiles ++ [(code, tile)])
      end
  end.

(** The grid geometry computed by [build_flag_grid] from the resolved tiles
    and the requested [cols] and [gap]; [g_cols] and [g_gap] are the values
    the source rebinds [cols] and [gap] to. *)
Record Geometry : Type := mkGeometry {
  tile_w : Z;
  tile_h : Z;
  g_cols : Z;
  g_rows : Z;
  g_gap : Z;
  canvas_w : Z;
  canvas_h : Z
}.

Definition grid_geometry (tiles : list (string * Image)) (cols gap : Z)
  : Outcome Geometry :=
  match tiles with
  | [] => Raise (IndexError "list index out of range")
  | (_, first) :: _ =>
      let '(tile_w, tile_h) := size first in
      let n := Z.of_nat (List.length tiles) in
      let cols := Z.max 1 (Z.min cols n) in
      ratio <- truediv n cols ;;
      let rows := ceil ratio in
      let gap := Z.max 0 gap in
      let canvas_w := cols * tile_w + (cols - 1) * gap in
      let canvas_h := rows * tile_h + (rows - 1) * gap in
      Return (mkGeometry tile_w tile_h cols rows gap canvas_w canvas_h)
  end.

(** Where the tile of index [idx] goes. *)
Definition tile_position (geo : Geometry) (idx : Z) : Z * Z :=
  let r := idx / g_cols geo in
  let c := idx mod g_cols geo in
  let x := c * (tile_w geo + g_gap geo) in
  let y := r * (tile_h geo + g_gap geo) in
  (x, y).

(** [for idx, (_, tile) in enumerate(tiles)]: paste each tile at its place. *)
Fixpoint paste_tiles (geo : Geometry) (idx : Z) (tiles : list (string * Image))
  (canvas : Image) : Image :=
  match tiles with
  | [] => canvas
  | (_, tile) :: rest =>
      paste_tiles geo (idx + 1) rest
        (alpha_composite over canvas tile (tile_position geo idx))
  end.

(** The canvas before any tile is pasted. *)
Definition blank_canvas (geo : Geometry) (bg_rgba : option color) : Outcome Image :=
  new RGBA (canvas_w geo, canvas_h geo)
    (match bg_rgba with None => (0, 0, 0, 0) | Some c => c end).

Definition build_flag_grid (codes : list string) (cols gap tile_height : Z)
  (bg fit_mode : string) : M CompositionResult :=
  let codes := flag_codes codes in
  match codes with
  | [] => throw (ValueError "No country codes provided.")
  | _ =>
      '(missing, tiles) <~ lift (load_tiles codes tile_height fit_mode [] []) ;;
      match tiles with
      | [] => throw (ValueError "No images could be loaded. Check codes and FLAGS_PREFIX.")
      | _ =>
          geo <~ lift (grid_geometry tiles cols gap) ;;
          bg_rgba <~ lift (hex_to_rgba bg) ;;
          canvas <~ lift (blank_canvas geo bg_rgba) ;;
          let canvas := paste_tiles geo 0 tiles canvas in
          filename <~ _random_filename "flags" ;;
          gs_path <~
            match bg_rgba with
            | None => _save_canvas_to_gcs canvas filename FLAGS_OUTPUT_PREFIX
            | Some _ =>
                let rgb_canvas := convert RGB canvas in
                _save_canvas_to_gcs rgb_canvas filename FLAGS_OUTPUT_PREFIX
            end ;;
          let placed_codes := map fst tiles in
          ret (mkResult filename gs_path placed_codes missing)
      end
  end.

(** The two failures of the pipelines, by the names the specification gives
    them. *)
Definition InvalidInput : exn := ValueError "No country codes provided.".

Definition NoAssetsResolved_stamps : exn :=
  ValueError "No stamps found matching provided codes.".

Definition NoAssetsResolved_flags : exn :=
  ValueError "No images could be loaded. Check codes and FLAGS_PREFIX.".

(** The canvas of the stamp collage before any stamp is placed. *)
Definition blank_stamp_canvas : Image :=
  mkImage RGBA CANVAS_WIDTH CANVAS_HEIGHT (fun _ _ => (0, 0, 0, 0)).

(** The object a run writes for the file name it generated. *)
Definition output_path (filename : string) : string :=
  (rstrip_slash FLAGS_OUTPUT_PREFIX ++ "/" ++ filename)%string.

(** *** Vocabulary of the specification *)

(** Every candidate of the list overlaps some placed box. *)
Definition all_overlap (img_w img_h : Z) (placed_boxes : list box)
  (tried : list (Z * Z)) : Prop :=
  Forall (fun xy => overlaps_any (fst xy, snd xy, img_w, img_h) placed_boxes = true)
    tried.

(** The last element of a list of candidates, if any. *)
Definition last_tried (tried : list (Z * Z)) (before : option (Z * Z))
  : option (Z * Z) :=
  match tried with
  | [] => before
  | xy :: rest => Some (last rest xy)
  end.

(** [clamp(v, lo, hi)] *)
Definition clamp (v lo hi : Z) : Z :=
  if v <? lo then lo else if hi <? v then hi else v.

(** A well-formed [#RGB] or [#RRGGBB] colour: a hash sign followed by three
    or six hexadecimal digits. *)
Definition is_hex_digit (c : ascii) : bool :=
  match hex_digit c with Some _ => true | None => false end.

Definition well_formed_hex (col : string) : bool :=
  match list_ascii_of_string col with
  | "#"%char :: digits =>
      ((List.length digits =? 3)%nat || (List.length digits =? 6)%nat)
      && forallb is_hex_digit digits
  | _ => false
  end.

(** A spelling of [s] in some mix of upper and lower case: the letters
    marked in [mask] are capitalised. *)
Fixpoint recase (mask : list bool) (s : string) : string :=
  match s, mask with
  | String c r, true :: m => String (upper_ascii_char c) (recase m r)
  | String c r, false :: m => String c (recase m r)
  | _, _ => s
  end.

(** *** Vocabulary of the further properties *)

(** What [random.randint] promises: a value of the closed range. *)
Definition randint_contract : Prop :=
  forall (lo hi : Z) (g : Rng), lo <= hi -> lo <= fst (randint lo hi g) <= hi.

(** The candidate position leaves every placed box alone. *)
Definition free_at (img_w img_h : Z) (placed_boxes : list box) (xy : Z * Z) : bool :=
  negb (overlaps_any (fst xy, snd xy, img_w, img_h) placed_boxes).

(** A recorded box starts inside the canvas, and lies within it on each
    axis on which the stamp is not larger than the canvas. *)
Definition box_in_canvas (b : box) : Prop :=
  let '(x, y, w, h) := b in
  0 <= x /\ 0 <= y
  /\ (w <= CANVAS_WIDTH -> x + w <= CANVAS_WIDTH)
  /\ (h <= CANVAS_HEIGHT -> y + h <= CANVAS_HEIGHT).

(** The hexadecimal digits and their values. *)
Definition hex_table : list (ascii * Z) :=
  [("0"%char, 0); ("1"%char, 1); ("2"%char, 2); ("3"%char, 3); ("4"%char, 4);
   ("5"%char, 5); ("6"%char, 6); ("7"%char, 7); ("8"%char, 8); ("9"%char, 9);
   ("a"%char, 10); ("b"%char, 11); ("c"%char, 12); ("d"%char, 13); ("e"%char, 14);
   ("f"%char, 15);
   ("A"%char, 10); ("B"%char, 11); ("C"%char, 12); ("D"%char, 13); ("E"%char, 14);
   ("F"%char, 15)].

(** Whether a code resolves to a stamp, and to a flag tile. *)
Definition stamp_resolves (code : string) : bool :=
  match _load_stamp_from_gcs code with
  | Return (Some _) => true
  | _ => false
  end.

Definition flag_resolves (tile_height : Z) (fit_mode : string) (code : string) : bool :=
  match _load_flag_tile_from_gcs code tile_height fit_mode with
  | Return (Some _) => true
  | _ => false
  end.

(** A string is empty or begins with a character outside of [p]. *)
Definition head_outside (p : ascii -> bool) (s : string) : Prop :=
  match s with
  | EmptyString => True
  | String c _ => p c = false
  end.

(** A code as the pipelines want it: not empty, without blanks around it,
    in lower case. *)
Definition normal_code (c : string) : Prop :=
  c <> "" /\ strip c = c /\ lower c = c.

(** *** The HTTP entry point of the stamp collage

    [compose_passport_stamps_http] of [compose_passport_stamps_http.py].
    The request is what the handler reads from it: the method, whether the
    content type is JSON, the document [get_json(silent=True)] returns
    ([None] when there is none or it does not parse) and the query
    arguments.  The JSON text of a response is left out: a response is its
    status and the object that is serialized. *)

(** JSON numbers with a fraction or an exponent decode to floats, of which
    the handler only tests whether they are zero. *)
Variable Float : Type.
Variable float_is_zero : Float -> bool.

Local Unset Elimination Schemes.

(** The members of an object are its keys, each once, with their values. *)
Inductive Json : Type :=
| JNull
| JBool (b : bool)
| JInt (z : Z)
| JFloat (f : Float)
| JString (s : string)
| JArray (items : list Json)
| JObject (members : list (string * Json)).

Local Set Elimination Schemes.

(** [str(v)] of a decoded value that is not a string. *)
Variable repr : Json -> string.

(** [str(v)] *)
Definition py_str (v : Json) : string :=
  match v with
  | JString s => s
  | _ => repr v
  end.

(** Truthiness of a decoded value, as [or] tests it. *)
Definition json_truthy (v : Json) : bool :=
  match v with
  | JNull => false
  | JBool b => b
  | JInt z => negb (z =? 0)
  | JFloat f => negb (float_is_zero f)
  | JString s => truthy s
  | JArray items => match items with [] => false | _ => true end
  | JObject members => match members with [] => false | _ => true end
  end.

(** [type(v).__name__] *)
Definition type_name (v : Json) : string :=
  match v with
  | JNull => "NoneType"
  | JBool _ => "bool"
  | JInt _ => "int"
  | JFloat _ => "float"
  | JString _ => "str"
  | JArray _ => "list"
  | JObject _ => "dict"
  end.

(** [d.get(key)] on the members of an object or on the query arguments. *)
Fixpoint lookup {A : Type} (members : list (string * A)) (key : string) : option A :=
  match members with
  | [] => None
  | (k, v) :: rest => if String.eqb k key then Some v else lookup rest key
  end.

Record Request : Type := mkRequest {
  req_method : string;
  req_is_json : bool;
  req_json : option Json;
  req_args : list (string * string)
}.

Inductive Payload : Type :=
| NoContent
| Failure (error : string)
| Success (result : CompositionResult).

Record Response : Type := mkResponse {
  status : Z;
  payload : Payload
}.

(** [str(e)] of an exception raised with its message as only argument. *)
Definition exn_message (e : exn) : string :=
  match e with
  | ValueError msg | RuntimeError msg | ZeroDivisionError msg
  | IndexError msg | OSError msg => msg
  end.

(** [s.split(sep)] for a separator of one character. *)
Fixpoint split_on (sep : ascii) (s : string) : list string :=
  match s with
  | EmptyString => [EmptyString]
  | String c r =>
      if Ascii.eqb c sep then EmptyString :: split_on sep r
      else match split_on sep r with
           | piece :: pieces => String c piece :: pieces
           | [] => [String c EmptyString]
           end
  end.

(** [[c.strip() for c in param.split(",") if c.strip()]] *)
Definition codes_of_param (param : string) : list string :=
  map strip (filter (fun c => truthy (strip c)) (split_on "," param)).

(** The codes of the JSON body, or the message of the error that reading
    them raises. *)
Definition codes_of_body (req : Request) : string + list string :=
  if req_is_json req then
    let body :=
      match req_json req with
      | Some v => if json_truthy v then v else JObject []
      | None => JObject []
      end in
    match body with
    | JObject members =>
        match lookup members "codes" with
        | Some (JArray items) => inr (map py_str items)
        | _ => inr []
        end
    | other => inl ("'" ++ type_name other ++ "' object has no attribute 'get'")%string
    end
  else inr [].

Definition compose_passport_stamps_http (req : Request) (w : World)
  : Response * World :=
  if String.eqb (req_method req) "OPTIONS" then (mkResponse 204 NoContent, w)
  else
    match codes_of_body req with
    | inl error => (mkResponse 500 (Failure error), w)
    | inr codes =>
        let codes :=
          match codes with
          | [] =>
              match lookup (req_args req) "codes" with
              | Some param => if truthy param then codes_of_param param else []
              | None => []
              end
          | _ => codes
          end in
        match codes with
        | [] => (mkResponse 400 (Failure "No country codes provided."), w)
        | _ =>
            match compose_passport_stamps codes w with
            | (Return result, w') => (mkResponse 200 (Success result), w')
            | (Raise e, w') => (mkResponse 500 (Failure (exn_message e)), w')
            end
        end
    end.

(** The codes the handler hands to the pipeline: those of the body, and
    those of the query string when the body gives none; or the message of
    the error that reading the body raises. *)
Definition request_codes (req : Request) : string + list string :=
  match codes_of_body req with
  | inl error => inl error
  | inr [] =>
      inr match lookup (req_args req) "codes" with
          | Some param => if truthy param then codes_of_param param else []
          | None => []
          end
  | inr codes => inr codes
  end.

(** The character does not occur in the string. *)
Definition lacks (c : ascii) (s : string) : Prop :=
  ~ In c (list_ascii_of_string s).

(** *** The command-line grid, [main] of [flag_grid_12ratio_fit.py]

    The parsed arguments are a record; [files] gives the content of the
    regular files by path ([os.path.isfile] and reading).  The image
    written is recorded like an upload, under its local path. *)

Variable files : string -> option (list Byte.byte).
(** [datetime.datetime.now().strftime("%Y%m%d_%H%M%S")] *)
Variable now_stamp : string.

Record Args : Type := mkArgs {
  arg_codes : list string;
  arg_src_root : string;
  arg_cols : Z;
  arg_gap : Z;
  arg_tile_height : Z;
  arg_bg : string;
  arg_fit_mode : string
}.

(** [os.path.join(a, b)] on POSIX paths. *)
Definition path_join (a b : string) : string :=
  if startswith "/" b then b
  else
    match a with
    | EmptyString => b
    | _ =>
        if String.eqb (substring (String.length a - 1) 1 a) "/"
        then (a ++ b)%string
        else (a ++ "/" ++ b)%string
    end.

(** [", ".join(items)] *)
Fixpoint join_comma (items : list string) : string :=
  match items with
  | [] => EmptyString
  | [s] => s
  | s :: rest => (s ++ ", " ++ join_comma rest)%string
  end.

(** The loading loop: a code without a file is missing; a code whose tile
    cannot be built is missing too, with the error text (the text of the
    exception as modelled: for a file that is no image the library's own
    text goes on with the name of the file). *)
Fixpoint cli_load_tiles (codes : list string) (src_root : string) (tile_height : Z)
  (fit_mode : string) (missing : list string) (tiles : list (string * Image))
  : list string * list (string * Image) :=
  match codes with
  | [] => (missing, tiles)
  | code :: rest =>
      let path := path_join src_root (code ++ ".png")%string in
      match files path with
      | None =>
          cli_load_tiles rest src_root tile_height fit_mode (missing ++ [code]) tiles
      | Some img_file =>
          match make_uniform_tile img_file tile_height (2 # 1) fit_mode with
          | Return tile =>
              cli_load_tiles rest src_root tile_height fit_mode missing
                (tiles ++ [(code, tile)])
          | Raise e =>
              cli_load_tiles rest src_root tile_height fit_mode
                (missing ++ [(code ++ " (error: " ++ exn_message e ++ ")")%string]) tiles
          end
      end
  end.

(** How the program ends: [sys.exit(code)], an exception that nothing
    catches, or the normal end after printing the path of the image. *)
Inductive CliEnd : Type :=
| Exited (code : Z)
| Uncaught (e : exn)
| Printed (out_path : string).

Record CliRun : Type := mkCliRun {
  cli_end : CliEnd;
  cli_stderr : list string;
  cli_writes : list (string * Image)
}.

Definition cli_main (args : Args) : CliRun :=
  let codes := flag_codes (arg_codes args) in
  match codes with
  | [] => mkCliRun (Exited 1) ["No country codes provided."] []
  | _ =>
      let '(missing, tiles) :=
        cli_load_tiles codes (arg_src_root args) (arg_tile_height args)
          (arg_fit_mode args) [] [] in
      match tiles with
      | [] =>
          mkCliRun (Exited 2)
            ("No images could be loaded. Check codes and src-root."
             :: match missing with
                | [] => []
                | _ => [("Missing or failed: " ++ join_comma missing)%string]
                end)
            []
      | _ =>
          let warnings :=
            match missing with
            | [] => []
            | _ => [("Warning: missing flags for: " ++ join_comma missing)%string]
            end in
          match grid_geometry tiles (arg_cols args) (arg_gap args) with
          | Raise e => mkCliRun (Uncaught e) warnings []
          | Return geo =>
              match hex_to_rgba (arg_bg args) with
              | Raise e => mkCliRun (Uncaught e) warnings []
              | Return bg_rgba =>
                  match blank_canvas geo bg_rgba with
                  | Raise e => mkCliRun (Uncaught e) warnings []
                  | Return canvas =>
                      let canvas := paste_tiles geo 0 tiles canvas in
                      let out_path := ("/tmp/flags_grid_" ++ now_stamp ++ ".png")%string in
                      let saved :=
                        match bg_rgba with
                        | None => canvas
                        | Some _ => convert RGB canvas
                        end in
                      match save_png saved with
                      | Raise e => mkCliRun (Uncaught e) warnings []
                      | Return _ =>
                          mkCliRun (Printed out_path) warnings [(out_path, saved)]
                      end
                  end
              end
          end
      end
  end.

(** The exit status of the process: the argument of [sys.exit], 1 after an
    exception that nothing catches, 0 after the normal end. *)
Definition exit_status (e : CliEnd) : Z :=
  match e with
  | Exited code => code
  | Uncaught _ => 1
  | Printed _ => 0
  end.

(** Whether the command-line loop gets a tile for a code. *)
Definition cli_resolves (src_root : string) (tile_height : Z) (fit_mode : string)
  (code : string) : bool :=
  match files (path_join src_root (code ++ ".png")%string) with
  | Some img_file =>
      match make_uniform_tile img_file tile_height (2 # 1) fit_mode with
      | Return _ => true
      | Raise _ => false
      end
  | None => false
  end.

(** The pixel lies in the box. *)
Definition inside (b : box) (px py : Z) : Prop :=
  let '(x, y, w, h) := b in x <= px < x + w /\ y <= py < y + h.

(** *** The tile normalizer in float arithmetic

    [make_uniform_tile_from_bytes] above computes the scale factors with
    exact rationals.  The source computes them with floats: each operation
    gives the float nearest to its exact result.  [fl] is that rounding,
    and [make_uniform_tile_from_bytes_float] is the same function with
    every float operation of the source rounded. *)

Variable fl : Q -> Q.

(** [float(n)]: an [int] operand of a float operation is converted first. *)
Definition float_of_int (n : Z) : Q := fl (inject_Z n).

(** [x * y] on floats. *)
Definition float_mul (x y : Q) : Q := fl (x * y).

(** [a / b] on integers: the quotient is rounded once. *)
Definition float_truediv (a b : Z) : Outcome Q :=
  if b =? 0 then Raise (ZeroDivisionError "division by zero")
  else Return (fl (inject_Z a / inject_Z b)).

Definition make_uniform_tile_from_bytes_float (img_bytes : list Byte.byte) (box_h : Z)
  (ratio_w_over_h : Q) (fit_mode : string) : Outcome Image :=
  let box_w := round (float_mul ratio_w_over_h (float_of_int box_h)) in
  img <- open_rgba img_bytes ;;
  let w := width img in
  let h := height img in
  if String.eqb fit_mode "pad" then
    sx <- float_truediv box_w w ;;
    sy <- float_truediv box_h h ;;
    let scale := minq sx sy in
    let new_w := Z.max 1 (round (float_mul (float_of_int w) scale)) in
    let new_h := Z.max 1 (round (float_mul (float_of_int h) scale)) in
    img <- resize img (new_w, new_h) LANCZOS ;;
    tile <- new RGBA (box_w, box_h) (0, 0, 0, 0) ;;
    let x := (box_w - new_w) / 2 in
    let y := (box_h - new_h) / 2 in
    Return (alpha_composite over tile img (x, y))
  else if String.eqb fit_mode "crop" then
    sx <- float_truediv box_w w ;;
    sy <- float_truediv box_h h ;;
    let scale := maxq sx sy in
    let new_w := Z.max 1 (round (float_mul (float_of_int w) scale)) in
    let new_h := Z.max 1 (round (float_mul (float_of_int h) scale)) in
    img <- resize img (new_w, new_h) LANCZOS ;;
    let left := Z.max 0 ((new_w - box_w) / 2) in
    let top := Z.max 0 ((new_h - box_h) / 2) in
    let right := left + box_w in
    let bottom := top + box_h in
    crop img (left, top, right, bottom)
  else
    (* fit_mode == "stretch" *)
    resize img (box_w, box_h) LANCZOS.

(** What rounding to the nearest float guarantees for the results that
    occur here, which lie between 2^-64 and 2^64: it is monotone, it keeps
    the integers up to 2^53, and its relative error is at most 2^-53. *)
Definition float_contract : Prop :=
  (forall x y : Q, 0 <= x -> x <= y -> y <= 18446744073709551616 -> fl x <= fl y)%Q
  /\ (forall n : Z, 0 <= n <= 9007199254740992 -> (fl (inject_Z n) == inject_Z n)%Q)
  /\ (forall x : Q, (1 # 18446744073709551616) <= x -> x <= 18446744073709551616 ->
        x * (1 - (1 # 9007199254740992)) <= fl x
        /\ fl x <= x * (1 + (1 # 9007199254740992)))%Q.

(** ** Properties *)

(** *** Overlap of bounding boxes *)

Lemma boxes_overlap_false_iff (a b : box) :
  _boxes_overlap a b = false <->
  let '(ax, ay, aw, ah) := a in
  let '(bx, by_, bw, bh) := b in
  ax + aw <= bx \/ bx + bw <= ax \/ ay + ah <= by_ \/ by_ + bh <= ay.
Proof.
  destruct a as [[[ax ay] aw] ah], b as [[[bx by_] bw] bh].
  unfold _boxes_overlap.
  rewrite negb_false_iff, !orb_true_iff, !Z.leb_le, !or_assoc.
  reflexivity.
Qed.

(** C1. Two boxes are judged overlapping unless one lies entirely to the
    left of, to the right of, above or below the other; the verdict does not
    depend on the order of the two boxes; and boxes that only share an edge,
    as (0,0,10,10) and (10,0,10,10) do, are judged non-overlapping. *)
Theorem boxes_overlap_symmetric :
  (forall ax ay aw ah bx by_ bw bh : Z,
      _boxes_overlap (ax, ay, aw, ah) (bx, by_, bw, bh) = true <->
      ~ (ax + aw <= bx \/ bx + bw <= ax \/ ay + ah <= by_ \/ by_ + bh <= ay))
  /\ (forall a b : box, _boxes_overlap a b = _boxes_overlap b a)
  /\ _boxes_overlap (0, 0, 10, 10) (10, 0, 10, 10) = false
  /\ (forall ax ay aw ah bw bh : Z,
        _boxes_overlap (ax, ay, aw, ah) (ax + aw, ay, bw, bh) = false
        /\ _boxes_overlap (ax, ay, aw, ah) (ax, ay + ah, bw, bh) = false).
Proof.
  split; [| split; [| split]].
  - intros. rewrite <- (boxes_overlap_false_iff (ax, ay, aw, ah) (bx, by_, bw, bh)).
    destruct (_boxes_overlap _ _); split; intro H; try reflexivity;
      try discriminate; exfalso; apply H; reflexivity.
  - intros [[[ax ay] aw] ah] [[[bx by_] bw] bh]. unfold _boxes_overlap.
    f_equal.
    destruct (ax + aw <=? bx), (bx + bw <=? ax), (ay + ah <=? by_), (by_ + bh <=? ay);
      reflexivity.
  - reflexivity.
  - intros; split; apply boxes_overlap_false_iff; lia.
Qed.

(** *** The placement search *)

Lemma candidates_S (n : nat) (img_w img_h : Z) (g : Rng) :
  candidates (S n) img_w img_h g =
  let xg := randint 0 (Z.max 0 (CANVAS_WIDTH - img_w)) g in
  let yg := randint 0 (Z.max 0 (CANVAS_HEIGHT - img_h)) (snd xg) in
  let rg := candidates n img_w img_h (snd yg) in
  ((fst xg, fst yg) :: fst rg, snd rg).
Proof.
  cbn [candidates].
  destruct (randint 0 (Z.max 0 (CANVAS_WIDTH - img_w)) g) as [x g1]; cbn [fst snd].
  destruct (randint 0 (Z.max 0 (CANVAS_HEIGHT - img_h)) g1) as [y g2]; cbn [fst snd].
  destruct (candidates n img_w img_h g2); reflexivity.
Qed.

Lemma last_cons {A : Type} (l : list A) (a d : A) : last (a :: l) d = last l a.
Proof.
  revert a d. induction l as [| b l IH]; intros a d; [reflexivity |].
  change (last (a :: b :: l) d) with (last (b :: l) d).
  rewrite (IH b d), (IH b a). reflexivity.
Qed.

Lemma last_tried_cons (xy : Z * Z) (l : list (Z * Z)) (before : option (Z * Z)) :
  last_tried (xy :: l) before = last_tried l (Some xy).
Proof.
  destruct l as [| c rest]; [reflexivity |].
  unfold last_tried. now rewrite last_cons.
Qed.

(** The loop runs out of iterations exactly along the candidates list, and
    then its locals hold the last candidate. *)
Lemma retry_loop_exhausted (img_w img_h : Z) (placed_boxes : list box) :
  forall (n : nat) (before : option (Z * Z)) (g : Rng),
    all_overlap img_w img_h placed_boxes (fst (candidates n img_w img_h g)) ->
    retry_loop n img_w img_h placed_boxes before g =
    Exhausted (last_tried (fst (candidates n img_w img_h g)) before)
      (snd (candidates n img_w img_h g)).
Proof.
  induction n as [| n IH]; intros before g Hall.
  - reflexivity.
  - rewrite candidates_S in *. cbn [retry_loop].
    destruct (randint 0 (Z.max 0 (CANVAS_WIDTH - img_w)) g) as [x g1]; cbn [fst snd] in *.
    destruct (randint 0 (Z.max 0 (CANVAS_HEIGHT - img_h)) g1) as [y g2]; cbn [fst snd] in *.
    inversion Hall as [| ? ? Hxy Hrest]; subst. cbn [fst snd] in Hxy.
    rewrite Hxy. cbn [AVOID_OVERLAP negb orb].
    rewrite (IH _ _ Hrest), last_tried_cons. reflexivity.
Qed.

(** C2 (as the code does it). When every one of the OVERLAP_RETRIES
    candidates of the retry loop overlaps a placed box, the position
    returned is a new draw, made after the loop from the generator as the
    loop left it: an x in the same range, then a y.  The search is a total
    function: it always returns a position. *)
Theorem choose_position_fallback_is_fresh_draw
  (img_w img_h : Z) (placed_boxes : list box) (g : Rng) :
  all_overlap img_w img_h placed_boxes
    (fst (candidates OVERLAP_RETRIES img_w img_h g)) ->
  let g' := snd (candidates OVERLAP_RETRIES img_w img_h g) in
  let xg := randint 0 (Z.max 0 (CANVAS_WIDTH - img_w)) g' in
  let yg := randint 0 (Z.max 0 (CANVAS_HEIGHT - img_h)) (snd xg) in
  _choose_position img_w img_h placed_boxes g = ((fst xg, fst yg), snd yg).
Proof.
  intros Hall g' xg yg. unfold _choose_position. cbn [AVOID_OVERLAP].
  rewrite (retry_loop_exhausted _ _ _ _ _ _ Hall). fold g'.
  subst xg yg.
  destruct (randint 0 (Z.max 0 (CANVAS_WIDTH - img_w)) g') as [x g1]; cbn [fst snd].
  destruct (randint 0 (Z.max 0 (CANVAS_HEIGHT - img_h)) g1) as [y g2]; reflexivity.
Qed.

(** *** Grid geometry *)

Lemma ceil_truediv (n c : Z) :
  0 < c -> ceil (inject_Z n / inject_Z c) = - ((- n) / c).
Proof.
  intro Hc. destruct c as [| p | p]; try lia.
  unfold ceil, Qceiling, Qfloor, Qdiv, Qinv, Qmult, Qopp, inject_Z. cbn.
  rewrite Z.mul_1_r. reflexivity.
Qed.

(** The ceiling of [n / c] is the least number of rows of [c] cells that
    hold [n] cells. *)
Lemma ceil_truediv_bounds (n c : Z) :
  0 < c ->
  let r := ceil (inject_Z n / inject_Z c) in
  (r - 1) * c < n <= r * c.
Proof.
  intros Hc r. subst r. rewrite (ceil_truediv n c Hc).
  pose proof (Z.div_mod (- n) c ltac:(lia)) as Hdm.
  pose proof (Z.mod_pos_bound (- n) c Hc) as Hb.
  nia.
Qed.

Lemma clamp_max_min (v n : Z) : 1 <= n -> Z.max 1 (Z.min v n) = clamp v 1 n.
Proof.
  intro Hn. unfold clamp.
  destruct (Z.ltb_spec v 1); [lia |].
  destruct (Z.ltb_spec n v); lia.
Qed.

Lemma grid_geometry_cons (code : string) (first : Image) (rest : list (string * Image))
  (cols gap : Z) :
  let tiles := (code, first) :: rest in
  let n := Z.of_nat (List.length tiles) in
  let c := Z.max 1 (Z.min cols n) in
  let r := ceil (inject_Z n / inject_Z c) in
  let g := Z.max 0 gap in
  grid_geometry tiles cols gap =
  Return (mkGeometry (width first) (height first) c r g
            (c * width first + (c - 1) * g) (r * height first + (r - 1) * g)).
Proof.
  intros tiles n c r g. unfold grid_geometry, tiles, size. fold tiles. fold n. fold c.
  unfold truediv. destruct (Z.eqb_spec c 0) as [E | _]; [subst c; lia |].
  reflexivity.
Qed.

(** C3. With n >= 1 resolved tiles and c requested columns, the grid has
    clamp(c, 1, n) columns and ceil(n / columns) rows, its cells have the
    size of the first resolved tile, and its canvas measures
    cols*tile_w + (cols-1)*gap by rows*tile_h + (rows-1)*gap, where cols
    and gap are the values the compositor lays out with (gap is the
    requested gap when that is not negative).  Twenty tiles in eight
    columns make 3 rows of 8; three tiles in eight columns make 1 row
    of 3. *)
Theorem grid_geometry_spec (tiles : list (string * Image)) (c gap : Z) :
  let n := Z.of_nat (List.length tiles) in
  1 <= n ->
  exists (geo : Geometry) (first : string * Image),
    grid_geometry tiles c gap = Return geo
    /\ hd_error tiles = Some first
    /\ g_cols geo = clamp c 1 n
    /\ g_rows geo = ceil (inject_Z n / inject_Z (g_cols geo))
    /\ (g_rows geo - 1) * g_cols geo < n <= g_rows geo * g_cols geo
    /\ (tile_w geo, tile_h geo) = size (snd first)
    /\ g_gap geo = Z.max 0 gap
    /\ (0 <= gap -> g_gap geo = gap)
    /\ canvas_w geo = g_cols geo * tile_w geo + (g_cols geo - 1) * g_gap geo
    /\ canvas_h geo = g_rows geo * tile_h geo + (g_rows geo - 1) * g_gap geo
    /\ (n = 20 -> c = 8 -> g_rows geo = 3 /\ g_cols geo = 8)
    /\ (n = 3 -> c = 8 -> g_cols geo = 3 /\ g_rows geo = 1).
Proof.
  intros n Hn. destruct tiles as [| [code first] rest]; [cbn in n; lia |].
  pose proof (grid_geometry_cons code first rest c gap) as Hgeo. cbv zeta in Hgeo.
  fold n in Hgeo.
  assert (Hc : 0 < Z.max 1 (Z.min c n)) by lia.
  pose proof (ceil_truediv_bounds n _ Hc) as Hrows. cbv zeta in Hrows.
  eexists; exists (code, first).
  split; [exact Hgeo |]. cbn [g_cols g_rows g_gap tile_w tile_h canvas_w canvas_h].
  repeat split; try reflexivity; try lia.
  apply clamp_max_min; exact Hn.
Qed.

(** C10. A negative gap is laid out exactly as gap 0: the geometry
    (columns, rows, canvas width and height) and hence the position of
    every tile are those of gap 0, and so is the whole run of the
    compositor. *)
Theorem negative_gap_is_zero_gap (codes : list string) (tiles : list (string * Image))
  (cols gap tile_height : Z) (bg fit_mode : string) :
  gap < 0 ->
  Z.max 0 gap = 0
  /\ grid_geometry tiles cols gap = grid_geometry tiles cols 0
  /\ (forall geo geo0 : Geometry,
        grid_geometry tiles cols gap = Return geo ->
        grid_geometry tiles cols 0 = Return geo0 ->
        canvas_w geo = canvas_w geo0
        /\ canvas_h geo = canvas_h geo0
        /\ canvas_w geo = g_cols geo * tile_w geo
        /\ canvas_h geo = g_rows geo * tile_h geo
        /\ forall idx : Z,
             tile_position geo idx = tile_position geo0 idx
             /\ tile_position geo idx
                = (idx mod g_cols geo * tile_w geo, idx / g_cols geo * tile_h geo))
  /\ (forall w : World,
        build_flag_grid codes cols gap tile_height bg fit_mode w
        = build_flag_grid codes cols 0 tile_height bg fit_mode w).
Proof.
  intro Hgap.
  assert (Hmax : Z.max 0 gap = 0) by lia.
  assert (Hgeo : forall ts, grid_geometry ts cols gap = grid_geometry ts cols 0).
  { intros [| [code first] rest]; [reflexivity |].
    rewrite !grid_geometry_cons. cbv zeta. rewrite Hmax. reflexivity. }
  split; [exact Hmax |]. split; [apply Hgeo |]. split.
  - intros geo geo0 H H0. rewrite Hgeo in H. rewrite H in H0.
    injection H0 as <-.
    destruct tiles as [| [code first] rest]; [discriminate |].
    rewrite grid_geometry_cons in H. cbv zeta in H.
    change (Z.max 0 0) with 0 in H. rewrite !Z.mul_0_r, !Z.add_0_r in H.
    injection H as <-.
    unfold tile_position. cbn [g_cols g_rows g_gap tile_w tile_h canvas_w canvas_h].
    rewrite !Z.add_0_r. repeat split; reflexivity.
  - intro w. unfold build_flag_grid.
    destruct (flag_codes codes) as [| c0 cs]; [reflexivity |].
    unfold mbind, lift.
    destruct (load_tiles (c0 :: cs) tile_height fit_mode [] []) as [[miss ts] | e];
      [| reflexivity].
    destruct ts as [| t ts]; [reflexivity |].
    rewrite Hgeo. reflexivity.
Qed.

(** *** The flag tile normalizer *)

Lemma round_double (z : Z) : round ((2 # 1) * inject_Z z) = 2 * z.
Proof.
  unfold round, Qfloor, Qmult, Qminus, Qplus, Qopp, Qcompare, inject_Z.
  cbn [Qnum Qden]. change (Z.pos (1 * 1)) with 1.
  rewrite Z.div_1_r.
  replace ((2 * z * 1 + - (2 * z) * 1) * 2 ?= 1 * Z.pos (1 * 1 * 1)) with Lt;
    [reflexivity |].
  symmetry. apply Z.compare_lt_iff. change (Z.pos (1 * 1 * 1)) with 1. lia.
Qed.

Lemma open_rgba_decoded (img_bytes : list Byte.byte) (src : Image) :
  decode img_bytes = Some src -> open_rgba img_bytes = Return (convert RGBA src).
Proof. intro H. unfold open_rgba. rewrite H. reflexivity. Qed.


Lemma resize_positive (im : Image) (w h : Z) (f : resample) :
  0 < w -> 0 < h ->
  exists im', resize im (w, h) f = Return im'
              /\ mode im' = mode im /\ width im' = w /\ height im' = h.
Proof.
  intros Hw Hh. unfold resize.
  destruct ((w =? width im) && (h =? height im)) eqn:E.
  - apply andb_true_iff in E as [E1 E2]. apply Z.eqb_eq in E1, E2.
    exists im. repeat split; congruence.
  - destruct (Z.leb_spec w 0); [lia |]. destruct (Z.leb_spec h 0); [lia |].
    cbn [orb]. eexists. repeat split.
Qed.


(** What the three strategies yield on a decodable source of positive size,
    for any integer [box_h]. *)





(** The command-line normalizer is the same function with every mode other
    than [pad] read as [crop], so it yields tiles of the same size. *)
Lemma make_uniform_tile_as_bytes (img_file : list Byte.byte) (box_h : Z)
  (ratio_w_over_h : Q) (fit_mode : string) :
  make_uniform_tile img_file box_h ratio_w_over_h fit_mode =
  make_uniform_tile_from_bytes img_file box_h ratio_w_over_h
    (if String.eqb fit_mode "pad" then "pad" else "crop").
Proof.
  unfold make_uniform_tile, make_uniform_tile_from_bytes.
  destruct (String.eqb fit_mode "pad"); reflexivity.
Qed.



(** *** The background colour *)

Lemma lower_upper_char (c : ascii) : lower_char (upper_ascii_char c) = lower_char c.
Proof. destruct c as [[] [] [] [] [] [] [] []]; reflexivity. Qed.

Lemma lower_recase (mask : list bool) (s : string) : lower (recase mask s) = lower s.
Proof.
  revert mask. induction s as [| c r IH]; intros [| [] m]; cbn [recase lower];
    try reflexivity; rewrite IH; [rewrite lower_upper_char |]; reflexivity.
Qed.

(** X19. Where the fallback does apply: a string that is not the keyword and
    that lacks the leading hash sign, or has another length than 4 or 7, is
    read as opaque white. *)
Lemma hex_to_rgba_fallback_white (col : string) :
  String.eqb (lower col) "transparent" = false ->
  startswith "#" col = false \/ (len col <> 4 /\ len col <> 7) ->
  hex_to_rgba col = Return (Some (255, 255, 255, 255)).
Proof.
  intros Hkw Hshape. unfold hex_to_rgba. rewrite Hkw.
  destruct Hshape as [-> | [H4 H7]]; [reflexivity |].
  destruct (Z.eqb_spec (len col) 4); [contradiction |].
  destruct (Z.eqb_spec (len col) 7); [contradiction |].
  rewrite andb_false_r. reflexivity.
Qed.

(** Conversely, some strings that are no well-formed colour are read as a
    colour other than white: [int] accepts a sign or a blank next to a
    single digit. *)
Lemma hex_to_rgba_signed_digits :
  well_formed_hex "#+f+f+f" = false
  /\ hex_to_rgba "#+f+f+f" = Return (Some (15, 15, 15, 255))
  /\ hex_to_rgba "# 1 2 3" = Return (Some (1, 2, 3, 255)).
Proof. repeat split. Qed.

(** C8 (the code at the offending input). ["#ggg"] is neither the keyword
    nor a well-formed colour, yet it is not read as white: the conversion of
    its digits raises. *)
Theorem hex_to_rgba_bad_digits_raise :
  String.eqb (lower "#ggg") "transparent" = false
  /\ well_formed_hex "#ggg" = false
  /\ hex_to_rgba "#ggg" = Raise invalid_literal
  /\ hex_to_rgba "#ggg" <> Return (Some (255, 255, 255, 255)).
Proof.
  split; [reflexivity |]. split; [reflexivity |]. split; [reflexivity |].
  discriminate.
Qed.

(** The value of a literal of two hexadecimal digits. *)
Lemma hex_digit_table (c : ascii) (d : Z) :
  hex_digit c = Some d -> In (c, d) hex_table.
Proof.
  intro H.
  destruct c as [[] [] [] [] [] [] [] []]; cbn in H; try discriminate H;
    injection H as <-; unfold hex_table; cbn [In];
    repeat (first [left; reflexivity | right]).
Qed.

Lemma int16_two_hex_digits (a b : ascii) (da db : Z) :
  hex_digit a = Some da -> hex_digit b = Some db ->
  int16 (String a (String b "")) = Return (16 * da + db)
  /\ 0 <= 16 * da + db <= 255.
Proof.
  intros Ha Hb. apply hex_digit_table in Ha, Hb. unfold hex_table in Ha, Hb.
  cbn [In] in Ha, Hb.
  repeat match goal with
         | H : _ \/ _ |- _ => destruct H as [H | H]
         | H : (_, _) = (_, _) |- _ => injection H as <- <-
         | H : False |- _ => destruct H
         end; (split; [reflexivity | lia]).
Qed.

(** C9. ["#fff"] and ["#ffffff"] are the same opaque colour, because a
    three-digit colour is read with each digit doubled: a digit of value
    [d] gives the channel [16 * d + d], so that ["#abc"] is the colour
    (170, 187, 204) of ["#aabbcc"]; and the keyword [transparent], in any
    mix of upper and lower case, gives no background colour, so that the
    canvas starts with alpha 0 at every pixel. *)
Theorem hex_short_form_and_transparent (mask : list bool) (a b c : ascii)
  (geo : Geometry) :
  0 <= canvas_w geo -> 0 <= canvas_h geo ->
  hex_to_rgba "#fff" = Return (Some (255, 255, 255, 255))
  /\ hex_to_rgba "#ffffff" = Return (Some (255, 255, 255, 255))
  /\ hex_to_rgba "#abc" = hex_to_rgba "#aabbcc"
  /\ hex_to_rgba (String "#" (String a (String b (String c ""))))
     = hex_to_rgba
         (String "#" (String a (String a (String b (String b (String c (String c "")))))))
  /\ hex_to_rgba (recase mask "transparent") = Return None
  /\ (exists canvas : Image,
       (bg_rgba <- hex_to_rgba (recase mask "transparent") ;; blank_canvas geo bg_rgba)
       = Return canvas
       /\ mode canvas = RGBA
       /\ size canvas = (canvas_w geo, canvas_h geo)
       /\ forall x y : Z, alpha (getpixel canvas x y) = 0)
  /\ hex_to_rgba "#abc" = Return (Some (170, 187, 204, 255))
  /\ hex_to_rgba "#aabbcc" = Return (Some (170, 187, 204, 255))
  /\ hex_to_rgba "#000" = Return (Some (0, 0, 0, 255))
  /\ (forall da db dc : Z,
        hex_digit a = Some da -> hex_digit b = Some db -> hex_digit c = Some dc ->
        hex_to_rgba (String "#" (String a (String b (String c ""))))
        = Return (Some (16 * da + da, 16 * db + db, 16 * dc + dc, 255)))
  /\ (forall (a' b' c' : ascii) (da da' db db' dc dc' : Z),
        hex_digit a = Some da -> hex_digit a' = Some da' ->
        hex_digit b = Some db -> hex_digit b' = Some db' ->
        hex_digit c = Some dc -> hex_digit c' = Some dc' ->
        hex_to_rgba
          (String "#" (String a (String a' (String b (String b' (String c (String c' "")))))))
        = Return (Some (16 * da + da', 16 * db + db', 16 * dc + dc', 255))).
Proof.
  intros Hw Hh.
  assert (Hkw : hex_to_rgba (recase mask "transparent") = Return None).
  { unfold hex_to_rgba. rewrite lower_recase. reflexivity. }
  split; [reflexivity |]. split; [reflexivity |]. split; [reflexivity |].
  split; [reflexivity |]. split; [exact Hkw |].
  split.
  { rewrite Hkw. cbn [bind]. unfold blank_canvas, new.
    destruct (Z.ltb_spec (canvas_w geo) 0); [lia |].
    destruct (Z.ltb_spec (canvas_h geo) 0); [lia |].
    eexists. split; [reflexivity |]. repeat split. }
  split; [reflexivity |]. split; [reflexivity |]. split; [reflexivity |].
  split.
  - intros da db dc Ha Hb Hc.
    unfold hex_to_rgba. cbn [lower String.eqb Ascii.eqb lower_char].
    change (slice 1 3 _) with (String a (String a "")).
    change (slice 3 5 _) with (String b (String b "")).
    change (slice 5 7 _) with (String c (String c "")).
    cbv iota beta.
    rewrite (proj1 (int16_two_hex_digits a a da da Ha Ha)).
    rewrite (proj1 (int16_two_hex_digits b b db db Hb Hb)).
    rewrite (proj1 (int16_two_hex_digits c c dc dc Hc Hc)). reflexivity.
  - intros a' b' c' da da' db db' dc dc' Ha Ha' Hb Hb' Hc Hc'.
    unfold hex_to_rgba. cbn [lower String.eqb Ascii.eqb lower_char].
    change (slice 1 3 _) with (String a (String a' "")).
    change (slice 3 5 _) with (String b (String b' "")).
    change (slice 5 7 _) with (String c (String c' "")).
    cbv iota beta.
    rewrite (proj1 (int16_two_hex_digits a a' da da' Ha Ha')).
    rewrite (proj1 (int16_two_hex_digits b b' db db' Hb Hb')).
    rewrite (proj1 (int16_two_hex_digits c c' dc dc' Hc Hc')). reflexivity.
Qed.

(** *** Effects of the helpers *)

Lemma draw_run {A : Type} (f : Rng -> A * Rng) (w : World) :
  draw f w = (Return (fst (f (rng w))), mkWorld (snd (f (rng w))) (uploads w)).
Proof. unfold draw. destruct (f (rng w)); reflexivity. Qed.

Lemma random_transform_returns (img : Image) (w : World) :
  exists (t : Image) (g : Rng),
    _random_transform img w = (Return t, mkWorld g (uploads w)).
Proof.
  unfold _random_transform, mbind. rewrite draw_run.
  set (scale := fst (uniform MIN_SCALE MAX_SCALE (rng w))).
  unfold lift.
  match goal with
  | |- context [resize img (?a, ?b) LANCZOS] =>
      destruct (resize_positive img a b LANCZOS ltac:(lia) ltac:(lia)) as (im' & -> & _)
  end.
  rewrite draw_run. unfold ret. cbn [rng uploads]. eauto.
Qed.

Lemma random_filename_returns (prefix : string) (w : World) :
  exists (name : string) (g : Rng),
    _random_filename prefix w = (Return name, mkWorld g (uploads w)).
Proof.
  unfold _random_filename, mbind. rewrite draw_run. unfold ret. eauto.
Qed.

(** Saving uploads the canvas once, unless the bucket is not configured or
    the canvas cannot be encoded, in which case nothing is uploaded. *)
Lemma save_canvas_run (canvas : Image) (name output_prefix : string) (w : World) :
  _save_canvas_to_gcs canvas name output_prefix w =
  match _require_bucket with
  | Return bucket_name =>
      match save_png canvas with
      | Return _ =>
          let blob_path := (rstrip_slash output_prefix ++ "/" ++ name)%string in
          (Return ("gs://" ++ bucket_name ++ "/" ++ blob_path)%string,
           mkWorld (rng w) (uploads w ++ [(blob_path, canvas)]))
      | Raise e => (Raise e, w)
      end
  | Raise e => (Raise e, w)
  end.
Proof.
  unfold _save_canvas_to_gcs, mbind, lift, upload, ret.
  destruct _require_bucket; [| reflexivity].
  destruct (save_png canvas); reflexivity.
Qed.

Lemma save_png_nonempty (im : Image) :
  0 < width im -> 0 < height im -> save_png im = Return tt.
Proof.
  intros Hw Hh. unfold save_png.
  destruct (Z.eqb_spec (width im) 0); [lia |].
  destruct (Z.eqb_spec (height im) 0); [lia |]. reflexivity.
Qed.

Lemma save_png_returned (im : Image) (u : unit) :
  save_png im = Return u -> width im <> 0 /\ height im <> 0.
Proof.
  unfold save_png.
  destruct (Z.eqb_spec (width im) 0); [discriminate |].
  destruct (Z.eqb_spec (height im) 0); [discriminate |]. auto.
Qed.

Lemma load_stamp_needs_bucket (code : string) (r : option Image) :
  _load_stamp_from_gcs code = Return r -> exists b, _require_bucket = Return b.
Proof.
  unfold _load_stamp_from_gcs. destruct _require_bucket as [b | e]; [eauto | discriminate].
Qed.

(** *** The stamp loop *)

Lemma stamp_loop_uploads (codes : list string) :
  forall (st : stamp_state) (w : World),
    uploads (snd (stamp_loop codes st w)) = uploads w.
Proof.
  induction codes as [| code rest IH]; intros st w; [reflexivity |].
  cbn [stamp_loop]. unfold mbind at 1. unfold lift.
  destruct (_load_stamp_from_gcs code) as [[stamp |] | e]; [| apply IH | reflexivity].
  unfold mbind at 1.
  destruct (random_transform_returns stamp w) as (t & g & ->).
  unfold mbind at 1. rewrite draw_run.
  destruct (fst (_choose_position _ _ _ _)) as [x y].
  rewrite IH. reflexivity.
Qed.

(** The loop pastes onto the canvas; it never changes its size. *)
Lemma stamp_loop_canvas_size (codes : list string) :
  forall (st st' : stamp_state) (w w' : World),
    stamp_loop codes st w = (Return st', w') ->
    size (st_canvas st') = size (st_canvas st).
Proof.
  induction codes as [| code rest IH]; intros st st' w w'.
  - cbn [stamp_loop]. unfold ret. intro E. injection E as <- _. reflexivity.
  - cbn [stamp_loop]. unfold mbind at 1. unfold lift.
    destruct (_load_stamp_from_gcs code) as [[stamp |] | e]; [| | discriminate].
    + unfold mbind at 1.
      destruct (random_transform_returns stamp w) as (t & g & ->).
      unfold mbind at 1. rewrite draw_run.
      destruct (fst (_choose_position _ _ _ _)) as [x y].
      intro E. rewrite (IH _ _ _ _ E). reflexivity.
    + intro E. rewrite (IH _ _ _ _ E). reflexivity.
Qed.

Lemma stamp_canvas_saves (codes : list string) (st : stamp_state) (w w' : World) :
  stamp_loop codes (mkStampState blank_stamp_canvas [] [] []) w = (Return st, w') ->
  save_png (st_canvas st) = Return tt.
Proof.
  intro E. apply stamp_loop_canvas_size in E. cbn [st_canvas] in E.
  unfold size in E. injection E as Hw Hh.
  apply save_png_nonempty; [rewrite Hw | rewrite Hh]; reflexivity.
Qed.

Lemma stamp_loop_none_resolved (codes : list string) :
  forall (st : stamp_state) (w : World),
    (forall c, In c codes -> _load_stamp_from_gcs c = Return None) ->
    stamp_loop codes st w =
    (Return (mkStampState (st_canvas st) (st_placed_boxes st) (st_placed st)
               (st_missing st ++ codes)), w).
Proof.
  induction codes as [| code rest IH]; intros st w Hnone.
  - cbn [stamp_loop]. rewrite app_nil_r. destruct st; reflexivity.
  - cbn [stamp_loop]. unfold mbind at 1. unfold lift.
    rewrite (Hnone code (or_introl eq_refl)).
    rewrite IH by (intros c Hc; apply Hnone; right; exact Hc).
    cbn [st_canvas st_placed_boxes st_placed st_missing].
    rewrite <- app_assoc. reflexivity.
Qed.

Lemma stamp_loop_all_resolved (codes : list string) :
  forall (st : stamp_state) (w : World),
    (forall c, In c codes -> exists img, _load_stamp_from_gcs c = Return (Some img)) ->
    exists (st' : stamp_state) (w' : World),
      stamp_loop codes st w = (Return st', w')
      /\ st_placed st' = st_placed st ++ codes
      /\ st_missing st' = st_missing st.
Proof.
  induction codes as [| code rest IH]; intros st w Hall.
  - exists st, w. cbn [stamp_loop]. rewrite app_nil_r. repeat split.
  - cbn [stamp_loop]. unfold mbind at 1. unfold lift.
    destruct (Hall code (or_introl eq_refl)) as [stamp ->].
    unfold mbind at 1.
    destruct (random_transform_returns stamp w) as (t & g & ->).
    unfold mbind at 1. rewrite draw_run.
    destruct (fst (_choose_position _ _ _ _)) as [x y].
    match goal with
    | |- context [stamp_loop rest ?s ?v] =>
        destruct (IH s v (fun c Hc => Hall c (or_intror Hc))) as (st' & w' & -> & Hp & Hm)
    end.
    exists st', w'. cbn [st_placed st_missing] in Hp, Hm.
    rewrite <- app_assoc in Hp. repeat split; assumption.
Qed.

Lemma new_stamp_canvas :
  new RGBA (CANVAS_WIDTH, CANVAS_HEIGHT) (0, 0, 0, 0) = Return blank_stamp_canvas.
Proof. reflexivity. Qed.

(** A run of the stamp pipeline uploads nothing when it fails, and when it
    returns it has made one upload: the canvas as the loop over all codes
    left it. *)
Lemma compose_persists_once (codes : list string) (w : World) :
  match compose_passport_stamps codes w with
  | (Raise _, w') => uploads w' = uploads w
  | (Return r, w') =>
      exists (st : stamp_state) (w1 : World),
        stamp_loop (stamp_codes codes) (mkStampState blank_stamp_canvas [] [] []) w
        = (Return st, w1)
        /\ placed r = st_placed st
        /\ missing r = st_missing st
        /\ uploads w' = uploads w ++ [(output_path (filename r), st_canvas st)]
  end.
Proof.
  unfold compose_passport_stamps.
  destruct (stamp_codes codes) as [| c0 cs] eqn:Hcodes; [reflexivity |].
  unfold mbind at 1. unfold lift. rewrite new_stamp_canvas.
  unfold mbind at 1.
  pose proof (stamp_loop_uploads (c0 :: cs) (mkStampState blank_stamp_canvas [] [] []) w)
    as Hup.
  destruct (stamp_loop (c0 :: cs) _ w) as [[st | e] w1]; cbn [snd] in Hup;
    [| exact Hup].
  destruct (st_placed st) as [| p ps] eqn:Hplaced; [exact Hup |].
  unfold mbind at 1.
  destruct (random_filename_returns "stamps" w1) as (name & g & ->).
  unfold mbind at 1. rewrite save_canvas_run.
  destruct _require_bucket as [b | e]; cbn [uploads]; [| exact Hup].
  destruct (save_png (st_canvas st)) as [u | e]; cbn [uploads]; [| exact Hup].
  unfold ret. exists st, w1. cbn [placed missing filename uploads].
  rewrite Hup. repeat split. symmetry; exact Hplaced.
Qed.

(** *** The flag loop *)

Lemma load_tiles_none_resolved (tile_height : Z) (fit_mode : string)
  (codes : list string) :
  forall (miss : list string) (tiles : list (string * Image)),
    (forall c, In c codes -> _load_flag_tile_from_gcs c tile_height fit_mode = Return None) ->
    load_tiles codes tile_height fit_mode miss tiles = Return (miss ++ codes, tiles).
Proof.
  induction codes as [| code rest IH]; intros miss tiles Hnone.
  - cbn [load_tiles]. rewrite app_nil_r. reflexivity.
  - cbn [load_tiles]. rewrite (Hnone code (or_introl eq_refl)). cbn [bind].
    rewrite IH by (intros c Hc; apply Hnone; right; exact Hc).
    rewrite <- app_assoc. reflexivity.
Qed.

(** A run of the grid compositor uploads nothing when it fails, and when it
    returns it has made one upload: the canvas with every tile pasted,
    flattened to RGB when the background is a colour. *)
Lemma grid_persists_once (codes : list string) (cols gap tile_height : Z)
  (bg fit_mode : string) (w : World) :
  match build_flag_grid codes cols gap tile_height bg fit_mode w with
  | (Raise _, w') => uploads w' = uploads w
  | (Return r, w') =>
      exists (miss : list string) (tiles : list (string * Image)) (geo : Geometry)
             (bg_rgba : option color) (canvas : Image),
        load_tiles (flag_codes codes) tile_height fit_mode [] [] = Return (miss, tiles)
        /\ grid_geometry tiles cols gap = Return geo
        /\ hex_to_rgba bg = Return bg_rgba
        /\ blank_canvas geo bg_rgba = Return canvas
        /\ placed r = map fst tiles
        /\ missing r = miss
        /\ uploads w' =
           uploads w ++
           [(output_path (filename r),
             match bg_rgba with
             | None => paste_tiles geo 0 tiles canvas
             | Some _ => convert RGB (paste_tiles geo 0 tiles canvas)
             end)]
  end.
Proof.
  unfold build_flag_grid.
  destruct (flag_codes codes) as [| c0 cs]; [reflexivity |].
  unfold mbind at 1. unfold lift at 1.
  destruct (load_tiles (c0 :: cs) tile_height fit_mode [] []) as [[miss tiles] | e];
    [| reflexivity].
  destruct tiles as [| t ts]; [reflexivity |].
  unfold mbind at 1. unfold lift at 1.
  destruct (grid_geometry (t :: ts) cols gap) as [geo | e] eqn:Hgeo; [| reflexivity].
  unfold mbind at 1. unfold lift at 1.
  destruct (hex_to_rgba bg) as [bg_rgba | e]; [| reflexivity].
  unfold mbind at 1. unfold lift at 1.
  destruct (blank_canvas geo bg_rgba) as [canvas | e] eqn:Hblank; [| reflexivity].
  unfold mbind at 1.
  destruct (random_filename_returns "flags" w) as (name & g & ->).
  unfold mbind at 1.
  destruct bg_rgba as [c |]; rewrite save_canvas_run;
    (destruct _require_bucket as [b | e]; [| reflexivity]);
    (destruct (save_png _) as [u | e]; [| reflexivity]);
    unfold ret; cbn [uploads placed missing filename];
    exists miss, (t :: ts), geo; eexists; exists canvas; repeat split; assumption.
Qed.

(** C4 (as the code does it). When the normalized code list is not empty
    and every code in it resolves, the stamp pipeline returns a result with
    an empty [missing] list and with [placed] equal to the normalized code
    list itself, repeated codes included: its length is the number of
    codes, which is the number of distinct codes whenever no code is
    repeated. *)
Theorem all_resolved_all_placed (codes : list string) (w : World) :
  stamp_codes codes <> [] ->
  (forall c, In c (stamp_codes codes) ->
             exists img, _load_stamp_from_gcs c = Return (Some img)) ->
  exists (res : CompositionResult) (w' : World),
    compose_passport_stamps codes w = (Return res, w')
    /\ missing res = []
    /\ placed res = stamp_codes codes
    /\ List.length (placed res) = List.length (stamp_codes codes)
    /\ (NoDup (stamp_codes codes) ->
        List.length (placed res) = List.length (nodup string_dec (stamp_codes codes))).
Proof.
  intros Hne Hall.
  destruct (stamp_loop_all_resolved (stamp_codes codes)
              (mkStampState blank_stamp_canvas [] [] []) w Hall)
    as (st & w1 & Hloop & Hplaced & Hmissing).
  cbn [st_placed st_missing app] in Hplaced, Hmissing.
  assert (Hbucket : exists b, _require_bucket = Return b).
  { destruct (stamp_codes codes) as [| c0 cs]; [contradiction |].
    destruct (Hall c0 (or_introl eq_refl)) as [img Himg].
    exact (load_stamp_needs_bucket _ _ Himg). }
  destruct Hbucket as [b Hb].
  unfold compose_passport_stamps.
  destruct (stamp_codes codes) as [| c0 cs] eqn:Hcodes; [contradiction |].
  unfold mbind at 1. unfold lift. rewrite new_stamp_canvas.
  unfold mbind at 1. rewrite Hloop, Hplaced.
  unfold mbind at 1.
  destruct (random_filename_returns "stamps" w1) as (name & g & ->).
  unfold mbind at 1.
  rewrite save_canvas_run, Hb, (stamp_canvas_saves _ _ _ _ Hloop). unfold ret.
  eexists; eexists. split; [reflexivity |]. cbn [placed missing].
  split; [exact Hmissing |]. split; [reflexivity |]. split; [reflexivity |].
  intro Hnd. rewrite (nodup_fixed_point string_dec Hnd). reflexivity.
Qed.

(** C5 (as the code does it). When the normalized code list is not empty
    and none of its codes resolves, the stamp collage and the flag grid
    alike fail with their no-assets error and leave the world untouched: no
    upload is made.  When the normalized code list is empty, they fail with
    the invalid-input error instead, again without an upload.  More
    generally no partial output is ever persisted, whatever the codes: a
    failed run has made no upload, and a successful run has made exactly
    one, of the finished canvas. *)
Theorem none_resolved_nothing_persisted :
  (forall (stamps : list string) (w : World),
      stamp_codes stamps <> [] ->
      (forall c, In c (stamp_codes stamps) -> _load_stamp_from_gcs c = Return None) ->
      compose_passport_stamps stamps w = (Raise NoAssetsResolved_stamps, w))
  /\ (forall (flags : list string) (cols gap tile_height : Z) (bg fit_mode : string)
             (w : World),
        flag_codes flags <> [] ->
        (forall c, In c (flag_codes flags) ->
                   _load_flag_tile_from_gcs c tile_height fit_mode = Return None) ->
        build_flag_grid flags cols gap tile_height bg fit_mode w
        = (Raise NoAssetsResolved_flags, w))
  /\ (forall (stamps : list string) (w : World),
        stamp_codes stamps = [] ->
        compose_passport_stamps stamps w = (Raise InvalidInput, w))
  /\ (forall (flags : list string) (cols gap tile_height : Z) (bg fit_mode : string)
             (w : World),
        flag_codes flags = [] ->
        build_flag_grid flags cols gap tile_height bg fit_mode w = (Raise InvalidInput, w))
  /\ (forall (codes : list string) (w0 : World),
        match compose_passport_stamps codes w0 with
        | (Raise _, w') => uploads w' = uploads w0
        | (Return r, w') =>
            exists (st : stamp_state) (w1 : World),
              stamp_loop (stamp_codes codes) (mkStampState blank_stamp_canvas [] [] []) w0
              = (Return st, w1)
              /\ uploads w' = uploads w0 ++ [(output_path (filename r), st_canvas st)]
        end)
  /\ (forall (codes : list string) (cols gap tile_height : Z) (bg fit_mode : string)
             (w0 : World),
        match build_flag_grid codes cols gap tile_height bg fit_mode w0 with
        | (Raise _, w') => uploads w' = uploads w0
        | (Return r, w') =>
            exists (miss : list string) (tiles : list (string * Image)) (geo : Geometry)
                   (bg_rgba : option color) (canvas : Image),
              load_tiles (flag_codes codes) tile_height fit_mode [] [] = Return (miss, tiles)
              /\ grid_geometry tiles cols gap = Return geo
              /\ hex_to_rgba bg = Return bg_rgba
              /\ blank_canvas geo bg_rgba = Return canvas
              /\ uploads w' =
                 uploads w0 ++
                 [(output_path (filename r),
                   match bg_rgba with
                   | None => paste_tiles geo 0 tiles canvas
                   | Some _ => convert RGB (paste_tiles geo 0 tiles canvas)
                   end)]
        end).
Proof.
  split; [| split; [| split; [| split; [| split]]]].
  - intros stamps w Hs Hsnone. unfold compose_passport_stamps.
    destruct (stamp_codes stamps) as [| c0 cs] eqn:Hcodes; [contradiction |].
    unfold mbind at 1. unfold lift. rewrite new_stamp_canvas.
    unfold mbind at 1. rewrite (stamp_loop_none_resolved _ _ _ Hsnone).
    reflexivity.
  - intros flags cols gap tile_height bg fit_mode w Hf Hfnone. unfold build_flag_grid.
    destruct (flag_codes flags) as [| c0 cs] eqn:Hcodes; [contradiction |].
    unfold mbind at 1. unfold lift.
    rewrite (load_tiles_none_resolved _ _ _ _ _ Hfnone). reflexivity.
  - intros stamps w Hs. unfold compose_passport_stamps. rewrite Hs. reflexivity.
  - intros flags cols gap tile_height bg fit_mode w Hf. unfold build_flag_grid.
    rewrite Hf. reflexivity.
  - intros codes w0. pose proof (compose_persists_once codes w0) as H.
    destruct (compose_passport_stamps codes w0) as [[r | e] w']; [| exact H].
    destruct H as (st & w1 & Hloop & _ & _ & Hup). exists st, w1. split; assumption.
  - intros codes cols gap tile_height bg fit_mode w0.
    pose proof (grid_persists_once codes cols gap tile_height bg fit_mode w0) as H.
    destruct (build_flag_grid codes cols gap tile_height bg fit_mode w0) as [[r | e] w'];
      [| exact H].
    destruct H as (miss & tiles & geo & bg_rgba & canvas & H1 & H2 & H3 & H4 & _ & _ & H5).
    exists miss, tiles, geo, bg_rgba, canvas. repeat split; assumption.
Qed.

(** ** Further properties *)

(** *** The placement search, continued *)

Lemma draws_in_range (img_w img_h : Z) (g : Rng) :
  randint_contract ->
  let xg := randint 0 (Z.max 0 (CANVAS_WIDTH - img_w)) g in
  let yg := randint 0 (Z.max 0 (CANVAS_HEIGHT - img_h)) (snd xg) in
  0 <= fst xg <= Z.max 0 (CANVAS_WIDTH - img_w)
  /\ 0 <= fst yg <= Z.max 0 (CANVAS_HEIGHT - img_h).
Proof.
  intros Hr xg yg. split; apply Hr; lia.
Qed.

(** The loop either accepts the first free candidate, or finds none and
    runs out. *)
Lemma retry_loop_first_free (img_w img_h : Z) (placed_boxes : list box) :
  forall (n : nat) (before : option (Z * Z)) (g : Rng),
    match find (free_at img_w img_h placed_boxes) (fst (candidates n img_w img_h g)) with
    | Some xy =>
        exists g', retry_loop n img_w img_h placed_boxes before g = Accepted xy g'
    | None =>
        retry_loop n img_w img_h placed_boxes before g =
        Exhausted (last_tried (fst (candidates n img_w img_h g)) before)
          (snd (candidates n img_w img_h g))
    end.
Proof.
  induction n as [| n IH]; intros before g; [reflexivity |].
  rewrite candidates_S. cbn [retry_loop].
  destruct (randint 0 (Z.max 0 (CANVAS_WIDTH - img_w)) g) as [x g1]; cbn [fst snd].
  destruct (randint 0 (Z.max 0 (CANVAS_HEIGHT - img_h)) g1) as [y g2]; cbn [fst snd].
  cbn [find]. unfold free_at at 1. cbn [fst snd AVOID_OVERLAP negb orb].
  destruct (overlaps_any (x, y, img_w, img_h) placed_boxes); cbn [negb].
  - specialize (IH (Some (x, y)) g2).
    destruct (find _ _) as [xy |]; [exact IH |].
    rewrite IH, last_tried_cons. reflexivity.
  - eauto.
Qed.

(** X1. The position returned is the first of the fifteen candidates that
    overlaps no placed box, whenever there is one; it then overlaps
    nothing. *)
Theorem choose_position_first_free (img_w img_h : Z) (placed_boxes : list box)
  (g : Rng) (xy : Z * Z) :
  find (free_at img_w img_h placed_boxes)
    (fst (candidates OVERLAP_RETRIES img_w img_h g)) = Some xy ->
  fst (_choose_position img_w img_h placed_boxes g) = xy
  /\ overlaps_any (fst xy, snd xy, img_w, img_h) placed_boxes = false
  /\ forall b, In b placed_boxes -> _boxes_overlap (fst xy, snd xy, img_w, img_h) b = false.
Proof.
  intro Hfind.
  pose proof (retry_loop_first_free img_w img_h placed_boxes OVERLAP_RETRIES None g) as H.
  rewrite Hfind in H. destruct H as [g' H].
  apply find_some in Hfind as [_ Hfree]. unfold free_at in Hfree.
  apply negb_true_iff in Hfree.
  split; [| split].
  - unfold _choose_position. cbn [AVOID_OVERLAP]. rewrite H. reflexivity.
  - exact Hfree.
  - intros b Hb. unfold overlaps_any in Hfree.
    destruct (_boxes_overlap (fst xy, snd xy, img_w, img_h) b) eqn:E; [| reflexivity].
    assert (existsb (_boxes_overlap (fst xy, snd xy, img_w, img_h)) placed_boxes = true)
      by (apply existsb_exists; eauto).
    congruence.
Qed.

(** With nothing placed yet the very first candidate is taken: the
    first stamp costs exactly one draw of x and one of y. *)
Lemma choose_position_empty_canvas (img_w img_h : Z) (g : Rng) :
  let xg := randint 0 (Z.max 0 (CANVAS_WIDTH - img_w)) g in
  let yg := randint 0 (Z.max 0 (CANVAS_HEIGHT - img_h)) (snd xg) in
  _choose_position img_w img_h [] g = ((fst xg, fst yg), snd yg).
Proof.
  intros xg yg. subst xg yg. unfold _choose_position.
  cbn [AVOID_OVERLAP OVERLAP_RETRIES retry_loop].
  destruct (randint 0 (Z.max 0 (CANVAS_WIDTH - img_w)) g) as [x g1]; cbn [fst snd].
  destruct (randint 0 (Z.max 0 (CANVAS_HEIGHT - img_h)) g1) as [y g2]; reflexivity.
Qed.

Lemma retry_loop_accepted_in_range (img_w img_h : Z) (placed_boxes : list box) :
  randint_contract ->
  forall (n : nat) (before : option (Z * Z)) (g g' : Rng) (xy : Z * Z),
    retry_loop n img_w img_h placed_boxes before g = Accepted xy g' ->
    0 <= fst xy <= Z.max 0 (CANVAS_WIDTH - img_w)
    /\ 0 <= snd xy <= Z.max 0 (CANVAS_HEIGHT - img_h).
Proof.
  intros Hr. induction n as [| n IH]; intros before g g' xy H; [discriminate |].
  cbn [retry_loop] in H.
  pose proof (draws_in_range img_w img_h g Hr) as Hd. cbv zeta in Hd.
  destruct (randint 0 (Z.max 0 (CANVAS_WIDTH - img_w)) g) as [x g1]; cbn [fst snd] in *.
  destruct (randint 0 (Z.max 0 (CANVAS_HEIGHT - img_h)) g1) as [y g2]; cbn [fst snd] in *.
  destruct (negb AVOID_OVERLAP || negb (overlaps_any (x, y, img_w, img_h) placed_boxes)).
  - injection H as <- _. exact Hd.
  - exact (IH _ _ _ _ H).
Qed.

Lemma choose_position_range (img_w img_h : Z) (placed_boxes : list box) (g : Rng) :
  randint_contract ->
  let xy := fst (_choose_position img_w img_h placed_boxes g) in
  0 <= fst xy <= Z.max 0 (CANVAS_WIDTH - img_w)
  /\ 0 <= snd xy <= Z.max 0 (CANVAS_HEIGHT - img_h).
Proof.
  intros Hr xy. subst xy. unfold _choose_position. cbn [AVOID_OVERLAP].
  destruct (retry_loop OVERLAP_RETRIES img_w img_h placed_boxes None g)
    as [p g' | l g'] eqn:E.
  - cbn [fst]. exact (retry_loop_accepted_in_range _ _ _ Hr _ _ _ _ _ E).
  - pose proof (draws_in_range img_w img_h g' Hr) as Hd. cbv zeta in Hd.
    destruct (randint 0 (Z.max 0 (CANVAS_WIDTH - img_w)) g') as [x g1];
      cbn [fst snd] in *.
    destruct (randint 0 (Z.max 0 (CANVAS_HEIGHT - img_h)) g1) as [y g2];
      cbn [fst snd] in *.
    exact Hd.
Qed.

(** X2. Whatever the retries do, the position returned lies in the ranges
    the candidates are drawn from: a stamp that fits the canvas is placed
    entirely inside it, and one that is wider (or higher) than the canvas
    is placed at 0 on that axis. *)
Theorem choose_position_in_canvas (img_w img_h : Z) (placed_boxes : list box)
  (g : Rng) :
  randint_contract ->
  let xy := fst (_choose_position img_w img_h placed_boxes g) in
  0 <= fst xy <= Z.max 0 (CANVAS_WIDTH - img_w)
  /\ 0 <= snd xy <= Z.max 0 (CANVAS_HEIGHT - img_h)
  /\ box_in_canvas (fst xy, snd xy, img_w, img_h)
  /\ (CANVAS_WIDTH <= img_w -> fst xy = 0)
  /\ (CANVAS_HEIGHT <= img_h -> snd xy = 0).
Proof.
  intros Hr xy.
  destruct (choose_position_range img_w img_h placed_boxes g Hr) as [Hx Hy].
  fold xy in Hx, Hy. unfold box_in_canvas.
  repeat split; try lia.
Qed.

(** *** The stamp loop, continued *)

Lemma load_stamp_raises_unconfigured (code : string) :
  STAMP_BUCKET = None \/ STAMP_BUCKET = Some "" ->
  _load_stamp_from_gcs code = Raise (RuntimeError "STAMP_BUCKET env var not set").
Proof.
  intro H. unfold _load_stamp_from_gcs, _require_bucket.
  destruct H as [-> | ->]; reflexivity.
Qed.

Lemma alpha_composite_frame (dst src : Image) (dest : Z * Z) :
  mode (alpha_composite over dst src dest) = mode dst
  /\ size (alpha_composite over dst src dest) = size dst.
Proof. destruct dest. split; reflexivity. Qed.

(** What a completed loop has done to its locals: the codes went to
    [placed] or to [missing] according to whether they resolve, in order;
    one box was recorded per placed code; the canvas kept its mode and
    size; nothing was uploaded. *)
Lemma stamp_loop_returned (codes : list string) :
  forall (st st' : stamp_state) (w w' : World),
    stamp_loop codes st w = (Return st', w') ->
    st_placed st' = st_placed st ++ filter stamp_resolves codes
    /\ st_missing st' = st_missing st ++ filter (fun c => negb (stamp_resolves c)) codes
    /\ List.length (st_placed_boxes st')
       = (List.length (st_placed_boxes st) + List.length (filter stamp_resolves codes))%nat
    /\ mode (st_canvas st') = mode (st_canvas st)
    /\ size (st_canvas st') = size (st_canvas st)
    /\ uploads w' = uploads w
    /\ (randint_contract -> Forall box_in_canvas (st_placed_boxes st) ->
        Forall box_in_canvas (st_placed_boxes st')).
Proof.
  induction codes as [| code rest IH]; intros st st' w w' H.
  - cbn [stamp_loop] in H. injection H as <- <-. cbn [filter].
    rewrite !app_nil_r, Nat.add_0_r. repeat split; auto.
  - cbn [stamp_loop] in H. unfold mbind at 1 in H. unfold lift in H.
    cbn [filter].
    pose proof (eq_refl (stamp_resolves code)) as Hres. unfold stamp_resolves at 2 in Hres.
    destruct (_load_stamp_from_gcs code) as [[stamp |] | e]; [| | discriminate];
      rewrite Hres; clear Hres.
    + unfold mbind at 1 in H.
      destruct (random_transform_returns stamp w) as (t & g & Ht). rewrite Ht in H.
      unfold mbind at 1 in H. rewrite draw_run in H.
      pose proof (fun Hr => choose_position_range (width t) (height t)
                              (st_placed_boxes st) (rng (mkWorld g (uploads w))) Hr)
        as Hpos. cbv zeta in Hpos.
      destruct (fst (_choose_position _ _ _ _)) as [x y]. cbn [fst snd] in Hpos.
      apply IH in H. cbn [st_canvas st_placed_boxes st_placed st_missing uploads] in H.
      destruct H as (Hp & Hm & Hb & Hmode & Hsize & Hup & Hin).
      destruct (alpha_composite_frame (st_canvas st) t (x, y)) as [Em Es].
      rewrite Em in Hmode. rewrite Es in Hsize.
      rewrite length_app in Hb. cbn [List.length negb] in *.
      rewrite <- app_assoc in Hp. cbn [app] in Hp.
      repeat split; try assumption; try lia.
      intros Hr Hall. apply Hin; [exact Hr |].
      apply Forall_app. split; [exact Hall |].
      constructor; [| constructor]. destruct (Hpos Hr) as [Hx Hy].
      unfold box_in_canvas. repeat split; lia.
    + apply IH in H. cbn [st_canvas st_placed_boxes st_placed st_missing] in H.
      destruct H as (Hp & Hm & Hb & Hmode & Hsize & Hup & Hin).
      rewrite <- app_assoc in Hm. cbn [app negb] in *.
      repeat split; assumption.
Qed.

(** A run of the stamp pipeline that returns has gone through the loop,
    the file name and the upload. *)
Lemma compose_returned (codes : list string) (w w' : World) (res : CompositionResult) :
  compose_passport_stamps codes w = (Return res, w') ->
  exists (st : stamp_state) (w1 : World) (b : string),
    stamp_loop (stamp_codes codes) (mkStampState blank_stamp_canvas [] [] []) w
    = (Return st, w1)
    /\ _require_bucket = Return b
    /\ placed res = st_placed st
    /\ missing res = st_missing st
    /\ placed res <> []
    /\ gs_path res = ("gs://" ++ b ++ "/" ++ output_path (filename res))%string
    /\ uploads w' = uploads w ++ [(output_path (filename res), st_canvas st)].
Proof.
  unfold compose_passport_stamps.
  destruct (stamp_codes codes) as [| c0 cs] eqn:Hcodes; [discriminate |].
  unfold mbind at 1. unfold lift. rewrite new_stamp_canvas.
  unfold mbind at 1.
  pose proof (stamp_loop_uploads (c0 :: cs) (mkStampState blank_stamp_canvas [] [] []) w)
    as Hup.
  destruct (stamp_loop (c0 :: cs) _ w) as [[st | e] w1]; cbn [snd] in Hup;
    [| discriminate].
  destruct (st_placed st) as [| p ps] eqn:Hplaced; [discriminate |].
  unfold mbind at 1.
  destruct (random_filename_returns "stamps" w1) as (name & g & ->).
  unfold mbind at 1. rewrite save_canvas_run.
  destruct _require_bucket as [b | e]; [| discriminate].
  destruct (save_png (st_canvas st)) as [u | e]; [| discriminate].
  unfold ret. intro H. injection H as <- <-.
  exists st, w1, b. cbn [placed missing filename gs_path uploads].
  rewrite Hup, Hplaced. repeat split. discriminate.
Qed.

(** X4. Whenever the stamp pipeline returns, [placed] lists the normalized
    codes that resolve and [missing] those that do not, both in input
    order: together they account for every code, and [placed] is not
    empty. *)
Theorem compose_partitions_codes (codes : list string) (w w' : World)
  (res : CompositionResult) :
  compose_passport_stamps codes w = (Return res, w') ->
  placed res = filter stamp_resolves (stamp_codes codes)
  /\ missing res = filter (fun c => negb (stamp_resolves c)) (stamp_codes codes)
  /\ placed res <> []
  /\ (List.length (placed res) + List.length (missing res))%nat
     = List.length (stamp_codes codes).
Proof.
  intro H. destruct (compose_returned _ _ _ _ H)
    as (st & w1 & b & Hloop & _ & Hp & Hm & Hne & _).
  apply stamp_loop_returned in Hloop. cbn [st_placed st_missing app] in Hloop.
  destruct Hloop as (Hp' & Hm' & _).
  rewrite Hp, Hm, Hp', Hm'. repeat split.
  - rewrite <- Hp', <- Hp. exact Hne.
  - apply filter_length.
Qed.

(** X5. Whenever the stamp pipeline returns, the one object it wrote is the
    RGBA canvas of CANVAS_WIDTH by CANVAS_HEIGHT, written under
    FLAGS_OUTPUT_PREFIX, the output prefix the stamp pipeline shares with
    the flags, at the generated file name, and the location it reports is
    that object in the configured bucket. *)
Theorem compose_writes_full_canvas (codes : list string) (w w' : World)
  (res : CompositionResult) :
  compose_passport_stamps codes w = (Return res, w') ->
  exists (canvas : Image) (b : string),
    uploads w' = uploads w ++ [(output_path (filename res), canvas)]
    /\ mode canvas = RGBA
    /\ size canvas = (CANVAS_WIDTH, CANVAS_HEIGHT)
    /\ STAMP_BUCKET = Some b /\ b <> ""
    /\ gs_path res = ("gs://" ++ b ++ "/" ++ output_path (filename res))%string.
Proof.
  intro H. destruct (compose_returned _ _ _ _ H)
    as (st & w1 & b & Hloop & Hb & _ & _ & _ & Hgs & Hup).
  apply stamp_loop_returned in Hloop. cbn [st_canvas] in Hloop.
  destruct Hloop as (_ & _ & _ & Hmode & Hsize & _).
  exists (st_canvas st), b. repeat split; try assumption.
  - unfold _require_bucket in Hb. destruct STAMP_BUCKET as [b' |]; [| discriminate].
    destruct b'; [discriminate |]. injection Hb as <-. reflexivity.
  - unfold _require_bucket in Hb. destruct STAMP_BUCKET as [b' |]; [| discriminate].
    destruct b'; [discriminate |]. injection Hb as <-. discriminate.
Qed.

(** X3. Every box the loop records lies in the canvas (entirely, on each
    axis on which the transformed stamp is no larger than the canvas), and
    the loop records one box per placed code. *)
Theorem stamp_loop_boxes_in_canvas (codes : list string) (st st' : stamp_state)
  (w w' : World) :
  randint_contract ->
  Forall box_in_canvas (st_placed_boxes st) ->
  List.length (st_placed_boxes st) = List.length (st_placed st) ->
  stamp_loop codes st w = (Return st', w') ->
  Forall box_in_canvas (st_placed_boxes st')
  /\ List.length (st_placed_boxes st') = List.length (st_placed st').
Proof.
  intros Hr Hall Hlen H. apply stamp_loop_returned in H.
  destruct H as (Hp & _ & Hb & _ & _ & _ & Hin).
  split; [exact (Hin Hr Hall) |].
  rewrite Hb, Hp, length_app, Hlen. reflexivity.
Qed.

(** X7. Without a configured bucket (the variable unset or empty) a run
    with at least one non-blank code fails with the configuration error at
    the first lookup, for stamps and flags alike, and the world is left as
    it was. *)
Theorem unconfigured_bucket_fails (stamps flags : list string)
  (cols gap tile_height : Z) (bg fit_mode : string) (w : World) :
  STAMP_BUCKET = None \/ STAMP_BUCKET = Some "" ->
  stamp_codes stamps <> [] ->
  flag_codes flags <> [] ->
  compose_passport_stamps stamps w
  = (Raise (RuntimeError "STAMP_BUCKET env var not set"), w)
  /\ build_flag_grid flags cols gap tile_height bg fit_mode w
     = (Raise (RuntimeError "STAMP_BUCKET env var not set"), w).
Proof.
  intros Hb Hs Hf. split.
  - unfold compose_passport_stamps.
    destruct (stamp_codes stamps) as [| c0 cs]; [contradiction |].
    unfold mbind at 1. unfold lift. rewrite new_stamp_canvas.
    unfold mbind at 1. cbn [stamp_loop]. unfold mbind at 1. unfold lift.
    rewrite (load_stamp_raises_unconfigured c0 Hb). reflexivity.
  - unfold build_flag_grid.
    destruct (flag_codes flags) as [| c0 cs]; [contradiction |].
    unfold mbind at 1. unfold lift. cbn [load_tiles].
    unfold _load_flag_tile_from_gcs, _require_bucket.
    destruct Hb as [-> | ->]; reflexivity.
Qed.

(** *** The tile normalizer, continued *)

Lemma new_returned (m : Mode) (w h : Z) (c : color) (im : Image) :
  new m (w, h) c = Return im ->
  mode im = m /\ width im = w /\ height im = h /\ 0 <= w /\ 0 <= h
  /\ forall x y, getpixel im x y = ink c.
Proof.
  unfold new. destruct (Z.ltb_spec w 0) as [| Hw]; [discriminate |].
  destruct (Z.ltb_spec h 0) as [| Hh]; [discriminate |].
  cbn [orb]. intro E. injection E as <-. repeat split; assumption.
Qed.

Lemma resize_returned (im im' : Image) (w h : Z) (f : resample) :
  resize im (w, h) f = Return im' ->
  mode im' = mode im /\ width im' = w /\ height im' = h.
Proof.
  unfold resize. destruct ((w =? width im) && (h =? height im)) eqn:E.
  - apply andb_true_iff in E as [E1 E2]. apply Z.eqb_eq in E1, E2.
    intro H. injection H as <-. repeat split; congruence.
  - destruct ((w <=? 0) || (h <=? 0)); [discriminate |].
    intro H. injection H as <-. repeat split.
Qed.

Lemma crop_returned (im im' : Image) (x0 y0 x1 y1 : Z) :
  crop im (x0, y0, x1, y1) = Return im' ->
  mode im' = mode im /\ width im' = x1 - x0 /\ height im' = y1 - y0
  /\ x0 <= x1 /\ y0 <= y1.
Proof.
  unfold crop. destruct (Z.ltb_spec x1 x0) as [| Hx]; [discriminate |].
  destruct (Z.ltb_spec y1 y0) as [| Hy]; [discriminate |].
  intro E. injection E as <-. repeat split; assumption.
Qed.

Lemma open_rgba_returned (img_bytes : list Byte.byte) (img : Image) :
  open_rgba img_bytes = Return img -> mode img = RGBA.
Proof.
  unfold open_rgba. destruct (decode img_bytes); [| discriminate].
  intro H. injection H as <-. reflexivity.
Qed.

Lemma tile_returned_frame (img_bytes : list Byte.byte) (box_h : Z)
  (fit_mode : string) (tile : Image) :
  make_uniform_tile_from_bytes img_bytes box_h (2 # 1) fit_mode = Return tile ->
  mode tile = RGBA /\ size tile = (2 * box_h, box_h).
Proof.
  unfold make_uniform_tile_from_bytes. rewrite round_double.
  destruct (open_rgba img_bytes) as [img | e] eqn:Hopen; [| discriminate].
  apply open_rgba_returned in Hopen. cbn [bind].
  destruct (String.eqb fit_mode "pad"); [| destruct (String.eqb fit_mode "crop")].
  - destruct (truediv (2 * box_h) (width img)) as [sx | e]; [| discriminate].
    destruct (truediv box_h (height img)) as [sy | e]; [| discriminate].
    cbn [bind].
    destruct (resize img _ LANCZOS) as [img' | e]; [| discriminate]. cbn [bind].
    destruct (new RGBA (2 * box_h, box_h) (0, 0, 0, 0)) as [blank | e] eqn:Hnew;
      [| discriminate].
    apply new_returned in Hnew as (Hm & Hw & Hh & _).
    cbn [bind]. intro H. injection H as <-.
    unfold size. cbn [mode width height]. rewrite Hm, Hw, Hh. split; reflexivity.
  - destruct (truediv (2 * box_h) (width img)) as [sx | e]; [| discriminate].
    destruct (truediv box_h (height img)) as [sy | e]; [| discriminate].
    cbn [bind].
    destruct (resize img _ LANCZOS) as [img' | e] eqn:Hres; [| discriminate].
    apply resize_returned in Hres as (Hm & _). cbn [bind].
    intro H. apply crop_returned in H as (Hm' & Hw & Hh & _).
    unfold size. rewrite Hm', Hm, Hw, Hh. split; [exact Hopen | f_equal; lia].
  - intro H. apply resize_returned in H as (Hm & Hw & Hh).
    unfold size. rewrite Hm, Hw, Hh. split; [exact Hopen | reflexivity].
Qed.

(** X8. Whatever the source image and the fit mode, a tile a normalizer
    returns, the service's or the command line's, is RGBA and measures
    exactly 2 * box_h by box_h: the grid's assumption that all tiles have
    one size is always met. *)
Theorem uniform_tile_returned_size (img_bytes : list Byte.byte) (box_h : Z)
  (fit_mode : string) (tile : Image) :
  make_uniform_tile_from_bytes img_bytes box_h (2 # 1) fit_mode = Return tile
  \/ make_uniform_tile img_bytes box_h (2 # 1) fit_mode = Return tile ->
  mode tile = RGBA /\ size tile = (2 * box_h, box_h).
Proof.
  intros [H | H].
  - exact (tile_returned_frame _ _ _ _ H).
  - rewrite make_uniform_tile_as_bytes in H. exact (tile_returned_frame _ _ _ _ H).
Qed.

(** *** The grid, continued *)

Lemma load_flag_tile_returned (code : string) (tile_height : Z) (fit_mode : string)
  (tile : Image) :
  _load_flag_tile_from_gcs code tile_height fit_mode = Return (Some tile) ->
  mode tile = RGBA /\ size tile = (2 * tile_height, tile_height).
Proof.
  unfold _load_flag_tile_from_gcs.
  destruct _require_bucket; [| discriminate]. cbn [bind].
  destruct (bucket _) as [img_bytes |]; [| discriminate].
  destruct (make_uniform_tile_from_bytes img_bytes tile_height (2 # 1) fit_mode)
    as [t | e] eqn:Ht; [| discriminate].
  cbn [bind]. intro H. injection H as <-.
  exact (tile_returned_frame _ _ _ _ Ht).
Qed.

(** What a completed loading loop has produced: the codes that resolve
    became tiles, the others went to [missing], in order, and every tile
    is RGBA of the one size. *)
Lemma load_tiles_returned (tile_height : Z) (fit_mode : string) (codes : list string) :
  forall (miss miss' : list string) (tiles tiles' : list (string * Image)),
    load_tiles codes tile_height fit_mode miss tiles = Return (miss', tiles') ->
    map fst tiles' = map fst tiles ++ filter (flag_resolves tile_height fit_mode) codes
    /\ miss' = miss ++ filter (fun c => negb (flag_resolves tile_height fit_mode c)) codes
    /\ (Forall (fun t => mode (snd t) = RGBA
                         /\ size (snd t) = (2 * tile_height, tile_height)) tiles ->
        Forall (fun t => mode (snd t) = RGBA
                         /\ size (snd t) = (2 * tile_height, tile_height)) tiles').
Proof.
  induction codes as [| code rest IH]; intros miss miss' tiles tiles' H.
  - cbn [load_tiles] in H. injection H as <- <-. cbn [filter].
    rewrite !app_nil_r. repeat split; auto.
  - cbn [load_tiles] in H. cbn [filter].
    pose proof (eq_refl (flag_resolves tile_height fit_mode code)) as Hres.
    unfold flag_resolves at 2 in Hres.
    pose proof (load_flag_tile_returned code tile_height fit_mode) as Hsize.
    destruct (_load_flag_tile_from_gcs code tile_height fit_mode) as [[tile |] | e];
      [| | discriminate]; rewrite Hres; clear Hres; cbn [bind negb] in *.
    + apply IH in H. destruct H as (Hp & Hm & Hall).
      rewrite map_app, <- app_assoc in Hp. cbn [map app fst] in Hp.
      repeat split; try assumption.
      intro Htiles. apply Hall. apply Forall_app. split; [exact Htiles |].
      constructor; [| constructor]. cbn [snd]. exact (Hsize tile eq_refl).
    + apply IH in H. destruct H as (Hp & Hm & Hall).
      rewrite <- app_assoc in Hm. repeat split; assumption.
Qed.

Lemma paste_tiles_frame (geo : Geometry) (tiles : list (string * Image)) :
  forall (idx : Z) (canvas : Image),
    mode (paste_tiles geo idx tiles canvas) = mode canvas
    /\ size (paste_tiles geo idx tiles canvas) = size canvas.
Proof.
  induction tiles as [| [code tile] rest IH]; intros idx canvas; [split; reflexivity |].
  cbn [paste_tiles].
  destruct (IH (idx + 1) (alpha_composite over canvas tile (tile_position geo idx)))
    as [Hm Hs].
  destruct (alpha_composite_frame canvas tile (tile_position geo idx)) as [Em Es].
  rewrite Hm, Hs, Em, Es. split; reflexivity.
Qed.

(** X13. A pixel that lies in no tile's cell keeps the colour the canvas
    had before pasting: the gaps of the grid show the background. *)
Theorem paste_tiles_keeps_gaps (geo : Geometry) (tiles : list (string * Image))
  (idx : Z) (canvas : Image) (x y : Z) :
  (forall (k : nat) (code : string) (tile : Image),
      nth_error tiles k = Some (code, tile) ->
      let p := tile_position geo (idx + Z.of_nat k) in
      ~ (fst p <= x < fst p + width tile /\ snd p <= y < snd p + height tile)) ->
  getpixel (paste_tiles geo idx tiles canvas) x y = getpixel canvas x y.
Proof.
  revert idx canvas.
  induction tiles as [| [code tile] rest IH]; intros idx canvas Hout; [reflexivity |].
  cbn [paste_tiles]. rewrite IH.
  - pose proof (Hout 0%nat code tile eq_refl) as H0. cbv zeta in H0.
    rewrite Z.add_0_r in H0.
    destruct (tile_position geo idx) as [px py]. cbn [fst snd] in H0.
    unfold alpha_composite. cbn [getpixel].
    destruct (Z.leb_spec 0 (x - px)); cbn [andb]; [| reflexivity].
    destruct (Z.ltb_spec (x - px) (width tile)); cbn [andb]; [| reflexivity].
    destruct (Z.leb_spec 0 (y - py)); cbn [andb]; [| reflexivity].
    destruct (Z.ltb_spec (y - py) (height tile)); [| reflexivity].
    exfalso. apply H0. lia.
  - intros k c t Hk. pose proof (Hout (S k) c t Hk) as H. cbv zeta in H.
    replace (idx + 1 + Z.of_nat k) with (idx + Z.of_nat (S k)) by lia. exact H.
Qed.

(** X12. In a grid of cells that are not of negative size, every cell lies
    within the canvas and no two cells overlap, by the very test the stamp
    placement uses. *)
Theorem grid_cells_fit_and_are_disjoint (tiles : list (string * Image))
  (cols gap : Z) (geo : Geometry) (i j : Z) :
  grid_geometry tiles cols gap = Return geo ->
  0 <= tile_w geo -> 0 <= tile_h geo ->
  0 <= i < Z.of_nat (List.length tiles) ->
  0 <= j < Z.of_nat (List.length tiles) ->
  let pi := tile_position geo i in
  let pj := tile_position geo j in
  0 <= fst pi /\ fst pi + tile_w geo <= canvas_w geo
  /\ 0 <= snd pi /\ snd pi + tile_h geo <= canvas_h geo
  /\ (i <> j ->
      _boxes_overlap (fst pi, snd pi, tile_w geo, tile_h geo)
        (fst pj, snd pj, tile_w geo, tile_h geo) = false).
Proof.
  intros Hgeo Hw Hh Hi Hj.
  destruct tiles as [| [code first] rest]; [discriminate |].
  rewrite grid_geometry_cons in Hgeo. cbv zeta in Hgeo.
  set (n := Z.of_nat (List.length ((code, first) :: rest))) in *.
  set (c := Z.max 1 (Z.min cols n)) in *.
  assert (Hc : 0 < c) by (subst c; lia).
  pose proof (ceil_truediv_bounds n c Hc) as Hrows. cbv zeta in Hrows.
  set (r := ceil (inject_Z n / inject_Z c)) in *.
  set (g := Z.max 0 gap) in *.
  assert (Hg : 0 <= g) by (subst g; lia).
  injection Hgeo as <-. cbn [tile_w tile_h canvas_w canvas_h] in *.
  unfold tile_position. cbn [g_cols g_gap tile_w tile_h fst snd].
  set (tw := width first) in *. set (th := height first) in *.
  pose proof (Z.div_mod i c ltac:(lia)) as Ei.
  pose proof (Z.mod_pos_bound i c Hc) as Bi.
  pose proof (Z.div_mod j c ltac:(lia)) as Ej.
  pose proof (Z.mod_pos_bound j c Hc) as Bj.
  assert (Qi : 0 <= i / c < r) by (split; [apply Z.div_pos; lia | nia]).
  assert (Qj : 0 <= j / c < r) by (split; [apply Z.div_pos; lia | nia]).
  set (qi := i / c) in *. set (mi := i mod c) in *.
  set (qj := j / c) in *. set (mj := j mod c) in *.
  assert (Sw : 0 <= tw + g) by lia. assert (Sh : 0 <= th + g) by lia.
  split; [nia |]. split; [nia |]. split; [nia |]. split; [nia |].
  intro Hne. apply boxes_overlap_false_iff.
  destruct (Z.lt_trichotomy mi mj) as [Hlt | [Heq | Hgt]].
  - left. assert ((mi + 1) * (tw + g) <= mj * (tw + g))
      by (apply Z.mul_le_mono_nonneg_r; lia). lia.
  - destruct (Z.lt_trichotomy qi qj) as [Hq | [Hq | Hq]].
    + right; right; left. assert ((qi + 1) * (th + g) <= qj * (th + g))
        by (apply Z.mul_le_mono_nonneg_r; lia). lia.
    + exfalso. apply Hne. rewrite Ei, Ej. fold qi qj mi mj. congruence.
    + right; right; right. assert ((qj + 1) * (th + g) <= qi * (th + g))
        by (apply Z.mul_le_mono_nonneg_r; lia). lia.
  - right; left. assert ((mj + 1) * (tw + g) <= mi * (tw + g))
      by (apply Z.mul_le_mono_nonneg_r; lia). lia.
Qed.

(** A run of the grid compositor that returns has loaded the tiles, fixed
    the geometry, read the background and made its one upload. *)
Lemma grid_returned (codes : list string) (cols gap tile_height : Z)
  (bg fit_mode : string) (w w' : World) (res : CompositionResult) :
  build_flag_grid codes cols gap tile_height bg fit_mode w = (Return res, w') ->
  exists (miss : list string) (tiles : list (string * Image)) (geo : Geometry)
         (bg_rgba : option color) (canvas : Image),
    load_tiles (flag_codes codes) tile_height fit_mode [] [] = Return (miss, tiles)
    /\ grid_geometry tiles cols gap = Return geo
    /\ hex_to_rgba bg = Return bg_rgba
    /\ blank_canvas geo bg_rgba = Return canvas
    /\ placed res = map fst tiles
    /\ missing res = miss
    /\ uploads w' =
       uploads w ++
       [(output_path (filename res),
         match bg_rgba with
         | None => paste_tiles geo 0 tiles canvas
         | Some _ => convert RGB (paste_tiles geo 0 tiles canvas)
         end)].
Proof.
  intro H. pose proof (grid_persists_once codes cols gap tile_height bg fit_mode w) as P.
  rewrite H in P. exact P.
Qed.

(** X14. Whenever the grid compositor returns, [placed] lists the
    normalized codes that resolve to a tile and [missing] those that do
    not, both in input order: together they account for every code, and
    [placed] is not empty. *)
Theorem grid_partitions_codes (codes : list string) (cols gap tile_height : Z)
  (bg fit_mode : string) (w w' : World) (res : CompositionResult) :
  build_flag_grid codes cols gap tile_height bg fit_mode w = (Return res, w') ->
  placed res = filter (flag_resolves tile_height fit_mode) (flag_codes codes)
  /\ missing res
     = filter (fun c => negb (flag_resolves tile_height fit_mode c)) (flag_codes codes)
  /\ placed res <> []
  /\ (List.length (placed res) + List.length (missing res))%nat
     = List.length (flag_codes codes).
Proof.
  intro H. destruct (grid_returned _ _ _ _ _ _ _ _ _ H)
    as (miss & tiles & geo & bg_rgba & canvas & Hload & Hgeo & _ & _ & Hp & Hm & _).
  apply load_tiles_returned in Hload. cbn [map app] in Hload.
  destruct Hload as (Hfst & Hmiss & _).
  rewrite Hp, Hm, Hfst, Hmiss. repeat split.
  - rewrite <- Hfst. destruct tiles; [discriminate | discriminate].
  - apply filter_length.
Qed.

(** X15. Whenever the grid compositor returns, the one object it wrote has
    the size the geometry gives for cells of 2 * tile_height by
    tile_height, one cell per placed code; it is RGBA when the background
    is the keyword [transparent] and RGB when it is a colour. *)
Theorem grid_writes_flattened_canvas (codes : list string) (cols gap tile_height : Z)
  (bg fit_mode : string) (w w' : World) (res : CompositionResult) :
  build_flag_grid codes cols gap tile_height bg fit_mode w = (Return res, w') ->
  exists (tiles : list (string * Image)) (geo : Geometry) (bg_rgba : option color)
         (out : Image),
    map fst tiles = placed res
    /\ Forall (fun t => mode (snd t) = RGBA
                        /\ size (snd t) = (2 * tile_height, tile_height)) tiles
    /\ grid_geometry tiles cols gap = Return geo
    /\ tile_w geo = 2 * tile_height /\ tile_h geo = tile_height
    /\ hex_to_rgba bg = Return bg_rgba
    /\ uploads w' = uploads w ++ [(output_path (filename res), out)]
    /\ size out = (canvas_w geo, canvas_h geo)
    /\ mode out = match bg_rgba with None => RGBA | Some _ => RGB end.
Proof.
  intro H. destruct (grid_returned _ _ _ _ _ _ _ _ _ H)
    as (miss & tiles & geo & bg_rgba & canvas & Hload & Hgeo & Hbg & Hblank & Hp & _ & Hup).
  apply load_tiles_returned in Hload. destruct Hload as (_ & _ & Hall).
  specialize (Hall (Forall_nil _)).
  unfold blank_canvas in Hblank.
  apply new_returned in Hblank as (Hm & Hw & Hh & _).
  destruct (paste_tiles_frame geo tiles 0 canvas) as [Pm Ps].
  exists tiles, geo, bg_rgba. eexists.
  split; [symmetry; exact Hp |]. split; [exact Hall |]. split; [exact Hgeo |].
  assert (Htile : tile_w geo = 2 * tile_height /\ tile_h geo = tile_height).
  { destruct tiles as [| [code first] rest]; [discriminate |].
    rewrite grid_geometry_cons in Hgeo. cbv zeta in Hgeo. injection Hgeo as <-.
    cbn [tile_w tile_h]. inversion Hall as [| ? ? [_ Hs] _]; subst.
    cbn [snd] in Hs. unfold size in Hs. injection Hs as -> ->. split; reflexivity. }
  split; [exact (proj1 Htile) |]. split; [exact (proj2 Htile) |].
  split; [exact Hbg |]. split; [exact Hup |].
  unfold size in *. destruct bg_rgba as [c |]; cbn [convert mode width height].
  - injection Ps as -> ->. rewrite Hw, Hh. split; reflexivity.
  - injection Ps as -> ->. rewrite Pm, Hm, Hw, Hh. split; reflexivity.
Qed.

(** *** Scaling to fit and to fill *)

Lemma round_comp (x y : Q) : (x == y)%Q -> round x = round y.
Proof.
  intro E. unfold round. rewrite (Qfloor_comp _ _ E).
  replace ((x - inject_Z (Qfloor y)) ?= (1 # 2))%Q
    with ((y - inject_Z (Qfloor y)) ?= (1 # 2))%Q; [reflexivity |].
  apply Qcompare_comp; [| reflexivity].
  unfold Qminus. apply Qplus_comp; [symmetry; exact E | reflexivity].
Qed.

Lemma round_inject (n : Z) : round (inject_Z n) = n.
Proof.
  unfold round. rewrite Qfloor_Z.
  replace ((inject_Z n - inject_Z n) ?= (1 # 2))%Q with Lt; [reflexivity |].
  symmetry. apply Qlt_alt. setoid_replace (inject_Z n - inject_Z n)%Q with 0%Q by ring.
  reflexivity.
Qed.

Lemma minq_spec (a b : Q) :
  (minq a b <= a)%Q /\ (minq a b <= b)%Q /\ (minq a b = a \/ minq a b = b).
Proof.
  unfold minq. destruct (b ?= a)%Q eqn:E.
  - apply Qeq_alt in E. repeat split; auto; [apply Qle_refl | rewrite E; apply Qle_refl].
  - apply Qlt_alt in E. repeat split; auto; [apply Qlt_le_weak; exact E | apply Qle_refl].
  - apply Qgt_alt in E. repeat split; auto; [apply Qle_refl | apply Qlt_le_weak; exact E].
Qed.

Lemma maxq_spec (a b : Q) :
  (a <= maxq a b)%Q /\ (b <= maxq a b)%Q /\ (maxq a b = a \/ maxq a b = b).
Proof.
  unfold maxq. destruct (b ?= a)%Q eqn:E.
  - apply Qeq_alt in E. repeat split; auto; [apply Qle_refl | rewrite E; apply Qle_refl].
  - apply Qlt_alt in E. repeat split; auto; [apply Qle_refl | apply Qlt_le_weak; exact E].
  - apply Qgt_alt in E. repeat split; auto; [apply Qlt_le_weak; exact E | apply Qle_refl].
Qed.

Lemma inject_Z_succ (n : Z) : (inject_Z (n + 1) == inject_Z n + 1)%Q.
Proof. rewrite inject_Z_plus. reflexivity. Qed.

Lemma inject_Z_pred (n : Z) : (inject_Z (n - 1) == inject_Z n - 1)%Q.
Proof. unfold Z.sub. rewrite inject_Z_plus. reflexivity. Qed.

Lemma round_above (x : Q) (n : Z) : (inject_Z n - (1 # 2) < x)%Q -> n <= round x.
Proof.
  intro H. pose proof (Qlt_floor x) as Hc. rewrite inject_Z_succ in Hc.
  assert (Hlow : n - 1 <= Qfloor x).
  { apply Z.lt_succ_r. rewrite Zlt_Qlt. unfold Z.succ.
    rewrite inject_Z_succ, inject_Z_pred. lra. }
  unfold round.
  destruct (Z.eq_dec (Qfloor x) (n - 1)) as [E | NE].
  - replace ((x - inject_Z (Qfloor x)) ?= (1 # 2))%Q with Gt; [lia |].
    symmetry. apply (proj1 (Qgt_alt _ _)). rewrite E, inject_Z_pred. lra.
  - destruct (_ ?= _)%Q; [destruct (Z.even _) | |]; lia.
Qed.

Lemma round_below (x : Q) (n : Z) : (x < inject_Z n + (1 # 2))%Q -> round x <= n.
Proof.
  intro H. pose proof (Qfloor_le x) as Hf.
  assert (Hup : Qfloor x <= n).
  { apply Z.lt_succ_r. rewrite Zlt_Qlt. unfold Z.succ. rewrite inject_Z_succ. lra. }
  unfold round.
  destruct (Z.eq_dec (Qfloor x) n) as [E | NE].
  - replace ((x - inject_Z (Qfloor x)) ?= (1 # 2))%Q with Lt; [lia |].
    symmetry. apply (proj1 (Qlt_alt _ _)). rewrite E. lra.
  - destruct (_ ?= _)%Q; [destruct (Z.even _) | |]; lia.
Qed.

(** [round] is within a half of its argument, and monotone. *)
Lemma round_error (x : Q) : (x - (1 # 2) <= inject_Z (round x) <= x + (1 # 2))%Q.
Proof.
  pose proof (Qfloor_le x) as Hf. pose proof (Qlt_floor x) as Hc.
  rewrite inject_Z_succ in Hc. unfold round.
  destruct ((x - inject_Z (Qfloor x)) ?= (1 # 2))%Q eqn:E.
  - apply Qeq_alt in E. destruct (Z.even _); rewrite ?inject_Z_succ; lra.
  - apply Qlt_alt in E. lra.
  - apply Qgt_alt in E. rewrite inject_Z_succ. lra.
Qed.

Lemma round_mono (x y : Q) : (x <= y)%Q -> round x <= round y.
Proof.
  intro H. destruct (Z.le_gt_cases (round x) (round y)) as [L | G]; [exact L |].
  exfalso. set (n := round y) in *.
  assert (Hx : (inject_Z n + (1 # 2) <= x)%Q).
  { apply Qnot_lt_le. intro C. pose proof (round_below x n C). lia. }
  assert (Hy : (y <= inject_Z (n + 1) - (1 # 2))%Q).
  { apply Qnot_lt_le. intro C. pose proof (round_above y (n + 1) C). lia. }
  rewrite inject_Z_succ in Hy.
  assert (E : (x == y)%Q) by lra.
  pose proof (round_comp _ _ E). lia.
Qed.

(** Within the range of the contract the rounding respects equality of
    rationals. *)
Lemma fl_comp (x y : Q) :
  float_contract ->
  (0 <= x -> x <= 18446744073709551616 -> x == y -> fl x == fl y)%Q.
Proof.
  intros Hfl H0 H1 E. destruct Hfl as (Hmono & _).
  apply Qle_antisym; apply Hmono; lra.
Qed.

Lemma inject_Z_bounds (n lo hi : Z) :
  lo <= n <= hi -> (inject_Z lo <= inject_Z n <= inject_Z hi)%Q.
Proof. intros [H1 H2]. split; rewrite <- Zle_Qle; assumption. Qed.

(** The rounded quotient of a box side [b] by an image side [w], times
    [w], is [b] up to the relative error of one rounding. *)
Lemma quotient_bounds (b w : Z) :
  float_contract ->
  0 < w < 2147483648 -> 1 <= b < 2147483648 ->
  let q := fl (inject_Z b / inject_Z w) in
  (inject_Z b * (1 - (1 # 9007199254740992)) <= inject_Z w * q
   /\ inject_Z w * q <= inject_Z b * (1 + (1 # 9007199254740992)))%Q.
Proof.
  intros Hfl Hw Hb q. destruct Hfl as (_ & _ & Herr).
  pose proof (inject_Z_bounds w 1 2147483647 ltac:(lia)) as Bw.
  pose proof (inject_Z_bounds b 1 2147483647 ltac:(lia)) as Bb.
  change (inject_Z 1) with 1%Q in *. change (inject_Z 2147483647) with 2147483647%Q in *.
  set (W := inject_Z w) in *. set (B := inject_Z b) in *.
  assert (HW : ~ (W == 0)%Q) by lra.
  assert (Hq_lo : ((1 # 18446744073709551616) <= B / W)%Q).
  { apply Qle_shift_div_l; [lra |]. nra. }
  assert (Hq_hi : (B / W <= 18446744073709551616)%Q).
  { apply Qle_shift_div_r; [lra |]. nra. }
  destruct (Herr (B / W)%Q Hq_lo Hq_hi) as [L U]. fold q in L, U.
  split.
  - setoid_replace (B * (1 - (1 # 9007199254740992)))%Q
      with (W * (B / W * (1 - (1 # 9007199254740992))))%Q by (field; exact HW).
    apply Qmult_le_l; [lra | exact L].
  - setoid_replace (B * (1 + (1 # 9007199254740992)))%Q
      with (W * (B / W * (1 + (1 # 9007199254740992))))%Q by (field; exact HW).
    apply Qmult_le_l; [lra | exact U].
Qed.

Lemma float_of_int_exact (n : Z) :
  float_contract ->
  0 <= n < 2147483648 -> (float_of_int n == inject_Z n)%Q.
Proof.
  intros Hfl H. destruct Hfl as (_ & Hexact & _). apply Hexact. lia.
Qed.

Lemma quotient_range (b w : Z) :
  float_contract ->
  0 < w < 2147483648 -> 1 <= b < 2147483648 ->
  (0 <= fl (inject_Z b / inject_Z w) <= 4294967296)%Q.
Proof.
  intros Hfl Hw Hb. destruct Hfl as (_ & _ & Herr).
  pose proof (inject_Z_bounds w 1 2147483647 ltac:(lia)) as Bw.
  pose proof (inject_Z_bounds b 1 2147483647 ltac:(lia)) as Bb.
  change (inject_Z 1) with 1%Q in *. change (inject_Z 2147483647) with 2147483647%Q in *.
  set (W := inject_Z w) in *. set (B := inject_Z b) in *.
  assert (Hq_lo : ((1 # 18446744073709551616) <= B / W)%Q).
  { apply Qle_shift_div_l; [lra |]. nra. }
  assert (Hq_hi : (B / W <= 2147483647)%Q).
  { apply Qle_shift_div_r; [lra |]. nra. }
  destruct (Herr (B / W)%Q Hq_lo ltac:(lra)) as [L U]. lra.
Qed.

(** [w * scale] for a scale between 0 and 2^32: the conversion of [w] is
    exact, and the product is rounded once. *)
Lemma float_mul_comp (w : Z) (s : Q) :
  float_contract ->
  0 < w < 2147483648 -> (0 <= s <= 4294967296)%Q ->
  (float_mul (float_of_int w) s == fl (inject_Z w * s))%Q
  /\ (0 <= inject_Z w * s <= 18446744073709551616)%Q.
Proof.
  intros Hfl Hw Hs.
  pose proof (inject_Z_bounds w 1 2147483647 ltac:(lia)) as Bw.
  change (inject_Z 1) with 1%Q in *. change (inject_Z 2147483647) with 2147483647%Q in *.
  pose proof (float_of_int_exact w Hfl ltac:(lia)) as E.
  assert (R : (0 <= inject_Z w * s <= 18446744073709551616)%Q) by nra.
  split; [| exact R]. unfold float_mul. symmetry. apply (fl_comp _ _ Hfl); try lra.
  rewrite E. reflexivity.
Qed.

Lemma float_mul_mono (w : Z) (s t : Q) :
  float_contract ->
  0 < w < 2147483648 -> (0 <= s)%Q -> (s <= t)%Q -> (t <= 4294967296)%Q ->
  (float_mul (float_of_int w) s <= float_mul (float_of_int w) t)%Q.
Proof.
  intros Hfl Hw H0 Hst Ht.
  destruct (float_mul_comp w s Hfl Hw ltac:(lra)) as [Es Rs].
  destruct (float_mul_comp w t Hfl Hw ltac:(lra)) as [Et Rt].
  rewrite Es, Et. destruct Hfl as (Hmono & _).
  pose proof (inject_Z_bounds w 1 2147483647 ltac:(lia)) as Bw.
  change (inject_Z 1) with 1%Q in *.
  apply Hmono; try lra. apply Qmult_le_l; lra.
Qed.

(** Scaling a side by the quotient of the box side by it gives back the box
    side, up to less than a half: the two roundings cannot move the product
    to another integer. *)
Lemma scale_back_float (b w : Z) :
  float_contract ->
  0 < w < 2147483648 -> 1 <= b < 2147483648 ->
  let y := float_mul (float_of_int w) (fl (inject_Z b / inject_Z w)) in
  (inject_Z b - (1 # 2) < y /\ y < inject_Z b + (1 # 2))%Q.
Proof.
  intros Hfl Hw Hb y.
  pose proof (quotient_bounds b w Hfl Hw Hb) as Hq. cbv zeta in Hq.
  pose proof (quotient_range b w Hfl Hw Hb) as Hr.
  destruct (float_mul_comp w _ Hfl Hw Hr) as [E R]. fold y in E.
  pose proof (inject_Z_bounds b 1 2147483647 ltac:(lia)) as Bb.
  change (inject_Z 1) with 1%Q in *. change (inject_Z 2147483647) with 2147483647%Q in *.
  destruct Hfl as (_ & _ & Herr).
  destruct (Herr (inject_Z w * fl (inject_Z b / inject_Z w))%Q ltac:(lra) ltac:(lra))
    as [L U].
  rewrite E. lra.
Qed.

(** The sizes the two strategies scale a [w] by [h] source to, for a box of
    [bw] by [bh]: to fit, neither side exceeds the box and one side fills
    it; to fill, neither side falls short of the box and one side matches
    it. *)
Lemma fit_size_float (bw bh w h : Z) :
  float_contract ->
  0 < w < 2147483648 -> 0 < h < 2147483648 ->
  1 <= bw < 2147483648 -> 1 <= bh < 2147483648 ->
  let scale := minq (fl (inject_Z bw / inject_Z w)) (fl (inject_Z bh / inject_Z h)) in
  let nw := Z.max 1 (round (float_mul (float_of_int w) scale)) in
  let nh := Z.max 1 (round (float_mul (float_of_int h) scale)) in
  1 <= nw <= bw /\ 1 <= nh <= bh /\ (nw = bw \/ nh = bh).
Proof.
  intros Hfl Hw Hh Hbw Hbh scale nw nh.
  destruct (minq_spec (fl (inject_Z bw / inject_Z w)) (fl (inject_Z bh / inject_Z h)))
    as (Lx & Ly & Hcase). fold scale in Lx, Ly, Hcase.
  pose proof (quotient_range bw w Hfl Hw Hbw) as Rx.
  pose proof (quotient_range bh h Hfl Hh Hbh) as Ry.
  assert (H0 : (0 <= scale)%Q) by (destruct Hcase as [-> | ->]; lra).
  destruct (scale_back_float bw w Hfl Hw Hbw) as [Xl Xu].
  destruct (scale_back_float bh h Hfl Hh Hbh) as [Yl Yu].
  pose proof (float_mul_mono w scale _ Hfl Hw H0 Lx (proj2 Rx)) as Mx.
  pose proof (float_mul_mono h scale _ Hfl Hh H0 Ly (proj2 Ry)) as My.
  assert (Uw : round (float_mul (float_of_int w) scale) <= bw) by (apply round_below; lra).
  assert (Uh : round (float_mul (float_of_int h) scale) <= bh) by (apply round_below; lra).
  split; [subst nw; lia |]. split; [subst nh; lia |].
  destruct Hcase as [E | E].
  - left. subst nw. rewrite E. pose proof (round_above _ bw Xl). rewrite E in Uw. lia.
  - right. subst nh. rewrite E. pose proof (round_above _ bh Yl). rewrite E in Uh. lia.
Qed.

Lemma fill_size_float (bw bh w h : Z) :
  float_contract ->
  0 < w < 2147483648 -> 0 < h < 2147483648 ->
  1 <= bw < 2147483648 -> 1 <= bh < 2147483648 ->
  let scale := maxq (fl (inject_Z bw / inject_Z w)) (fl (inject_Z bh / inject_Z h)) in
  let nw := Z.max 1 (round (float_mul (float_of_int w) scale)) in
  let nh := Z.max 1 (round (float_mul (float_of_int h) scale)) in
  bw <= nw /\ bh <= nh /\ (nw = bw \/ nh = bh).
Proof.
  intros Hfl Hw Hh Hbw Hbh scale nw nh.
  destruct (maxq_spec (fl (inject_Z bw / inject_Z w)) (fl (inject_Z bh / inject_Z h)))
    as (Lx & Ly & Hcase). fold scale in Lx, Ly, Hcase.
  pose proof (quotient_range bw w Hfl Hw Hbw) as Rx.
  pose proof (quotient_range bh h Hfl Hh Hbh) as Ry.
  assert (H1 : (scale <= 4294967296)%Q) by (destruct Hcase as [-> | ->]; lra).
  destruct (scale_back_float bw w Hfl Hw Hbw) as [Xl Xu].
  destruct (scale_back_float bh h Hfl Hh Hbh) as [Yl Yu].
  pose proof (float_mul_mono w _ scale Hfl Hw (proj1 Rx) Lx H1) as Mx.
  pose proof (float_mul_mono h _ scale Hfl Hh (proj1 Ry) Ly H1) as My.
  assert (Uw : bw <= round (float_mul (float_of_int w) scale)) by (apply round_above; lra).
  assert (Uh : bh <= round (float_mul (float_of_int h) scale)) by (apply round_above; lra).
  split; [subst nw; lia |]. split; [subst nh; lia |].
  destruct Hcase as [E | E].
  - left. subst nw. rewrite E. pose proof (round_below _ bw Xu). rewrite E in Uw. lia.
  - right. subst nh. rewrite E. pose proof (round_below _ bh Yu). rewrite E in Uh. lia.
Qed.

(** The width of the tile: [2.0 * box_h] is computed without error. *)
Lemma box_width_float (box_h : Z) :
  float_contract ->
  0 <= box_h < 1073741824 ->
  round (float_mul (2 # 1) (float_of_int box_h)) = 2 * box_h.
Proof.
  intros Hfl Hb.
  pose proof (inject_Z_bounds box_h 0 1073741823 ltac:(lia)) as Bb.
  change (inject_Z 0) with 0%Q in *. change (inject_Z 1073741823) with 1073741823%Q in *.
  pose proof (float_of_int_exact box_h Hfl ltac:(lia)) as E.
  assert (E2 : ((2 # 1) * inject_Z box_h == inject_Z (2 * box_h))%Q).
  { rewrite inject_Z_mult. reflexivity. }
  assert (E3 : (float_mul (2 # 1) (float_of_int box_h) == inject_Z (2 * box_h))%Q).
  { unfold float_mul.
    rewrite (fl_comp ((2 # 1) * float_of_int box_h) (inject_Z (2 * box_h)) Hfl);
      [| lra | lra | rewrite E; exact E2].
    destruct Hfl as (_ & Hexact & _). apply Hexact. lia. }
  rewrite (round_comp _ _ E3). apply round_inject.
Qed.

Lemma float_truediv_nonzero (a b : Z) :
  b <> 0 -> float_truediv a b = Return (fl (inject_Z a / inject_Z b)).
Proof.
  intro H. unfold float_truediv. destruct (Z.eqb_spec b 0); [contradiction | reflexivity].
Qed.

(** With a rounding that changes nothing the float version is the function
    on exact rationals. *)
Lemma make_uniform_tile_from_bytes_float_exact (img_bytes : list Byte.byte) (box_h : Z)
  (ratio_w_over_h : Q) (fit_mode : string) :
  (forall x : Q, fl x = x) ->
  make_uniform_tile_from_bytes_float img_bytes box_h ratio_w_over_h fit_mode
  = make_uniform_tile_from_bytes img_bytes box_h ratio_w_over_h fit_mode.
Proof.
  intro Hid.
  unfold make_uniform_tile_from_bytes_float, make_uniform_tile_from_bytes,
    float_truediv, truediv, float_mul, float_of_int.
  rewrite !Hid. destruct (open_rgba img_bytes) as [img | e]; [| reflexivity].
  cbn [bind].
  destruct (String.eqb fit_mode "pad"); [| destruct (String.eqb fit_mode "crop")];
    try reflexivity;
    (destruct (width img =? 0); [reflexivity |];
     destruct (height img =? 0); [reflexivity |];
     cbn [bind]; rewrite !Hid; reflexivity).
Qed.

(** X26. In the arithmetic of the source, floats rounded to nearest, the
    normalizer returns for every fit mode an RGBA tile of exactly
    2 * box_h by box_h, whatever the size of the source, as long as the
    source and the tile have less than 2^31 pixels a side. *)
Theorem uniform_tile_size_float (img_bytes : list Byte.byte) (src : Image) (box_h : Z)
  (fit_mode : string) :
  float_contract ->
  decode img_bytes = Some src ->
  0 < width src < 2147483648 -> 0 < height src < 2147483648 ->
  0 < box_h < 1073741824 ->
  exists tile : Image,
    make_uniform_tile_from_bytes_float img_bytes box_h (2 # 1) fit_mode = Return tile
    /\ mode tile = RGBA /\ size tile = (2 * box_h, box_h).
Proof.
  intros Hfl Hdec Hw Hh Hbox.
  pose proof (fit_size_float (2 * box_h) box_h (width src) (height src)
                Hfl Hw Hh ltac:(lia) ltac:(lia)) as Hfit. cbv zeta in Hfit.
  pose proof (fill_size_float (2 * box_h) box_h (width src) (height src)
                Hfl Hw Hh ltac:(lia) ltac:(lia)) as Hfill. cbv zeta in Hfill.
  unfold make_uniform_tile_from_bytes_float.
  rewrite (box_width_float box_h Hfl ltac:(lia)), (open_rgba_decoded _ _ Hdec).
  cbn [bind].
  change (width (convert RGBA src)) with (width src).
  change (height (convert RGBA src)) with (height src).
  rewrite !float_truediv_nonzero by lia. cbn [bind].
  destruct (String.eqb fit_mode "pad"); [| destruct (String.eqb fit_mode "crop")].
  - destruct Hfit as (Bw & Bh & _).
    match goal with
    | |- context [resize _ (?a, ?b) LANCZOS] =>
        destruct (resize_positive (convert RGBA src) a b LANCZOS ltac:(lia) ltac:(lia))
          as (scaled & -> & _)
    end.
    cbn [bind]. unfold new.
    destruct (Z.ltb_spec (2 * box_h) 0); [lia |].
    destruct (Z.ltb_spec box_h 0); [lia |]. cbn [orb bind].
    eexists. split; [reflexivity |]. split; reflexivity.
  - destruct Hfill as (Bw & Bh & _).
    match goal with
    | |- context [resize _ (?a, ?b) LANCZOS] =>
        destruct (resize_positive (convert RGBA src) a b LANCZOS ltac:(lia) ltac:(lia))
          as (scaled & -> & Hm & _)
    end.
    cbn [bind]. unfold crop.
    match goal with
    | |- context [?r <? ?l] => destruct (Z.ltb_spec r l); [lia |]
    end.
    match goal with
    | |- context [?r <? ?l] => destruct (Z.ltb_spec r l); [lia |]
    end.
    eexists. split; [reflexivity |]. unfold size. cbn [mode width height].
    split; [exact Hm | f_equal; lia].
  - destruct (resize_positive (convert RGBA src) (2 * box_h) box_h LANCZOS
                ltac:(lia) ltac:(lia)) as (tile & -> & Hm & Ew & Eh).
    exists tile. split; [reflexivity |]. unfold size. rewrite Hm, Ew, Eh.
    split; reflexivity.
Qed.

(** X9. The pad strategy never clips the flag, in the arithmetic of the
    source: floats rounded to nearest.  For a source and a tile of less
    than 2^31 pixels a side the source is scaled to a size that fits the
    tile and fills it along one axis, it is pasted centred, entirely inside
    the tile, and every pixel outside of it is transparent. *)
Theorem pad_centres_whole_image (img_bytes : list Byte.byte) (src : Image) (box_h : Z) :
  float_contract ->
  decode img_bytes = Some src ->
  0 < width src < 2147483648 -> 0 < height src < 2147483648 ->
  0 < box_h < 1073741824 ->
  exists (tile scaled : Image) (x y : Z),
    make_uniform_tile_from_bytes_float img_bytes box_h (2 # 1) "pad" = Return tile
    /\ resize (convert RGBA src) (width scaled, height scaled) LANCZOS = Return scaled
    /\ 1 <= width scaled <= 2 * box_h /\ 1 <= height scaled <= box_h
    /\ (width scaled = 2 * box_h \/ height scaled = box_h)
    /\ x = (2 * box_h - width scaled) / 2 /\ y = (box_h - height scaled) / 2
    /\ 0 <= x /\ x + width scaled <= 2 * box_h
    /\ 0 <= y /\ y + height scaled <= box_h
    /\ (forall px py : Z,
          x <= px < x + width scaled -> y <= py < y + height scaled ->
          getpixel tile px py = over (0, 0, 0, 0) (getpixel scaled (px - x) (py - y)))
    /\ (forall px py : Z,
          ~ (x <= px < x + width scaled /\ y <= py < y + height scaled) ->
          getpixel tile px py = (0, 0, 0, 0)).
Proof.
  intros Hfl Hdec Hw Hh Hbox.
  pose proof (fit_size_float (2 * box_h) box_h (width src) (height src)
                Hfl Hw Hh ltac:(lia) ltac:(lia)) as Hfit. cbv zeta in Hfit.
  unfold make_uniform_tile_from_bytes_float.
  rewrite (box_width_float box_h Hfl ltac:(lia)), (open_rgba_decoded _ _ Hdec).
  cbn [bind].
  change (String.eqb "pad" "pad") with true. cbv iota.
  change (width (convert RGBA src)) with (width src).
  change (height (convert RGBA src)) with (height src).
  rewrite !float_truediv_nonzero by lia. cbn [bind].
  set (scale := minq (fl (inject_Z (2 * box_h) / inject_Z (width src)))
                     (fl (inject_Z box_h / inject_Z (height src)))) in *.
  set (nw := Z.max 1 (round (float_mul (float_of_int (width src)) scale))) in *.
  set (nh := Z.max 1 (round (float_mul (float_of_int (height src)) scale))) in *.
  destruct Hfit as (Bw & Bh & Hfull).
  destruct (resize_positive (convert RGBA src) nw nh LANCZOS ltac:(lia) ltac:(lia))
    as (scaled & Hres & _ & Ew & Eh).
  rewrite Hres. cbn [bind]. unfold new.
  destruct (Z.ltb_spec (2 * box_h) 0); [lia |].
  destruct (Z.ltb_spec box_h 0); [lia |]. cbn [orb bind].
  pose proof (Z.div_mod (2 * box_h - nw) 2 ltac:(lia)) as Dx.
  pose proof (Z.mod_pos_bound (2 * box_h - nw) 2 ltac:(lia)) as Mx.
  pose proof (Z.div_mod (box_h - nh) 2 ltac:(lia)) as Dy.
  pose proof (Z.mod_pos_bound (box_h - nh) 2 ltac:(lia)) as My.
  eexists. exists scaled, ((2 * box_h - nw) / 2), ((box_h - nh) / 2).
  split; [reflexivity |]. rewrite Ew, Eh.
  split; [exact Hres |].
  split; [exact Bw |]. split; [exact Bh |]. split; [exact Hfull |].
  split; [reflexivity |]. split; [reflexivity |].
  split; [lia |]. split; [lia |]. split; [lia |]. split; [lia |].
  unfold alpha_composite. cbn [getpixel]. rewrite Ew, Eh. split.
  - intros px py Hx Hy.
    destruct (Z.leb_spec 0 (px - (2 * box_h - nw) / 2)); [| lia].
    destruct (Z.ltb_spec (px - (2 * box_h - nw) / 2) nw); [| lia].
    destruct (Z.leb_spec 0 (py - (box_h - nh) / 2)); [| lia].
    destruct (Z.ltb_spec (py - (box_h - nh) / 2) nh); [| lia].
    reflexivity.
  - intros px py Hout.
    destruct (Z.leb_spec 0 (px - (2 * box_h - nw) / 2)); cbn [andb]; [| reflexivity].
    destruct (Z.ltb_spec (px - (2 * box_h - nw) / 2) nw); cbn [andb]; [| reflexivity].
    destruct (Z.leb_spec 0 (py - (box_h - nh) / 2)); cbn [andb]; [| reflexivity].
    destruct (Z.ltb_spec (py - (box_h - nh) / 2) nh); [| reflexivity].
    exfalso. apply Hout. lia.
Qed.

(** X10. The crop strategy never pads, in the arithmetic of the source:
    floats rounded to nearest.  For a source and a tile of less than 2^31
    pixels a side the source is scaled to a size that covers the tile and
    matches it along one axis, the crop box lies centred inside the scaled
    image, and every pixel of the tile is a pixel of the scaled image. *)
Theorem crop_fills_whole_tile (img_bytes : list Byte.byte) (src : Image) (box_h : Z) :
  float_contract ->
  decode img_bytes = Some src ->
  0 < width src < 2147483648 -> 0 < height src < 2147483648 ->
  0 < box_h < 1073741824 ->
  exists (tile scaled : Image) (left top : Z),
    make_uniform_tile_from_bytes_float img_bytes box_h (2 # 1) "crop" = Return tile
    /\ resize (convert RGBA src) (width scaled, height scaled) LANCZOS = Return scaled
    /\ 2 * box_h <= width scaled /\ box_h <= height scaled
    /\ (width scaled = 2 * box_h \/ height scaled = box_h)
    /\ left = (width scaled - 2 * box_h) / 2 /\ top = (height scaled - box_h) / 2
    /\ 0 <= left /\ left + 2 * box_h <= width scaled
    /\ 0 <= top /\ top + box_h <= height scaled
    /\ (forall px py : Z,
          0 <= px < 2 * box_h -> 0 <= py < box_h ->
          getpixel tile px py = getpixel scaled (px + left) (py + top)).
Proof.
  intros Hfl Hdec Hw Hh Hbox.
  pose proof (fill_size_float (2 * box_h) box_h (width src) (height src)
                Hfl Hw Hh ltac:(lia) ltac:(lia)) as Hfill. cbv zeta in Hfill.
  unfold make_uniform_tile_from_bytes_float.
  rewrite (box_width_float box_h Hfl ltac:(lia)), (open_rgba_decoded _ _ Hdec).
  cbn [bind].
  change (String.eqb "crop" "pad") with false.
  change (String.eqb "crop" "crop") with true. cbv iota.
  change (width (convert RGBA src)) with (width src).
  change (height (convert RGBA src)) with (height src).
  rewrite !float_truediv_nonzero by lia. cbn [bind].
  set (scale := maxq (fl (inject_Z (2 * box_h) / inject_Z (width src)))
                     (fl (inject_Z box_h / inject_Z (height src)))) in *.
  set (nw := Z.max 1 (round (float_mul (float_of_int (width src)) scale))) in *.
  set (nh := Z.max 1 (round (float_mul (float_of_int (height src)) scale))) in *.
  destruct Hfill as (Bw & Bh & Hfull).
  destruct (resize_positive (convert RGBA src) nw nh LANCZOS ltac:(lia) ltac:(lia))
    as (scaled & Hres & _ & Ew & Eh).
  rewrite Hres. cbn [bind].
  pose proof (Z.div_mod (nw - 2 * box_h) 2 ltac:(lia)) as Dx.
  pose proof (Z.mod_pos_bound (nw - 2 * box_h) 2 ltac:(lia)) as Mx.
  pose proof (Z.div_mod (nh - box_h) 2 ltac:(lia)) as Dy.
  pose proof (Z.mod_pos_bound (nh - box_h) 2 ltac:(lia)) as My.
  rewrite (Z.max_r 0 ((nw - 2 * box_h) / 2)) by lia.
  rewrite (Z.max_r 0 ((nh - box_h) / 2)) by lia.
  unfold crop.
  destruct (Z.ltb_spec ((nw - 2 * box_h) / 2 + 2 * box_h) ((nw - 2 * box_h) / 2));
    [lia |].
  destruct (Z.ltb_spec ((nh - box_h) / 2 + box_h) ((nh - box_h) / 2)); [lia |].
  eexists. exists scaled, ((nw - 2 * box_h) / 2), ((nh - box_h) / 2).
  split; [reflexivity |]. rewrite Ew, Eh.
  split; [exact Hres |].
  split; [exact Bw |]. split; [exact Bh |]. split; [exact Hfull |].
  split; [reflexivity |]. split; [reflexivity |].
  split; [lia |]. split; [lia |]. split; [lia |]. split; [lia |].
  intros px py Hx Hy. cbn [getpixel]. rewrite ?Ew, ?Eh.
  destruct (Z.leb_spec 0 (px + (nw - 2 * box_h) / 2)); [| lia].
  destruct (Z.ltb_spec (px + (nw - 2 * box_h) / 2) nw); [| lia].
  destruct (Z.leb_spec 0 (py + (nh - box_h) / 2)); [| lia].
  destruct (Z.ltb_spec (py + (nh - box_h) / 2) nh); [| lia].
  reflexivity.
Qed.

(** *** Colours, continued *)

Lemma int16_doubled_non_digit (c : ascii) :
  is_hex_digit c = false -> int16 (String c (String c "")) = Raise invalid_literal.
Proof.
  intro H.
  destruct c as [[] [] [] [] [] [] [] []]; cbn in H; try discriminate H; reflexivity.
Qed.

Lemma is_hex_digit_true (c : ascii) :
  is_hex_digit c = true -> exists d, hex_digit c = Some d.
Proof. unfold is_hex_digit. destruct (hex_digit c) as [d |]; [eauto | discriminate]. Qed.

(** X17. Every well-formed colour, [#RGB] or [#RRGGBB], is read without
    error as an opaque colour whose three channels lie between 0 and
    255. *)
Theorem hex_to_rgba_well_formed (col : string) :
  well_formed_hex col = true ->
  exists r g b : Z,
    hex_to_rgba col = Return (Some (r, g, b, 255))
    /\ 0 <= r <= 255 /\ 0 <= g <= 255 /\ 0 <= b <= 255.
Proof.
  unfold well_formed_hex. destruct col as [| c0 rest]; [discriminate |].
  cbn [list_ascii_of_string].
  destruct c0 as [[] [] [] [] [] [] [] []]; try discriminate.
  destruct rest as [| a [| b [| c [| d [| e [| f [| x rest]]]]]]];
    cbn [list_ascii_of_string List.length Nat.eqb orb andb forallb]; try discriminate.
  - rewrite !andb_true_r. intro H.
    apply andb_true_iff in H as [Ha H]. apply andb_true_iff in H as [Hb Hc].
    apply is_hex_digit_true in Ha as [da Ha], Hb as [db Hb], Hc as [dc Hc].
    destruct (int16_two_hex_digits a a da da Ha Ha) as [Ea Ra].
    destruct (int16_two_hex_digits b b db db Hb Hb) as [Eb Rb].
    destruct (int16_two_hex_digits c c dc dc Hc Hc) as [Ec Rc].
    exists (16 * da + da), (16 * db + db), (16 * dc + dc).
    split; [| repeat split; lia].
    unfold hex_to_rgba. cbn [lower String.eqb Ascii.eqb lower_char].
    change (slice 1 3 _) with (String a (String a "")).
    change (slice 3 5 _) with (String b (String b "")).
    change (slice 5 7 _) with (String c (String c "")).
    rewrite Ea, Eb, Ec. reflexivity.
  - rewrite !andb_true_r. intro H.
    apply andb_true_iff in H as [Ha H]. apply andb_true_iff in H as [Hb H].
    apply andb_true_iff in H as [Hc H]. apply andb_true_iff in H as [Hd H].
    apply andb_true_iff in H as [He Hf].
    apply is_hex_digit_true in Ha as [da Ha], Hb as [db Hb], Hc as [dc Hc],
      Hd as [dd Hd], He as [de He], Hf as [df Hf].
    destruct (int16_two_hex_digits a b da db Ha Hb) as [Ea Ra].
    destruct (int16_two_hex_digits c d dc dd Hc Hd) as [Eb Rb].
    destruct (int16_two_hex_digits e f de df He Hf) as [Ec Rc].
    exists (16 * da + db), (16 * dc + dd), (16 * de + df).
    split; [| repeat split; lia].
    unfold hex_to_rgba. cbn [lower String.eqb Ascii.eqb lower_char].
    change (slice 1 3 _) with (String a (String b "")).
    change (slice 3 5 _) with (String c (String d "")).
    change (slice 5 7 _) with (String e (String f "")).
    rewrite Ea, Eb, Ec. reflexivity.
Qed.

(** X18. A four-character colour, a hash sign and three characters of
    which at least one is no hexadecimal digit, is not read as white: the
    conversion raises a [ValueError].  The characters are those of the
    strings here, of code point below 256. *)
Theorem hex_to_rgba_short_form_raises (a b c : ascii) :
  is_hex_digit a && is_hex_digit b && is_hex_digit c = false ->
  exists msg : string,
    hex_to_rgba (String "#" (String a (String b (String c "")))) = Raise (ValueError msg).
Proof.
  intro H. exists "invalid literal for int() with base 16".
  unfold hex_to_rgba. cbn [lower String.eqb Ascii.eqb lower_char].
  change (slice 1 3 _) with (String a (String a "")).
  change (slice 3 5 _) with (String b (String b "")).
  change (slice 5 7 _) with (String c (String c "")).
  cbv iota beta.
  destruct (is_hex_digit a) eqn:Ha; [| rewrite (int16_doubled_non_digit a Ha); reflexivity].
  apply is_hex_digit_true in Ha as [da Ha].
  rewrite (proj1 (int16_two_hex_digits a a da da Ha Ha)). cbn [bind].
  destruct (is_hex_digit b) eqn:Hb; [| rewrite (int16_doubled_non_digit b Hb); reflexivity].
  apply is_hex_digit_true in Hb as [db Hb].
  rewrite (proj1 (int16_two_hex_digits b b db db Hb Hb)). cbn [bind].
  cbn [andb] in H. rewrite (int16_doubled_non_digit c H). reflexivity.
Qed.

(** *** Normalization of the codes *)

Lemma lower_char_idempotent (c : ascii) : lower_char (lower_char c) = lower_char c.
Proof. destruct c as [[] [] [] [] [] [] [] []]; reflexivity. Qed.

Lemma lower_idempotent (s : string) : lower (lower s) = lower s.
Proof.
  induction s as [| c r IH]; [reflexivity |].
  cbn [lower]. rewrite lower_char_idempotent, IH. reflexivity.
Qed.

Lemma lower_truthy (s : string) : truthy (lower s) = truthy s.
Proof. destruct s; reflexivity. Qed.

Lemma isspace_lower_char (c : ascii) : isspace (lower_char c) = isspace c.
Proof. destruct c as [[] [] [] [] [] [] [] []]; reflexivity. Qed.

Lemma lstrip_lower (s : string) :
  lstrip_by isspace (lower s) = lower (lstrip_by isspace s).
Proof.
  induction s as [| c r IH]; [reflexivity |].
  cbn [lower lstrip_by]. rewrite isspace_lower_char.
  destruct (isspace c); [exact IH | reflexivity].
Qed.

Lemma rstrip_lower (s : string) :
  rstrip_by isspace (lower s) = lower (rstrip_by isspace s).
Proof.
  induction s as [| c r IH]; [reflexivity |].
  cbn [lower rstrip_by]. rewrite IH, isspace_lower_char.
  destruct (rstrip_by isspace r); cbn [lower]; [destruct (isspace c) |]; reflexivity.
Qed.

Lemma strip_lower (s : string) : strip (lower s) = lower (strip s).
Proof. unfold strip. rewrite lstrip_lower, rstrip_lower. reflexivity. Qed.

Lemma lstrip_head_outside (p : ascii -> bool) (s : string) :
  head_outside p (lstrip_by p s).
Proof.
  induction s as [| c r IH]; [exact I |].
  cbn [lstrip_by]. destruct (p c) eqn:E; [exact IH | exact E].
Qed.

Lemma lstrip_fixed (p : ascii -> bool) (s : string) :
  head_outside p s -> lstrip_by p s = s.
Proof. destruct s as [| c r]; [reflexivity |]. cbn. intros ->. reflexivity. Qed.

Lemma rstrip_head_outside (p : ascii -> bool) (s : string) :
  head_outside p s -> head_outside p (rstrip_by p s).
Proof.
  destruct s as [| c r]; [intros; exact I |]. cbn [head_outside rstrip_by]. intro E.
  destruct (rstrip_by p r); [rewrite E |]; exact E.
Qed.

Lemma rstrip_idempotent (p : ascii -> bool) (s : string) :
  rstrip_by p (rstrip_by p s) = rstrip_by p s.
Proof.
  induction s as [| c r IH]; [reflexivity |].
  cbn [rstrip_by]. destruct (rstrip_by p r) as [| d r'] eqn:E.
  - destruct (p c) eqn:Ec; [reflexivity |]. cbn [rstrip_by]. rewrite Ec. reflexivity.
  - cbn [rstrip_by] in *. rewrite IH. reflexivity.
Qed.

Lemma strip_idempotent (s : string) : strip (strip s) = strip s.
Proof.
  unfold strip.
  rewrite (lstrip_fixed isspace (rstrip_by isspace (lstrip_by isspace s))).
  - apply rstrip_idempotent.
  - apply rstrip_head_outside, lstrip_head_outside.
Qed.

Lemma normalized_fixed {A : Type} (f : A -> A) (q : A -> bool) (l : list A) :
  (forall e, In e l -> q e = true /\ f e = e) -> map f (filter q l) = l.
Proof.
  induction l as [| e l IH]; intro H; [reflexivity |].
  destruct (H e (or_introl eq_refl)) as [Hq Hf].
  cbn [filter]. rewrite Hq. cbn [map]. rewrite Hf, IH; [reflexivity |].
  intros e' He'. apply H. right. exact He'.
Qed.

Lemma flag_codes_normal (codes : list string) (c : string) :
  In c (flag_codes codes) -> normal_code c.
Proof.
  unfold flag_codes. intro H. apply in_map_iff in H as (c0 & <- & H0).
  apply filter_In in H0 as [_ Ht].
  unfold normal_code. rewrite <- strip_lower, !strip_idempotent, strip_lower.
  rewrite lower_idempotent. repeat split.
  intro E. rewrite <- lower_truthy, E in Ht. discriminate.
Qed.

(** X20. The codes the grid compositor works on are never blank, carry no
    blanks around them and are in lower case; normalizing them again, by
    the grid's rule or by the stamp pipeline's, changes nothing. *)
Theorem flag_codes_idempotent (codes : list string) :
  Forall normal_code (flag_codes codes)
  /\ flag_codes (flag_codes codes) = flag_codes codes
  /\ stamp_codes (flag_codes codes) = flag_codes codes.
Proof.
  split; [| split].
  - apply Forall_forall. apply flag_codes_normal.
  - unfold flag_codes at 1. apply normalized_fixed. intros e He.
    destruct (flag_codes_normal codes e He) as (Hne & Hs & Hl).
    rewrite Hs, Hl. split; [| reflexivity]. destruct e; [contradiction | reflexivity].
  - unfold stamp_codes. apply normalized_fixed. intros e He.
    destruct (flag_codes_normal codes e He) as (Hne & Hs & Hl).
    split; [| exact Hl]. destruct e; [contradiction | reflexivity].
Qed.

(** X21. The codes the stamp pipeline works on are never empty and are in
    lower case; normalizing them again changes nothing.  Blanks around a
    code are kept: the stamp pipeline does not trim. *)
Theorem stamp_codes_idempotent (codes : list string) :
  Forall (fun c => c <> "" /\ lower c = c) (stamp_codes codes)
  /\ stamp_codes (stamp_codes codes) = stamp_codes codes
  /\ stamp_codes [" au "] = [" au "].
Proof.
  assert (H : forall e, In e (stamp_codes codes) -> e <> "" /\ lower e = e).
  { unfold stamp_codes. intros e He. apply in_map_iff in He as (c0 & <- & H0).
    apply filter_In in H0 as [_ Ht]. rewrite lower_idempotent. split; [| reflexivity].
    intro E. rewrite <- lower_truthy, E in Ht. discriminate. }
  split; [| split].
  - apply Forall_forall. exact H.
  - unfold stamp_codes at 1. apply normalized_fixed. intros e He.
    destruct (H e He) as [Hne Hl]. split; [| exact Hl].
    destruct e; [contradiction | reflexivity].
  - reflexivity.
Qed.

(** *** The HTTP entry point *)

Lemma split_on_nonempty (sep : ascii) (s : string) : split_on sep s <> [].
Proof.
  destruct s as [| c r]; cbn [split_on]; [discriminate |].
  destruct (Ascii.eqb c sep); [discriminate |].
  destruct (split_on sep r); discriminate.
Qed.

Lemma split_on_lacks (sep : ascii) (s : string) :
  Forall (lacks sep) (split_on sep s).
Proof.
  induction s as [| c r IH]; cbn [split_on].
  - constructor; [| constructor]. intros [].
  - destruct (Ascii.eqb_spec c sep) as [E | NE].
    + constructor; [intros [] | exact IH].
    + destruct (split_on sep r) as [| piece pieces].
      * constructor; [| constructor]. intros [H | []]. congruence.
      * inversion IH as [| ? ? Hp Hps]; subst. constructor; [| exact Hps].
        intros [H | H]; [congruence | exact (Hp H)].
Qed.

Lemma lstrip_lacks (p : ascii -> bool) (c : ascii) (s : string) :
  lacks c s -> lacks c (lstrip_by p s).
Proof.
  unfold lacks. induction s as [| d r IH]; [auto |].
  cbn [lstrip_by]. destruct (p d); [| auto].
  intros H Hin. apply IH; [| exact Hin]. intro Hr. apply H. right. exact Hr.
Qed.

Lemma rstrip_lacks (p : ascii -> bool) (c : ascii) (s : string) :
  lacks c s -> lacks c (rstrip_by p s).
Proof.
  unfold lacks. induction s as [| d r IH]; [auto |].
  cbn [rstrip_by list_ascii_of_string]. intros H.
  assert (Hr : ~ In c (list_ascii_of_string (rstrip_by p r))).
  { apply IH. intro Hin. apply H. right. exact Hin. }
  destruct (rstrip_by p r) as [| e r'].
  - destruct (p d); [intros [] |]. intros [E | []]. apply H. left. exact E.
  - intros [E | Hin]; [apply H; left; exact E | exact (Hr Hin)].
Qed.

(** X22. The codes read from the query string are the pieces between
    commas, trimmed, without the blank ones: none is empty, none has a
    blank around it and none holds a comma.  Both pipelines then only lower
    their case. *)
Theorem codes_of_param_clean (param : string) :
  Forall (fun c => c <> "" /\ strip c = c /\ lacks "," c) (codes_of_param param)
  /\ stamp_codes (codes_of_param param) = map lower (codes_of_param param)
  /\ flag_codes (codes_of_param param) = map lower (codes_of_param param).
Proof.
  assert (H : forall c, In c (codes_of_param param) ->
                        c <> "" /\ strip c = c /\ lacks "," c).
  { unfold codes_of_param. intros c Hc. apply in_map_iff in Hc as (c0 & <- & H0).
    apply filter_In in H0 as [Hin Ht].
    split; [| split].
    - intro E. rewrite E in Ht. discriminate.
    - apply strip_idempotent.
    - unfold strip. apply rstrip_lacks, lstrip_lacks.
      pose proof (split_on_lacks "," param) as Hall.
      rewrite Forall_forall in Hall. exact (Hall c0 Hin). }
  split; [apply Forall_forall; exact H |]. split.
  - unfold stamp_codes. f_equal. apply forallb_filter_id, forallb_forall.
    intros c Hc. destruct (H c Hc) as [Hne _]. destruct c; [contradiction | reflexivity].
  - unfold flag_codes.
    replace (filter (fun c => truthy (strip c)) (codes_of_param param))
      with (codes_of_param param).
    + apply map_ext_in. intros c Hc. destruct (H c Hc) as (_ & -> & _). reflexivity.
    + symmetry. apply forallb_filter_id, forallb_forall.
      intros c Hc. destruct (H c Hc) as (Hne & -> & _).
      destruct c; [contradiction | reflexivity].
Qed.

(** X23. What the handler answers, and what it leaves behind.  The
    answer is 204, without content or effect, exactly for a preflight.
    Otherwise the handler reads the codes of the request: an error of
    reading them is answered 500; no code is answered 400, and only that
    is, both without running the pipeline; and with codes the pipeline is
    run on them, once: its result is answered 200, which no other request
    is, and its failure 500 with the text of the exception.  Only the
    answer 200 comes with an upload, exactly one, of the full canvas, and
    it reports at least one placed code. *)
Theorem handler_answers (req : Request) (w : World) :
  let resp := fst (compose_passport_stamps_http req w) in
  let w' := snd (compose_passport_stamps_http req w) in
  (status resp = 204 <-> req_method req = "OPTIONS")
  /\ (status resp = 204 -> payload resp = NoContent /\ w' = w)
  /\ (status resp = 400 <-> req_method req <> "OPTIONS" /\ request_codes req = inr [])
  /\ (status resp = 400 -> payload resp = Failure "No country codes provided." /\ w' = w)
  /\ (status resp = 200 <->
      req_method req <> "OPTIONS"
      /\ exists (codes : list string) (res : CompositionResult) (w1 : World),
           request_codes req = inr codes /\ codes <> []
           /\ compose_passport_stamps codes w = (Return res, w1))
  /\ (forall error : string,
        req_method req <> "OPTIONS" -> request_codes req = inl error ->
        resp = mkResponse 500 (Failure error) /\ w' = w)
  /\ (forall codes : list string,
        req_method req <> "OPTIONS" -> request_codes req = inr codes -> codes <> [] ->
        match compose_passport_stamps codes w with
        | (Return res, w1) =>
            resp = mkResponse 200 (Success res) /\ w' = w1
            /\ placed res <> []
            /\ exists canvas : Image,
                 uploads w' = uploads w ++ [(output_path (filename res), canvas)]
                 /\ mode canvas = RGBA
                 /\ size canvas = (CANVAS_WIDTH, CANVAS_HEIGHT)
        | (Raise e, w1) =>
            resp = mkResponse 500 (Failure (exn_message e)) /\ w' = w1
            /\ uploads w' = uploads w
        end)
  /\ (status resp = 204 \/ status resp = 400 \/ status resp = 500 \/ status resp = 200)
  /\ (status resp <> 200 -> uploads w' = uploads w).
Proof.
  cbv zeta. unfold compose_passport_stamps_http, request_codes.
  destruct (String.eqb_spec (req_method req) "OPTIONS") as [E | NE].
  { cbn [fst snd status payload].
    split; [split; auto |]. split; [auto |].
    split; [split; [discriminate | intros [Hm _]; contradiction] |].
    split; [discriminate |].
    split; [split; [discriminate | intros [Hm _]; contradiction] |].
    split; [intros error Hm; contradiction |].
    split; [intros codes Hm; contradiction |].
    split; [auto | reflexivity]. }
  destruct (codes_of_body req) as [error | body_codes].
  { cbn [fst snd status payload].
    split; [split; [discriminate | intro Hm; contradiction] |].
    split; [discriminate |].
    split; [split; [discriminate | intros [_ Hc]; discriminate] |].
    split; [discriminate |].
    split; [split; [discriminate | intros (_ & codes & res & w1 & Hc & _); discriminate] |].
    split; [intros error' _ Hc; injection Hc as <-; auto |].
    split; [intros codes _ Hc; discriminate |].
    split; [auto | reflexivity]. }
  set (codes :=
         match body_codes with
         | [] =>
             match lookup (req_args req) "codes" with
             | Some param => if truthy param then codes_of_param param else []
             | None => []
             end
         | _ :: _ => body_codes
         end).
  assert (Hrc : match body_codes with
                | [] =>
                    inr match lookup (req_args req) "codes" with
                        | Some param => if truthy param then codes_of_param param else []
                        | None => []
                        end
                | _ :: _ => inr body_codes
                end = (inr codes : string + list string)).
  { subst codes. destruct body_codes; reflexivity. }
  rewrite Hrc. clearbody codes. clear Hrc body_codes.
  destruct codes as [| c0 cs].
  { cbn [fst snd status payload].
    split; [split; [discriminate | intro Hm; contradiction] |].
    split; [discriminate |].
    split; [split; auto |].
    split; [auto |].
    split; [split; [discriminate
                   | intros (_ & codes & res & w1 & Hc & Hne & _); injection Hc as <-;
                     contradiction] |].
    split; [intros error _ Hc; discriminate |].
    split; [intros codes _ Hc Hne; injection Hc as <-; contradiction |].
    split; [auto | reflexivity]. }
  pose proof (compose_persists_once (c0 :: cs) w) as Hp.
  destruct (compose_passport_stamps (c0 :: cs) w) as [[res | e] w1] eqn:Hrun;
    cbn [fst snd status payload].
  - destruct (compose_returned _ _ _ _ Hrun)
      as (st & w2 & b & Hloop & _ & _ & _ & Hne & _ & Hup).
    destruct (stamp_loop_returned _ _ _ _ _ Hloop) as (_ & _ & _ & Hm & Hs & _).
    split; [split; [discriminate | intro Hm'; contradiction] |].
    split; [discriminate |].
    split; [split; [discriminate | intros [_ Hc]; discriminate] |].
    split; [discriminate |].
    split.
    { split; [intros _ | reflexivity]. split; [exact NE |].
      exists (c0 :: cs), res, w1. repeat split; [discriminate | exact Hrun]. }
    split; [intros error _ Hc; discriminate |].
    split.
    { intros codes _ Hc _. injection Hc as <-. rewrite Hrun.
      split; [reflexivity |]. split; [reflexivity |]. split; [exact Hne |].
      exists (st_canvas st). repeat split; assumption. }
    split; [auto |]. intro Hn. contradiction.
  - split; [split; [discriminate | intro Hm'; contradiction] |].
    split; [discriminate |].
    split; [split; [discriminate | intros [_ Hc]; discriminate] |].
    split; [discriminate |].
    split.
    { split; [discriminate |].
      intros (_ & codes & res & w2 & Hc & _ & Hrun'). injection Hc as <-.
      rewrite Hrun in Hrun'. discriminate. }
    split; [intros error _ Hc; discriminate |].
    split.
    { intros codes _ Hc _. injection Hc as <-. rewrite Hrun.
      split; [reflexivity |]. split; [reflexivity |]. exact Hp. }
    split; [auto |]. intros _. exact Hp.
Qed.

(** X24. A JSON body that is a non-empty list (or any other true value
    that is no object) is answered 500, with the message of the attribute
    error, whatever codes the query string holds; and a body whose [codes]
    is a non-empty list makes the handler ignore the query string. *)
Theorem handler_reads_body_first (method : string) (args args' : list (string * string))
  (w : World) :
  method <> "OPTIONS" ->
  (forall (item : Json) (items : list Json),
      compose_passport_stamps_http
        (mkRequest method true (Some (JArray (item :: items))) args) w
      = (mkResponse 500 (Failure "'list' object has no attribute 'get'"), w))
  /\ (forall (members : list (string * Json)) (item : Json) (items : list Json),
        lookup members "codes" = Some (JArray (item :: items)) ->
        compose_passport_stamps_http (mkRequest method true (Some (JObject members)) args) w
        = compose_passport_stamps_http
            (mkRequest method true (Some (JObject members)) args') w)
  /\ (forall body : option Json,
        compose_passport_stamps_http (mkRequest method false body args) w
        = compose_passport_stamps_http (mkRequest method false None args) w).
Proof.
  intro Hm. apply String.eqb_neq in Hm.
  split; [| split].
  - intros item items. unfold compose_passport_stamps_http.
    cbn [req_method]. rewrite Hm. reflexivity.
  - intros members item items Hl. unfold compose_passport_stamps_http, codes_of_body.
    cbn [req_method req_is_json req_json req_args]. rewrite Hm.
    destruct members as [| m ms]; [discriminate |].
    cbn [json_truthy]. rewrite Hl. reflexivity.
  - intro body. unfold compose_passport_stamps_http, codes_of_body.
    cbn [req_method req_is_json req_json req_args]. reflexivity.
Qed.

(** *** Failing tiles: the service and the command line *)

Lemma load_tiles_raises (tile_height : Z) (fit_mode : string) (e : exn)
  (c : string) (post : list string) :
  _load_flag_tile_from_gcs c tile_height fit_mode = Raise e ->
  forall (pre : list string) (miss : list string) (tiles : list (string * Image)),
    (forall c', In c' pre ->
                exists r, _load_flag_tile_from_gcs c' tile_height fit_mode = Return r) ->
    load_tiles (pre ++ c :: post) tile_height fit_mode miss tiles = Raise e.
Proof.
  intros Hc. induction pre as [| c' pre IH]; intros miss tiles Hpre.
  - cbn [app load_tiles]. rewrite Hc. reflexivity.
  - cbn [app load_tiles]. destruct (Hpre c' (or_introl eq_refl)) as [r ->]. cbn [bind].
    destruct r; apply IH; intros c'' H; apply Hpre; right; exact H.
Qed.

(** X16. In the service one tile that cannot be built fails the whole
    grid: the run ends with the error of the first code whose lookup
    raises, whatever the other codes resolve to, and the world is left as
    it was. *)
Theorem grid_first_failure_aborts (codes pre post : list string) (c : string) (e : exn)
  (cols gap tile_height : Z) (bg fit_mode : string) (w : World) :
  flag_codes codes = pre ++ c :: post ->
  (forall c', In c' pre ->
              exists r, _load_flag_tile_from_gcs c' tile_height fit_mode = Return r) ->
  _load_flag_tile_from_gcs c tile_height fit_mode = Raise e ->
  build_flag_grid codes cols gap tile_height bg fit_mode w = (Raise e, w).
Proof.
  intros Hcodes Hpre Hc. unfold build_flag_grid. rewrite Hcodes.
  destruct (pre ++ c :: post) as [| c0 cs] eqn:E.
  { destruct pre; discriminate. }
  rewrite <- E. unfold mbind at 1. unfold lift.
  rewrite (load_tiles_raises _ _ _ _ _ Hc pre [] [] Hpre). reflexivity.
Qed.

Lemma cli_load_tiles_returned (src_root : string) (tile_height : Z) (fit_mode : string)
  (codes : list string) :
  forall (miss : list string) (tiles : list (string * Image)),
    let r := cli_load_tiles codes src_root tile_height fit_mode miss tiles in
    map fst (snd r)
    = map fst tiles ++ filter (cli_resolves src_root tile_height fit_mode) codes
    /\ List.length (fst r)
       = (List.length miss
          + List.length (filter (fun c => negb (cli_resolves src_root tile_height fit_mode c))
                           codes))%nat
    /\ (Forall (fun t => size (snd t) = (2 * tile_height, tile_height)) tiles ->
        Forall (fun t => size (snd t) = (2 * tile_height, tile_height)) (snd r)).
Proof.
  induction codes as [| code rest IH]; intros miss tiles.
  - cbn [cli_load_tiles filter fst snd]. rewrite app_nil_r, Nat.add_0_r. auto.
  - cbn [cli_load_tiles filter]. cbv zeta.
    pose proof (eq_refl (cli_resolves src_root tile_height fit_mode code)) as Hres.
    unfold cli_resolves at 2 in Hres.
    destruct (files _) as [img_file |].
    + destruct (make_uniform_tile img_file tile_height (2 # 1) fit_mode)
        as [tile | e] eqn:Ht; rewrite Hres; clear Hres; cbn [negb].
      * specialize (IH miss (tiles ++ [(code, tile)])). cbv zeta in *.
        destruct IH as (Hp & Hm & Hall).
        rewrite map_app, <- app_assoc in Hp. cbn [map app fst] in Hp.
        repeat split; try assumption.
        intro Htiles. apply Hall, Forall_app. split; [exact Htiles |].
        constructor; [| constructor]. cbn [snd].
        rewrite make_uniform_tile_as_bytes in Ht.
        exact (proj2 (tile_returned_frame _ _ _ _ Ht)).
      * specialize (IH (miss ++ [(code ++ " (error: " ++ exn_message e ++ ")")%string])
                      tiles).
        cbv zeta in *. destruct IH as (Hp & Hm & Hall).
        rewrite length_app in Hm. cbn [List.length] in *.
        repeat split; try assumption. lia.
    + rewrite Hres; clear Hres.
      cbn [negb]. specialize (IH (miss ++ [code]) tiles). cbv zeta in *.
      destruct IH as (Hp & Hm & Hall).
      rewrite length_app in Hm. cbn [List.length] in *.
      repeat split; try assumption. lia.
Qed.

Lemma cli_tile_height_nonneg (img_file : list Byte.byte) (box_h : Z)
  (fit_mode : string) (tile : Image) :
  make_uniform_tile img_file box_h (2 # 1) fit_mode = Return tile -> 0 <= box_h.
Proof.
  unfold make_uniform_tile. rewrite round_double.
  destruct (open_rgba img_file) as [img | e]; [| discriminate]. cbn [bind].
  destruct (truediv (2 * box_h) (width img)) as [sx | e];
    [| destruct (String.eqb fit_mode "pad"); discriminate].
  destruct (truediv box_h (height img)) as [sy | e];
    [| destruct (String.eqb fit_mode "pad"); discriminate].
  cbn [bind].
  destruct (String.eqb fit_mode "pad").
  - destruct (resize img _ LANCZOS) as [img' | e]; [| discriminate]. cbn [bind].
    destruct (new RGBA (2 * box_h, box_h) (0, 0, 0, 0)) as [blank | e] eqn:Hnew;
      [| discriminate].
    apply new_returned in Hnew as (_ & _ & _ & _ & Hh & _). intros _. exact Hh.
  - destruct (resize img _ LANCZOS) as [img' | e]; [| discriminate]. cbn [bind].
    intro H. apply crop_returned in H as (_ & _ & _ & _ & Hy). lia.
Qed.

Lemma cli_load_tiles_nonneg (src_root : string) (tile_height : Z) (fit_mode : string)
  (codes : list string) :
  forall (miss : list string) (tiles : list (string * Image)),
    (tiles <> [] -> 0 <= tile_height) ->
    snd (cli_load_tiles codes src_root tile_height fit_mode miss tiles) <> [] ->
    0 <= tile_height.
Proof.
  induction codes as [| code rest IH]; intros miss tiles Hinv; [exact Hinv |].
  cbn [cli_load_tiles]. cbv zeta.
  destruct (files _) as [img_file |]; [| apply IH; exact Hinv].
  destruct (make_uniform_tile img_file tile_height (2 # 1) fit_mode) as [tile | e] eqn:Ht;
    [| apply IH; exact Hinv].
  apply IH. intros _. exact (cli_tile_height_nonneg _ _ _ _ Ht).
Qed.

(** X25. How the command-line program ends.  Without any code left after
    normalization it exits with status 1; with codes of which none has a
    file from which a tile can be built it exits with status 2, and with
    that status in no other case: a tile that cannot be built only makes
    its code missing.  Once a tile is built, the run goes on to the canvas
    the geometry gives for the built tiles; it dies of an exception that
    nothing catches, which also gives the status 1, when the background
    colour cannot be read or when the canvas has no pixels, and otherwise
    it ends normally.  It has written a file exactly when it ends
    normally, and then one file, of the size of the canvas. *)
Theorem cli_main_ends (args : Args) :
  let run := cli_main args in
  let codes := flag_codes (arg_codes args) in
  let th := arg_tile_height args in
  let built := filter (cli_resolves (arg_src_root args) th (arg_fit_mode args)) codes in
  let out_path := ("/tmp/flags_grid_" ++ now_stamp ++ ".png")%string in
  (codes = [] -> cli_end run = Exited 1 /\ cli_writes run = [])
  /\ (codes <> [] -> built = [] -> cli_end run = Exited 2 /\ cli_writes run = [])
  /\ (built <> [] ->
      exists (tiles : list (string * Image)) (geo : Geometry),
        map fst tiles = built
        /\ Forall (fun t => size (snd t) = (2 * th, th)) tiles
        /\ grid_geometry tiles (arg_cols args) (arg_gap args) = Return geo
        /\ 0 <= canvas_w geo /\ 0 <= canvas_h geo
        /\ match hex_to_rgba (arg_bg args) with
           | Raise e => cli_end run = Uncaught e /\ cli_writes run = []
           | Return bg_rgba =>
               if (canvas_w geo =? 0) || (canvas_h geo =? 0)
               then (exists e, cli_end run = Uncaught e) /\ cli_writes run = []
               else cli_end run = Printed out_path
                    /\ exists saved : Image,
                         cli_writes run = [(out_path, saved)]
                         /\ size saved = (canvas_w geo, canvas_h geo)
                         /\ mode saved = match bg_rgba with None => RGBA | Some _ => RGB end
           end)
  /\ (exit_status (cli_end run) = 2 <-> codes <> [] /\ built = [])
  /\ (exit_status (cli_end run) = 0 <->
      exists saved : Image, cli_writes run = [(out_path, saved)])
  /\ (exit_status (cli_end run) <> 0 <-> cli_writes run = []).
Proof.
  cbv zeta. unfold cli_main.
  destruct (flag_codes (arg_codes args)) as [| c0 cs].
  { cbn [filter cli_end cli_writes exit_status].
    split; [auto |]. split; [intro Hb; contradiction |].
    split; [intro Hb; contradiction |].
    split; [split; [discriminate | intros [Hb _]; contradiction] |].
    split; [split; [discriminate | intros [s0 Hs0]; discriminate] |].
    split; [reflexivity | discriminate]. }
  pose proof (cli_load_tiles_returned (arg_src_root args) (arg_tile_height args)
                (arg_fit_mode args) (c0 :: cs) [] []) as Hload.
  pose proof (cli_load_tiles_nonneg (arg_src_root args) (arg_tile_height args)
                (arg_fit_mode args) (c0 :: cs) [] [] ltac:(intro Hb; contradiction))
    as Hth.
  cbv zeta in Hload. cbn [map app] in Hload.
  remember (filter (cli_resolves (arg_src_root args) (arg_tile_height args)
                      (arg_fit_mode args)) (c0 :: cs)) as built eqn:Ebuilt.
  clear Ebuilt.
  destruct (cli_load_tiles (c0 :: cs) _ _ _ [] []) as [missing tiles].
  cbn [fst snd] in Hload, Hth. destruct Hload as (Hfst & _ & Hall).
  specialize (Hall (Forall_nil _)).
  destruct tiles as [| t ts].
  { cbn [map] in Hfst. subst built. cbn [cli_end cli_writes exit_status].
    split; [discriminate |]. split; [auto |].
    split; [intro Hb; contradiction |].
    split; [split; [intros _; split; [discriminate | reflexivity] | reflexivity] |].
    split; [split; [discriminate | intros [s0 Hs0]; discriminate] |].
    split; [reflexivity | discriminate]. }
  assert (Hbuilt : built <> []) by (rewrite <- Hfst; discriminate).
  specialize (Hth ltac:(discriminate)).
  destruct t as [code first].
  assert (Hfirst : width first = 2 * arg_tile_height args
                   /\ height first = arg_tile_height args).
  { inversion Hall as [| ? ? Hs _]; subst. cbn [snd] in Hs. unfold size in Hs.
    injection Hs as -> ->. split; reflexivity. }
  destruct Hfirst as [Hfw Hfh].
  pose proof (grid_geometry_cons code first ts (arg_cols args) (arg_gap args)) as Hgeo.
  cbv zeta in Hgeo. rewrite Hgeo.
  set (n := Z.of_nat (List.length ((code, first) :: ts))) in *.
  set (c := Z.max 1 (Z.min (arg_cols args) n)) in *.
  set (r := ceil (inject_Z n / inject_Z c)) in *.
  set (g := Z.max 0 (arg_gap args)) in *.
  set (geo := mkGeometry _ _ _ _ _ _ _) in *.
  assert (Hn : 1 <= n) by (subst n; cbn [List.length]; lia).
  assert (Hc : 1 <= c) by (subst c; lia).
  assert (Hr : 1 <= r).
  { pose proof (ceil_truediv_bounds n c ltac:(lia)) as Hb. cbv zeta in Hb. fold r in Hb.
    nia. }
  assert (Hcw : 0 <= canvas_w geo) by (subst geo g; cbn [canvas_w]; nia).
  assert (Hch : 0 <= canvas_h geo) by (subst geo g; cbn [canvas_h]; nia).
  split; [discriminate |]. split; [intros _ Hb; contradiction |].
  destruct (hex_to_rgba (arg_bg args)) as [bg_rgba | e].
  2: { cbn [cli_end cli_writes exit_status].
       split.
       { intros _. exists ((code, first) :: ts), geo.
         repeat split; try assumption; reflexivity. }
       split; [split; [discriminate | intros [_ Hb]; contradiction] |].
       split; [split; [discriminate | intros [s0 Hs0]; discriminate] |].
       split; [reflexivity | discriminate]. }
  unfold blank_canvas, new.
  destruct (Z.ltb_spec (canvas_w geo) 0); [lia |].
  destruct (Z.ltb_spec (canvas_h geo) 0); [lia |]. cbn [orb].
  set (canvas := paste_tiles geo 0 ((code, first) :: ts) _).
  assert (Hsz : size canvas = (canvas_w geo, canvas_h geo)).
  { subst canvas. rewrite (proj2 (paste_tiles_frame geo _ 0 _)). reflexivity. }
  assert (Hmd : mode canvas = RGBA).
  { subst canvas. rewrite (proj1 (paste_tiles_frame geo _ 0 _)). reflexivity. }
  set (saved := match bg_rgba with None => canvas | Some _ => convert RGB canvas end).
  assert (Hsaved : size saved = (canvas_w geo, canvas_h geo)
                   /\ mode saved = match bg_rgba with None => RGBA | Some _ => RGB end).
  { subst saved. destruct bg_rgba; split; try assumption; reflexivity. }
  destruct Hsaved as [Hss Hsm].
  assert (Hsw : width saved = canvas_w geo) by (unfold size in Hss; congruence).
  assert (Hsh : height saved = canvas_h geo) by (unfold size in Hss; congruence).
  unfold save_png. rewrite Hsw, Hsh. clearbody saved canvas geo.
  destruct ((canvas_w geo =? 0) || (canvas_h geo =? 0)) eqn:Hempty;
    cbn [cli_end cli_writes exit_status].
  - split.
    { intros _. exists ((code, first) :: ts), geo.
      split; [exact Hfst |]. split; [exact Hall |]. split; [exact Hgeo |].
      split; [exact Hcw |]. split; [exact Hch |].
      rewrite Hempty. split; [eauto | reflexivity]. }
    split; [split; [discriminate | intros [_ Hb]; contradiction] |].
    split; [split; [discriminate | intros [s0 Hs0]; discriminate] |].
    split; [reflexivity | discriminate].
  - split.
    { intros _. exists ((code, first) :: ts), geo.
      split; [exact Hfst |]. split; [exact Hall |]. split; [exact Hgeo |].
      split; [exact Hcw |]. split; [exact Hch |].
      rewrite Hempty. split; [reflexivity |].
      exists saved. split; [reflexivity |]. split; [exact Hss | exact Hsm]. }
    split; [split; [discriminate | intros [_ Hb]; contradiction] |].
    split; [split; [intros _; exists saved; reflexivity | reflexivity] |].
    split; [intro Hb; contradiction | discriminate].
Qed.

(** *** What the stamps leave untouched *)

Lemma stamp_loop_keeps_boxes (codes : list string) :
  forall (st st' : stamp_state) (w w' : World),
    stamp_loop codes st w = (Return st', w') ->
    forall b, In b (st_placed_boxes st) -> In b (st_placed_boxes st').
Proof.
  induction codes as [| code rest IH]; intros st st' w w' H b Hb.
  - cbn [stamp_loop] in H. injection H as <- <-. exact Hb.
  - cbn [stamp_loop] in H. unfold mbind at 1 in H. unfold lift in H.
    destruct (_load_stamp_from_gcs code) as [[stamp |] | e]; [| | discriminate].
    + unfold mbind at 1 in H.
      destruct (random_transform_returns stamp w) as (t & g & Ht). rewrite Ht in H.
      unfold mbind at 1 in H. rewrite draw_run in H.
      destruct (fst (_choose_position _ _ _ _)) as [x y].
      apply (IH _ _ _ _ H). cbn [st_placed_boxes]. apply in_or_app. left. exact Hb.
    + apply (IH _ _ _ _ H). exact Hb.
Qed.

Lemma stamp_loop_untouched (codes : list string) :
  forall (st st' : stamp_state) (w w' : World),
    stamp_loop codes st w = (Return st', w') ->
    forall px py : Z,
      (forall b, In b (st_placed_boxes st') -> ~ inside b px py) ->
      getpixel (st_canvas st') px py = getpixel (st_canvas st) px py.
Proof.
  induction codes as [| code rest IH]; intros st st' w w' H px py Hout.
  - cbn [stamp_loop] in H. injection H as <- <-. reflexivity.
  - cbn [stamp_loop] in H. unfold mbind at 1 in H. unfold lift in H.
    destruct (_load_stamp_from_gcs code) as [[stamp |] | e]; [| | discriminate].
    + unfold mbind at 1 in H.
      destruct (random_transform_returns stamp w) as (t & g & Ht). rewrite Ht in H.
      unfold mbind at 1 in H. rewrite draw_run in H.
      destruct (fst (_choose_position _ _ _ _)) as [x y].
      assert (Hbox : In (x, y, width t, height t) (st_placed_boxes st')).
      { apply (stamp_loop_keeps_boxes _ _ _ _ _ H). cbn [st_placed_boxes].
        apply in_or_app. right. left. reflexivity. }
      rewrite (IH _ _ _ _ H px py Hout). cbn [st_canvas].
      pose proof (Hout _ Hbox) as Hn. unfold inside in Hn.
      unfold alpha_composite. cbn [getpixel].
      destruct (Z.leb_spec 0 (px - x)); cbn [andb]; [| reflexivity].
      destruct (Z.ltb_spec (px - x) (width t)); cbn [andb]; [| reflexivity].
      destruct (Z.leb_spec 0 (py - y)); cbn [andb]; [| reflexivity].
      destruct (Z.ltb_spec (py - y) (height t)); [| reflexivity].
      exfalso. apply Hn. lia.
    + exact (IH _ _ _ _ H px py Hout).
Qed.

(** X6. The collage that is written is transparent wherever no stamp
    was placed.  The canvas uploaded is the canvas of the loop, and the
    boxes are the ones the loop recorded for the stamps it pasted, one per
    placed code, each in the canvas as far as its stamp fits: every pixel
    outside all of these boxes is still the transparent black the canvas
    started with. *)
Theorem compose_touches_only_boxes (codes : list string) (w w' : World)
  (res : CompositionResult) :
  randint_contract ->
  compose_passport_stamps codes w = (Return res, w') ->
  exists (st : stamp_state) (w1 : World),
    stamp_loop (stamp_codes codes) (mkStampState blank_stamp_canvas [] [] []) w
    = (Return st, w1)
    /\ uploads w' = uploads w ++ [(output_path (filename res), st_canvas st)]
    /\ placed res = st_placed st
    /\ List.length (st_placed_boxes st) = List.length (placed res)
    /\ Forall box_in_canvas (st_placed_boxes st)
    /\ forall px py : Z,
         (forall b, In b (st_placed_boxes st) -> ~ inside b px py) ->
         getpixel (st_canvas st) px py = (0, 0, 0, 0).
Proof.
  intros Hr H. destruct (compose_returned _ _ _ _ H)
    as (st & w1 & b & Hloop & _ & Hp & _ & _ & _ & Hup).
  exists st, w1.
  destruct (stamp_loop_returned _ _ _ _ _ Hloop) as (Hp' & _ & Hb & _ & _ & _ & Hin).
  cbn [st_placed st_placed_boxes app List.length Nat.add] in Hp', Hb, Hin.
  split; [exact Hloop |]. split; [exact Hup |]. split; [exact Hp |].
  split; [rewrite Hp, Hp'; exact Hb |].
  split; [exact (Hin Hr (Forall_nil _)) |].
  intros px py Hout. rewrite (stamp_loop_untouched _ _ _ _ _ Hloop px py Hout).
  reflexivity.
Qed.

End Triparific.

(** ** Concrete runs

    The programs in the environment [Demo]: a bucket named [bkt] that holds
    one stamp and one flag, both for the code [au]. *)

Local Notation "'demo_world'" := (mkWorld Demo.Rng 0%nat []).

Local Notation "'demo_choose_position'" := (_choose_position Demo.Rng Demo.randint).

Local Notation "'demo_candidates'" := (candidates Demo.Rng Demo.randint).

Local Notation "'demo_tile'" :=
  (make_uniform_tile_from_bytes Demo.nearest Demo.src_over Demo.decode).

Local Notation "'demo_load_stamp'" :=
  (_load_stamp_from_gcs Demo.nearest Demo.decode (Some "bkt") "passportStamps"
     Demo.bucket).

Local Notation "'demo_load_flag'" :=
  (_load_flag_tile_from_gcs Demo.nearest Demo.src_over Demo.decode (Some "bkt")
     "flags/png1000px" Demo.bucket).

Local Notation "'demo_compose'" :=
  (compose_passport_stamps Demo.Rng Demo.randint Demo.uniform Demo.choices Demo.utcnow
     Demo.nearest Demo.nearest Demo.src_over Demo.rotate Demo.decode (Some "bkt")
     "passportStamps" "tshirt/flags" Demo.bucket).

Local Notation "'demo_grid'" :=
  (build_flag_grid Demo.Rng Demo.choices Demo.utcnow Demo.nearest Demo.src_over
     Demo.decode (Some "bkt") "flags/png1000px" "tshirt/flags" Demo.bucket).

Local Notation "'tile_200x100'" := (mkImage RGBA 200 100 (fun _ _ => (0, 0, 0, 0))).

Local Notation "'image_4x2'" := (mkImage RGB 4 2 (fun _ _ => (200, 0, 0, 255))).

(** *** Placement search *)

(** With the whole canvas already taken, the fifteen candidates all
    overlap; the last one tried is (28, 29), and the position returned is
    (30, 31). *)
Lemma choose_position_not_last_tried :
  let tried := fst (demo_candidates OVERLAP_RETRIES 100 100 0%nat) in
  all_overlap 100 100 [(0, 0, 2000, 2000)] tried
  /\ last_tried tried None = Some (28, 29)
  /\ fst (demo_choose_position 100 100 [(0, 0, 2000, 2000)] 0%nat) = (30, 31)
  /\ Some (fst (demo_choose_position 100 100 [(0, 0, 2000, 2000)] 0%nat))
     <> last_tried tried None.
Proof.
  cbv zeta. split; [| split; [| split]].
  - vm_compute. repeat constructor.
  - reflexivity.
  - reflexivity.
  - vm_compute. discriminate.
Qed.

Lemma choose_position_fallback_witness :
  all_overlap 100 100 [(0, 0, 2000, 2000)]
    (fst (demo_candidates OVERLAP_RETRIES 100 100 0%nat))
  /\ demo_choose_position 100 100 [(0, 0, 2000, 2000)] 0%nat = ((30, 31), 32%nat).
Proof.
  assert (H : all_overlap 100 100 [(0, 0, 2000, 2000)]
                (fst (demo_candidates OVERLAP_RETRIES 100 100 0%nat))).
  { vm_compute. repeat constructor. }
  split; [exact H |].
  exact (choose_position_fallback_is_fresh_draw Demo.Rng Demo.randint
           100 100 [(0, 0, 2000, 2000)] 0%nat H).
Defined.

(** *** Grid geometry *)

(** Three tiles of 200x100 in two columns with a gap of 10: a canvas of
    410 by 210. *)
Lemma grid_geometry_witness :
  let tiles := [("a", tile_200x100); ("b", tile_200x100); ("c", tile_200x100)] in
  1 <= Z.of_nat (List.length tiles)
  /\ exists (geo : Geometry) (first : string * Image),
       grid_geometry tiles 2 10 = Return geo
       /\ hd_error tiles = Some first
       /\ g_cols geo = clamp 2 1 3
       /\ g_rows geo = ceil (inject_Z 3 / inject_Z (g_cols geo))
       /\ (g_rows geo - 1) * g_cols geo < 3 <= g_rows geo * g_cols geo
       /\ (tile_w geo, tile_h geo) = size (snd first)
       /\ g_gap geo = Z.max 0 10
       /\ (0 <= 10 -> g_gap geo = 10)
       /\ canvas_w geo = g_cols geo * tile_w geo + (g_cols geo - 1) * g_gap geo
       /\ canvas_h geo = g_rows geo * tile_h geo + (g_rows geo - 1) * g_gap geo
       /\ (3 = 20 -> 2 = 8 -> g_rows geo = 3 /\ g_cols geo = 8)
       /\ (3 = 3 -> 2 = 8 -> g_cols geo = 3 /\ g_rows geo = 1).
Proof.
  intro tiles.
  assert (H : 1 <= Z.of_nat (List.length tiles)) by (cbn; lia).
  split; [exact H |].
  exact (grid_geometry_spec tiles 2 10 H).
Defined.

Lemma negative_gap_witness :
  -5 < 0
  /\ grid_geometry [("a", tile_200x100); ("b", tile_200x100)] 2 (-5)
     = grid_geometry [("a", tile_200x100); ("b", tile_200x100)] 2 0.
Proof.
  assert (H : -5 < 0) by lia.
  split; [exact H |].
  exact (proj1 (proj2 (negative_gap_is_zero_gap
    Demo.Rng Demo.choices Demo.utcnow Demo.nearest Demo.src_over Demo.decode
    (Some "bkt") "flags/png1000px" "tshirt/flags" Demo.bucket
    ["a"; "b"] [("a", tile_200x100); ("b", tile_200x100)]
    2 (-5) 250 "transparent" "pad" H))).
Defined.

(** *** Tile normalizer *)




(** *** Background colour *)

Lemma hex_short_form_and_transparent_witness :
  0 <= 410
  /\ hex_to_rgba (recase [true; false; true] "transparent") = Return None
  /\ hex_to_rgba "#1a2" = hex_to_rgba "#11aa22"
  /\ hex_to_rgba "#1a2" = Return (Some (17, 170, 34, 255)).
Proof.
  pose proof (hex_short_form_and_transparent [true; false; true] "1" "a" "2"
                (mkGeometry 200 100 2 2 10 410 210)
                ltac:(cbn; lia) ltac:(cbn; lia)) as H.
  split; [lia |].
  split; [exact (proj1 (proj2 (proj2 (proj2 (proj2 H))))) |].
  split; [exact (proj1 (proj2 (proj2 (proj2 H)))) |].
  exact (proj1 (proj2 (proj2 (proj2 (proj2 (proj2 (proj2 (proj2 (proj2 (proj2 H)))))))))
           1 10 2 eq_refl eq_refl eq_refl).
Defined.

(** *** Stamp collage and flag grid *)

Lemma demo_au_resolves (c : string) :
  In c (stamp_codes ["au"; "au"]) -> exists img, demo_load_stamp c = Return (Some img).
Proof.
  cbn. intros [<- | [<- | []]]; eexists; vm_compute; reflexivity.
Qed.

(** A code given twice resolves twice and is placed twice: two entries in
    [placed] for one distinct code. *)
Lemma repeated_code_is_placed_twice :
  stamp_codes ["au"; "au"] <> []
  /\ (forall c, In c (stamp_codes ["au"; "au"]) ->
                exists img, demo_load_stamp c = Return (Some img))
  /\ exists (res : CompositionResult) (w' : World Demo.Rng),
       demo_compose ["au"; "au"] demo_world = (Return res, w')
       /\ missing res = []
       /\ placed res = ["au"; "au"]
       /\ List.length (placed res) = 2%nat
       /\ List.length (nodup string_dec (stamp_codes ["au"; "au"])) = 1%nat
       /\ List.length (placed res)
          <> List.length (nodup string_dec (stamp_codes ["au"; "au"])).
Proof.
  split; [vm_compute; discriminate |].
  split; [exact demo_au_resolves |].
  eexists; eexists. split; [vm_compute; reflexivity |].
  repeat split. vm_compute. discriminate.
Qed.

Lemma all_resolved_all_placed_witness :
  stamp_codes ["AU"; ""; "au"] <> []
  /\ exists (res : CompositionResult) (w' : World Demo.Rng),
       demo_compose ["AU"; ""; "au"] demo_world = (Return res, w')
       /\ missing res = []
       /\ placed res = ["au"; "au"].
Proof.
  assert (Hne : stamp_codes ["AU"; ""; "au"] <> []) by (vm_compute; discriminate).
  split; [exact Hne |].
  destruct (all_resolved_all_placed Demo.Rng Demo.randint Demo.uniform Demo.choices
              Demo.utcnow Demo.nearest Demo.nearest Demo.src_over Demo.rotate Demo.decode
              (Some "bkt") "passportStamps" "tshirt/flags" Demo.bucket
              ["AU"; ""; "au"] demo_world Hne demo_au_resolves)
    as (res & w' & Hrun & Hmissing & Hplaced & _).
  exists res, w'. repeat split; assumption.
Defined.

Lemma demo_zz_stamp_missing (c : string) :
  In c (stamp_codes ["zz"]) -> demo_load_stamp c = Return None.
Proof. cbn. intros [<- | []]. reflexivity. Qed.

Lemma demo_zz_flag_missing (c : string) :
  In c (flag_codes [" ZZ "]) -> demo_load_flag c 250 "pad" = Return None.
Proof. cbn. intros [<- | []]. reflexivity. Qed.

Lemma none_resolved_nothing_persisted_witness :
  stamp_codes ["zz"] <> [] /\ flag_codes [" ZZ "] <> []
  /\ stamp_codes [""] = [] /\ flag_codes [" "] = []
  /\ demo_compose ["zz"] demo_world = (Raise NoAssetsResolved_stamps, demo_world)
  /\ demo_grid [" ZZ "] 8 12 250 "transparent" "pad" demo_world
     = (Raise NoAssetsResolved_flags, demo_world)
  /\ demo_compose [""] demo_world = (Raise InvalidInput, demo_world)
  /\ demo_grid [" "] 8 12 250 "transparent" "pad" demo_world
     = (Raise InvalidInput, demo_world).
Proof.
  assert (Hs : stamp_codes ["zz"] <> []) by (vm_compute; discriminate).
  assert (Hf : flag_codes [" ZZ "] <> []) by (vm_compute; discriminate).
  pose proof (none_resolved_nothing_persisted Demo.Rng Demo.randint Demo.uniform
                Demo.choices Demo.utcnow Demo.nearest Demo.nearest Demo.src_over
                Demo.rotate Demo.decode (Some "bkt") "passportStamps" "flags/png1000px"
                "tshirt/flags" Demo.bucket) as (H1 & H2 & H3 & H4 & _).
  split; [exact Hs |]. split; [exact Hf |].
  split; [reflexivity |]. split; [reflexivity |].
  split; [exact (H1 ["zz"] demo_world Hs demo_zz_stamp_missing) |].
  split; [exact (H2 [" ZZ "] 8 12 250 "transparent" "pad" demo_world Hf
                    demo_zz_flag_missing) |].
  split; [exact (H3 [""] demo_world eq_refl) |].
  exact (H4 [" "] 8 12 250 "transparent" "pad" demo_world eq_refl).
Defined.

(** A list whose only entry is blank: no code of it resolves, and both
    pipelines reject it as having no codes at all, not as having no
    assets. *)
Lemma blank_codes_fail_as_no_codes :
  (forall c, In c [""] -> demo_load_stamp c = Return None)
  /\ (forall c, In c [" "] -> demo_load_flag c 250 "pad" = Return None)
  /\ demo_compose [""] demo_world = (Raise InvalidInput, demo_world)
  /\ demo_grid [" "] 8 12 250 "transparent" "pad" demo_world
     = (Raise InvalidInput, demo_world)
  /\ InvalidInput <> NoAssetsResolved_stamps
  /\ InvalidInput <> NoAssetsResolved_flags
  /\ fst (demo_compose [""] demo_world) <> Raise NoAssetsResolved_stamps
  /\ fst (demo_grid [" "] 8 12 250 "transparent" "pad" demo_world)
     <> Raise NoAssetsResolved_flags.
Proof.
  split; [intros c [<- | []]; reflexivity |].
  split; [intros c [<- | []]; reflexivity |].
  split; [reflexivity |]. split; [reflexivity |].
  repeat split; vm_compute; discriminate.
Qed.

(** ** Concrete runs for the further properties *)

Local Notation "'demo_stamp_loop'" :=
  (stamp_loop Demo.Rng Demo.randint Demo.uniform Demo.nearest Demo.nearest Demo.src_over
     Demo.rotate Demo.decode (Some "bkt") "passportStamps" Demo.bucket).

Local Notation "'demo_blank_state'" :=
  (mkStampState (blank_stamp_canvas) [] [] []).

Local Notation "'no_result'" := (mkResult "" "" [] []).

(** A bucket with one more flag, whose bytes are no image. *)
Local Notation "'broken_bucket'" :=
  (fun path : string =>
     if String.eqb path "flags/png1000px/xx.png" then Some [] else Demo.bucket path).

Lemma run_returned {A W : Type} (r : Outcome A * W) (d : A) :
  (exists a, fst r = Return a) ->
  r = (Return (match fst r with Return a => a | Raise _ => d end), snd r).
Proof. destruct r as [[a | e] w]; cbn; intros [a' H]; [reflexivity | discriminate]. Qed.

Lemma outcome_returned {A : Type} (o : Outcome A) (d : A) :
  (exists a, o = Return a) ->
  o = Return (match o with Return a => a | Raise _ => d end).
Proof. destruct o as [a | e]; intros [a' H]; [reflexivity | discriminate]. Qed.

Lemma demo_randint_contract : randint_contract Demo.Rng Demo.randint.
Proof.
  intros lo hi g Hle. unfold Demo.randint. cbn [fst].
  pose proof (Z.mod_pos_bound (Z.of_nat g) (hi - lo + 1) ltac:(lia)). lia.
Qed.

(** *** Placement *)

Lemma choose_position_first_free_witness :
  find (free_at 100 100 [(0, 0, 5, 5)])
    (fst (demo_candidates OVERLAP_RETRIES 100 100 0%nat)) = Some (4, 5)
  /\ fst (demo_choose_position 100 100 [(0, 0, 5, 5)] 0%nat) = (4, 5).
Proof.
  assert (H : find (free_at 100 100 [(0, 0, 5, 5)])
                (fst (demo_candidates OVERLAP_RETRIES 100 100 0%nat)) = Some (4, 5))
    by reflexivity.
  split; [exact H |].
  exact (proj1 (choose_position_first_free Demo.Rng Demo.randint 100 100
                  [(0, 0, 5, 5)] 0%nat (4, 5) H)).
Defined.

Lemma choose_position_in_canvas_witness :
  randint_contract Demo.Rng Demo.randint
  /\ box_in_canvas
       (fst (fst (demo_choose_position 300 200 [(0, 0, 2000, 2000)] 7%nat)),
        snd (fst (demo_choose_position 300 200 [(0, 0, 2000, 2000)] 7%nat)), 300, 200).
Proof.
  split; [exact demo_randint_contract |].
  exact (proj1 (proj2 (proj2 (choose_position_in_canvas Demo.Rng Demo.randint 300 200
                                [(0, 0, 2000, 2000)] 7%nat demo_randint_contract)))).
Defined.

Lemma demo_loop_returns : exists st, fst (demo_stamp_loop ["au"; "zz"; "au"]
                                            demo_blank_state demo_world) = Return st.
Proof. eexists. vm_compute. reflexivity. Qed.

Lemma stamp_loop_boxes_in_canvas_witness :
  let run := demo_stamp_loop ["au"; "zz"; "au"] demo_blank_state demo_world in
  let st' := match fst run with Return st => st | Raise _ => demo_blank_state end in
  randint_contract Demo.Rng Demo.randint
  /\ run = (Return st', snd run)
  /\ Forall box_in_canvas (st_placed_boxes st')
  /\ List.length (st_placed_boxes st') = List.length (st_placed st').
Proof.
  intros run st'.
  pose proof (run_returned run demo_blank_state demo_loop_returns) as H.
  split; [exact demo_randint_contract |]. split; [exact H |].
  exact (stamp_loop_boxes_in_canvas Demo.Rng Demo.randint Demo.uniform Demo.nearest
           Demo.nearest Demo.src_over Demo.rotate Demo.decode (Some "bkt")
           "passportStamps" Demo.bucket ["au"; "zz"; "au"] demo_blank_state st'
           demo_world (snd run) demo_randint_contract (Forall_nil _) eq_refl H).
Defined.

(** *** Stamp collage *)

Lemma demo_compose_returns :
  exists res, fst (demo_compose ["au"; "zz"] demo_world) = Return res.
Proof. eexists. vm_compute. reflexivity. Qed.

Lemma compose_partitions_codes_witness :
  let run := demo_compose ["au"; "zz"] demo_world in
  let res := match fst run with Return r => r | Raise _ => no_result end in
  run = (Return res, snd run)
  /\ placed res = ["au"] /\ missing res = ["zz"].
Proof.
  intros run res.
  pose proof (run_returned run no_result demo_compose_returns) as H.
  split; [exact H |].
  destruct (compose_partitions_codes _ _ _ _ _ _ _ _ _ _ _ _ _ _ _ _ _ _ H)
    as (Hp & Hm & _).
  split; (etransitivity; [eassumption | vm_compute; reflexivity]).
Defined.

Lemma compose_writes_full_canvas_witness :
  let run := demo_compose ["au"; "zz"] demo_world in
  let res := match fst run with Return r => r | Raise _ => no_result end in
  run = (Return res, snd run)
  /\ exists canvas : Image,
       uploads Demo.Rng (snd run)
       = [(output_path "tshirt/flags" (filename res), canvas)]
       /\ size canvas = (2000, 2000).
Proof.
  intros run res.
  pose proof (run_returned run no_result demo_compose_returns) as H.
  split; [exact H |].
  destruct (compose_writes_full_canvas _ _ _ _ _ _ _ _ _ _ _ _ _ _ _ _ _ _ H)
    as (canvas & b & Hup & _ & Hs & _).
  exists canvas. split; [exact Hup | exact Hs].
Defined.

Lemma compose_touches_only_boxes_witness :
  let run := demo_compose ["au"; "zz"] demo_world in
  let res := match fst run with Return r => r | Raise _ => no_result end in
  randint_contract Demo.Rng Demo.randint
  /\ run = (Return res, snd run)
  /\ exists (st : stamp_state) (w1 : World Demo.Rng),
       demo_stamp_loop (stamp_codes ["au"; "zz"]) demo_blank_state demo_world
       = (Return st, w1)
       /\ uploads Demo.Rng (snd run)
          = [(output_path "tshirt/flags" (filename res), st_canvas st)]
       /\ List.length (st_placed_boxes st) = List.length (placed res)
       /\ forall px py : Z,
            (forall b, In b (st_placed_boxes st) -> ~ inside b px py) ->
            getpixel (st_canvas st) px py = (0, 0, 0, 0).
Proof.
  intros run res.
  pose proof (run_returned run no_result demo_compose_returns) as H.
  split; [exact demo_randint_contract |]. split; [exact H |].
  destruct (compose_touches_only_boxes _ _ _ _ _ _ _ _ _ _ _ _ _ _ _ _ _ _
              demo_randint_contract H)
    as (st & w1 & Hloop & Hup & _ & Hlen & _ & Hpix).
  exists st, w1. split; [exact Hloop |]. split; [exact Hup |].
  split; [exact Hlen | exact Hpix].
Defined.

Lemma unconfigured_bucket_fails_witness :
  stamp_codes ["au"] <> [] /\ flag_codes ["au"] <> []
  /\ compose_passport_stamps Demo.Rng Demo.randint Demo.uniform Demo.choices Demo.utcnow
       Demo.nearest Demo.nearest Demo.src_over Demo.rotate Demo.decode None
       "passportStamps" "tshirt/flags" Demo.bucket ["au"] demo_world
     = (Raise (RuntimeError "STAMP_BUCKET env var not set"), demo_world).
Proof.
  assert (Hs : stamp_codes ["au"] <> []) by (vm_compute; discriminate).
  assert (Hf : flag_codes ["au"] <> []) by (vm_compute; discriminate).
  split; [exact Hs |]. split; [exact Hf |].
  exact (proj1 (unconfigured_bucket_fails Demo.Rng Demo.randint Demo.uniform Demo.choices
                  Demo.utcnow Demo.nearest Demo.nearest Demo.src_over Demo.rotate
                  Demo.decode None "passportStamps" "flags/png1000px" "tshirt/flags"
                  Demo.bucket ["au"] ["au"] 8 12 250 "transparent" "pad" demo_world
                  (or_introl eq_refl) Hs Hf)).
Defined.

(** *** Rounding to the nearest double

    [Demo.nearest_double] meets the contract of float rounding. *)

Lemma pow2_pos (e : Z) : 0 <= e -> (0 < inject_Z (2 ^ e))%Q.
Proof.
  intro H. change 0%Q with (inject_Z 0). rewrite <- Zlt_Qlt.
  apply Z.pow_pos_nonneg; lia.
Qed.

(** The significand [z / 2^e] lies below 2^53, and at or above 2^52 as soon
    as [z] does. *)
Lemma significand_range (z : Q) :
  (0 <= z)%Q ->
  let e := Z.max 0 (Z.log2 (Qfloor z) - 52) in
  (z / inject_Z (2 ^ e) < inject_Z (2 ^ 53))%Q
  /\ ((inject_Z (2 ^ 52) <= z)%Q ->
      e = Z.log2 (Qfloor z) - 52 /\ (inject_Z (2 ^ 52) <= z / inject_Z (2 ^ e))%Q).
Proof.
  intros Hz e.
  pose proof (Qfloor_le z) as Hf. pose proof (Qlt_floor z) as Hc.
  set (N := Qfloor z) in *.
  assert (HN : 0 <= N).
  { apply Z.lt_succ_r. rewrite Zlt_Qlt. unfold Z.succ.
    change (inject_Z 0) with 0%Q. lra. }
  assert (He : 0 <= e) by (subst e; lia).
  pose proof (pow2_pos e He) as Pe.
  assert (Hup : N + 1 <= 2 ^ (e + 53)).
  { destruct (Z.eq_dec N 0) as [-> | NZ].
    - assert (0 < 2 ^ (e + 53)) by (apply Z.pow_pos_nonneg; lia). lia.
    - pose proof (Z.log2_spec N ltac:(lia)) as [_ Hs].
      assert (2 ^ Z.succ (Z.log2 N) <= 2 ^ (e + 53)).
      { apply Z.pow_le_mono_r; [lia |]. subst e. lia. }
      lia. }
  split.
  - apply Qlt_shift_div_r; [exact Pe |].
    rewrite <- inject_Z_mult, <- Z.pow_add_r by lia.
    apply Qlt_le_trans with (y := inject_Z (N + 1)); [exact Hc |].
    rewrite <- Zle_Qle. replace (53 + e) with (e + 53) by lia. exact Hup.
  - intro Hbig.
    assert (HN52 : 2 ^ 52 <= N).
    { apply Qfloor_resp_le in Hbig. rewrite Qfloor_Z in Hbig. exact Hbig. }
    assert (HNpos : 0 < N).
    { assert (0 < 2 ^ 52) by (apply Z.pow_pos_nonneg; lia). lia. }
    assert (HL : 52 <= Z.log2 N).
    { apply Z.log2_le_pow2; [exact HNpos | exact HN52]. }
    assert (Ee : e = Z.log2 N - 52) by (subst e; lia).
    split; [exact Ee |].
    apply Qle_shift_div_l; [exact Pe |].
    rewrite <- inject_Z_mult, <- Z.pow_add_r by lia.
    apply Qle_trans with (y := inject_Z N); [| exact Hf].
    rewrite <- Zle_Qle. replace (52 + e) with (Z.log2 N) by lia.
    apply (Z.log2_spec N HNpos).
Qed.

Lemma floor_nonneg (z : Q) : (0 <= z)%Q -> 0 <= Qfloor z.
Proof.
  intro Hz. apply Qfloor_resp_le in Hz. exact Hz.
Qed.

Lemma nearest_double_mono (x y : Q) :
  (0 <= x)%Q -> (x <= y)%Q -> (Demo.nearest_double x <= Demo.nearest_double y)%Q.
Proof.
  intros Hx Hxy. unfold Demo.nearest_double.
  pose proof (pow2_pos 1074 ltac:(lia)) as HK.
  set (K := inject_Z (2 ^ 1074)) in *.
  set (zx := (x * K)%Q). set (zy := (y * K)%Q).
  assert (Hzx : (0 <= zx)%Q) by (subst zx; apply Qmult_le_0_compat; lra).
  assert (Hzz : (zx <= zy)%Q) by (subst zx zy; apply Qmult_le_compat_r; lra).
  assert (Hzy : (0 <= zy)%Q) by lra.
  destruct (significand_range zx Hzx) as [Ux _].
  destruct (significand_range zy Hzy) as [_ Ly].
  pose proof (floor_nonneg zx Hzx) as Nx.
  pose proof (Qfloor_resp_le _ _ Hzz) as Nxy.
  pose proof (Z.log2_le_mono _ _ Nxy) as Lxy.
  set (ex := Z.max 0 (Z.log2 (Qfloor zx) - 52)) in *.
  set (ey := Z.max 0 (Z.log2 (Qfloor zy) - 52)) in *.
  assert (Hex : 0 <= ex) by (subst ex; lia).
  assert (Hexy : ex <= ey) by (subst ex ey; lia).
  set (mx := round (zx / inject_Z (2 ^ ex))).
  set (my := round (zy / inject_Z (2 ^ ey))).
  unfold Qdiv. apply Qmult_le_compat_r; [| apply Qinv_le_0_compat; lra].
  rewrite <- Zle_Qle.
  assert (Px : 0 < 2 ^ ex) by (apply Z.pow_pos_nonneg; lia).
  destruct (Z.eq_dec ex ey) as [E | NE].
  - subst my. rewrite <- E. apply Z.mul_le_mono_nonneg_r; [lia |].
    apply round_mono.
    unfold Qdiv. apply Qmult_le_compat_r; [exact Hzz |].
    apply Qinv_le_0_compat. pose proof (pow2_pos ex Hex). lra.
  - assert (Hlt : ex + 1 <= ey) by lia.
    assert (Hmx : mx <= 2 ^ 53) by (apply round_below; lra).
    assert (HLy : 53 <= Z.log2 (Qfloor zy)) by (subst ey; lia).
    assert (HNy : 0 < Qfloor zy).
    { destruct (Z.lt_trichotomy 0 (Qfloor zy)) as [H | [H | H]]; [exact H | |].
      - rewrite <- H in HLy. cbn in HLy. lia.
      - rewrite (Z.log2_nonpos (Qfloor zy)) in HLy by lia. lia. }
    assert (Hbig : (inject_Z (2 ^ 52) <= zy)%Q).
    { apply Qle_trans with (y := inject_Z (Qfloor zy)); [| apply Qfloor_le].
      rewrite <- Zle_Qle. pose proof (Z.log2_spec _ HNy) as [Hs _].
      apply Z.le_trans with (m := 2 ^ Z.log2 (Qfloor zy)); [| exact Hs].
      apply Z.pow_le_mono_r; lia. }
    destruct (Ly Hbig) as [_ Hty].
    assert (Hmy : 2 ^ 52 <= my) by (apply round_above; lra).
    assert (Hp : 2 ^ (ex + 1) <= 2 ^ ey) by (apply Z.pow_le_mono_r; lia).
    rewrite Z.pow_add_r in Hp by lia. change (2 ^ 1) with 2 in Hp.
    change (2 ^ 53) with (2 * 2 ^ 52) in Hmx.
    assert (P52 : 0 < 2 ^ 52) by (apply Z.pow_pos_nonneg; lia).
    clearbody mx my.
    set (a := 2 ^ 52) in *. set (px := 2 ^ ex) in *. set (py := 2 ^ ey) in *.
    apply Z.le_trans with (m := 2 * a * px); [nia |].
    apply Z.le_trans with (m := a * py); nia.
Qed.

Lemma nearest_double_exact (n : Z) :
  0 <= n <= 2 ^ 53 -> (Demo.nearest_double (inject_Z n) == inject_Z n)%Q.
Proof.
  intro Hn. unfold Demo.nearest_double.
  pose proof (pow2_pos 1074 ltac:(lia)) as HK.
  assert (Ez : (inject_Z n * inject_Z (2 ^ 1074) == inject_Z (n * 2 ^ 1074))%Q).
  { rewrite inject_Z_mult. reflexivity. }
  rewrite (Qfloor_comp _ _ Ez), Qfloor_Z.
  set (e := Z.max 0 (Z.log2 (n * 2 ^ 1074) - 52)).
  assert (He : 0 <= e) by (subst e; lia).
  assert (HM : exists M : Z, n * 2 ^ 1074 = M * 2 ^ e).
  { destruct (Z.eq_dec n 0) as [-> | NZ]; [exists 0; reflexivity |].
    assert (Hlog : Z.log2 (n * 2 ^ 1074) = 1074 + Z.log2 n)
      by (apply Z.log2_mul_pow2; lia).
    assert (Hl53 : Z.log2 n <= 53).
    { rewrite <- (Z.log2_pow2 53) by lia. apply Z.log2_le_mono. lia. }
    pose proof (Z.log2_nonneg n) as Hl0.
    destruct (Z.le_gt_cases (Z.log2 n) 52) as [Hs | Hs].
    - exists (n * 2 ^ (1074 - e)). rewrite <- Z.mul_assoc, <- Z.pow_add_r by (subst e; lia).
      replace (1074 - e + e) with 1074 by lia. reflexivity.
    - assert (El : Z.log2 n = 53) by lia.
      pose proof (Z.log2_spec n ltac:(lia)) as [Hlo _]. rewrite El in Hlo.
      assert (En : n = 2 ^ 53) by lia.
      exists (2 ^ 52). subst e. rewrite Hlog, El, En.
      rewrite <- !Z.pow_add_r by lia. reflexivity. }
  destruct HM as [M HM].
  pose proof (pow2_pos e He) as Pe.
  assert (Et : (inject_Z n * inject_Z (2 ^ 1074) / inject_Z (2 ^ e) == inject_Z M)%Q).
  { rewrite Ez, HM, inject_Z_mult. field. lra. }
  rewrite (round_comp _ _ Et), round_inject, <- HM, inject_Z_mult. field. lra.
Qed.

Lemma nearest_double_error (x : Q) :
  (inject_Z (2 ^ 52) <= x * inject_Z (2 ^ 1074))%Q ->
  (x * (1 - (1 # 9007199254740992)) <= Demo.nearest_double x
   /\ Demo.nearest_double x <= x * (1 + (1 # 9007199254740992)))%Q.
Proof.
  intro Hbig. unfold Demo.nearest_double.
  pose proof (pow2_pos 1074 ltac:(lia)) as HK.
  set (K := inject_Z (2 ^ 1074)) in *. set (z := (x * K)%Q) in *.
  assert (P52 : (inject_Z (2 ^ 52) == 4503599627370496)%Q) by reflexivity.
  assert (Hz : (0 <= z)%Q) by lra.
  destruct (significand_range z Hz) as [Ut Lt]. destruct (Lt Hbig) as [_ Ht].
  set (e := Z.max 0 (Z.log2 (Qfloor z) - 52)) in *.
  assert (He : 0 <= e) by (subst e; lia).
  pose proof (pow2_pos e He) as Pe.
  set (P := inject_Z (2 ^ e)) in *. set (t := (z / P)%Q) in *.
  pose proof (round_error t) as [Rl Ru].
  set (m := inject_Z (round t)) in *.
  assert (Ex : (x == t * (P / K))%Q) by (subst t z; field; split; lra).
  assert (Hc : (0 < P / K)%Q) by (apply Qlt_shift_div_l; lra).
  rewrite inject_Z_mult. fold m. fold P.
  setoid_replace (m * P / K)%Q with (m * (P / K))%Q by (field; lra).
  clearbody m t. rewrite Ex. set (c := (P / K)%Q) in *.
  split.
  - setoid_replace (t * c * (1 - (1 # 9007199254740992)))%Q
      with (t * (1 - (1 # 9007199254740992)) * c)%Q by ring.
    apply Qmult_le_compat_r; lra.
  - setoid_replace (t * c * (1 + (1 # 9007199254740992)))%Q
      with (t * (1 + (1 # 9007199254740992)) * c)%Q by ring.
    apply Qmult_le_compat_r; lra.
Qed.

Lemma demo_float_contract : float_contract Demo.nearest_double.
Proof.
  split; [| split].
  - intros x y Hx Hxy _. exact (nearest_double_mono x y Hx Hxy).
  - intros n Hn. apply nearest_double_exact.
    change (2 ^ 53) with 9007199254740992. exact Hn.
  - intros x Hlo _. apply nearest_double_error.
    apply Qle_trans
      with (y := ((1 # 18446744073709551616) * inject_Z (2 ^ 1074))%Q).
    + apply Qle_bool_iff. vm_compute. reflexivity.
    + apply Qmult_le_compat_r; [exact Hlo |].
      apply Qlt_le_weak, pow2_pos. lia.
Qed.

(** *** Tiles *)

Lemma demo_stretch_returns :
  exists tile, demo_tile Demo.flag_4x2 100 (2 # 1) "stretch" = Return tile.
Proof. eexists. vm_compute. reflexivity. Qed.

Lemma uniform_tile_returned_size_witness :
  let built := demo_tile Demo.flag_4x2 100 (2 # 1) "stretch" in
  let tile := match built with Return t => t | Raise _ => image_4x2 end in
  built = Return tile /\ mode tile = RGBA /\ size tile = (2 * 100, 100).
Proof.
  intros built tile.
  pose proof (outcome_returned built image_4x2 demo_stretch_returns) as H.
  split; [exact H |].
  exact (uniform_tile_returned_size Demo.nearest Demo.src_over Demo.decode
           Demo.flag_4x2 100 "stretch" tile (or_introl H)).
Defined.

Local Notation "'demo_tile_float'" :=
  (make_uniform_tile_from_bytes_float Demo.nearest Demo.src_over Demo.decode
     Demo.nearest_double).

Local Notation "'flag_47x94'" := [Byte.x2f; Byte.x5e].

Local Notation "'image_47x94'" := (mkImage RGB 47 94 (fun _ _ => (200, 0, 0, 255))).

Local Notation "'flag_44x55'" := [Byte.x2c; Byte.x37].

Local Notation "'image_44x55'" := (mkImage RGB 44 55 (fun _ _ => (200, 0, 0, 255))).

Lemma pad_centres_whole_image_witness :
  float_contract Demo.nearest_double
  /\ Demo.decode flag_47x94 = Some image_47x94
  /\ exists (tile scaled : Image) (x y : Z),
       demo_tile_float flag_47x94 3 (2 # 1) "pad" = Return tile
       /\ 1 <= width scaled <= 2 * 3 /\ 1 <= height scaled <= 3
       /\ 0 <= x /\ x + width scaled <= 2 * 3.
Proof.
  split; [exact demo_float_contract |]. split; [reflexivity |].
  destruct (pad_centres_whole_image Demo.nearest Demo.src_over Demo.decode
              Demo.nearest_double flag_47x94 image_47x94 3 demo_float_contract eq_refl
              ltac:(cbn; lia) ltac:(cbn; lia) ltac:(lia))
    as (tile & scaled & x & y & H1 & _ & H3 & H4 & _ & _ & _ & H8 & H9 & _).
  exists tile, scaled, x, y. repeat split; (assumption || lia).
Defined.

Lemma crop_fills_whole_tile_witness :
  float_contract Demo.nearest_double
  /\ Demo.decode flag_44x55 = Some image_44x55
  /\ exists (tile scaled : Image) (left top : Z),
       demo_tile_float flag_44x55 3 (2 # 1) "crop" = Return tile
       /\ 2 * 3 <= width scaled /\ 3 <= height scaled
       /\ 0 <= left /\ left + 2 * 3 <= width scaled.
Proof.
  split; [exact demo_float_contract |]. split; [reflexivity |].
  destruct (crop_fills_whole_tile Demo.nearest Demo.src_over Demo.decode
              Demo.nearest_double flag_44x55 image_44x55 3 demo_float_contract eq_refl
              ltac:(cbn; lia) ltac:(cbn; lia) ltac:(lia))
    as (tile & scaled & left & top & H1 & _ & H3 & H4 & _ & _ & _ & H8 & H9 & _).
  exists tile, scaled, left, top. repeat split; (assumption || lia).
Defined.

Lemma uniform_tile_size_float_witness :
  float_contract Demo.nearest_double
  /\ Demo.decode flag_44x55 = Some image_44x55
  /\ exists tile : Image,
       demo_tile_float flag_44x55 250 (2 # 1) "stretch" = Return tile
       /\ mode tile = RGBA /\ size tile = (2 * 250, 250).
Proof.
  split; [exact demo_float_contract |]. split; [reflexivity |].
  exact (uniform_tile_size_float Demo.nearest Demo.src_over Demo.decode
           Demo.nearest_double flag_44x55 image_44x55 250 "stretch" demo_float_contract
           eq_refl ltac:(cbn; lia) ltac:(cbn; lia) ltac:(lia)).
Defined.

(** Where the rounding of floats shows.  A 47 by 94 image padded into a
    tile of height 3 is scaled by the float nearest to 3/94: the width
    47 * 3/94, 1.5 in exact arithmetic, comes out just below 1.5 and is
    rounded to 1, not to 2, so that the pixel (3, 0) of the tile, which a
    source two pixels wide would cover, stays transparent. *)
Lemma float_rounding_shows :
  round (float_mul Demo.nearest_double (float_of_int Demo.nearest_double 47)
           (Demo.nearest_double (3 # 94))) = 1
  /\ round (inject_Z 47 * (3 # 94)) = 2
  /\ (exists tile : Image,
        demo_tile_float flag_47x94 3 (2 # 1) "pad" = Return tile
        /\ getpixel tile 2 0 = (200, 0, 0, 255)
        /\ getpixel tile 3 0 = (0, 0, 0, 0))
  /\ (exists tile : Image,
        demo_tile flag_47x94 3 (2 # 1) "pad" = Return tile
        /\ getpixel tile 2 0 = (200, 0, 0, 255)
        /\ getpixel tile 3 0 = (200, 0, 0, 255)).
Proof.
  split; [vm_compute; reflexivity |]. split; [vm_compute; reflexivity |].
  split; eexists; (split; [vm_compute; reflexivity |]); split; vm_compute; reflexivity.
Qed.


(** *** Grid *)

Lemma grid_cells_fit_and_are_disjoint_witness :
  let tiles := [("a", tile_200x100); ("b", tile_200x100); ("c", tile_200x100)] in
  let geo := mkGeometry 200 100 2 2 10 410 210 in
  grid_geometry tiles 2 10 = Return geo
  /\ tile_position geo 1 = (210, 0) /\ tile_position geo 2 = (0, 110)
  /\ _boxes_overlap (210, 0, 200, 100) (0, 110, 200, 100) = false.
Proof.
  intros tiles geo.
  assert (Hgeo : grid_geometry tiles 2 10 = Return geo) by reflexivity.
  split; [exact Hgeo |]. split; [reflexivity |]. split; [reflexivity |].
  refine (proj2 (proj2 (proj2 (proj2
            (grid_cells_fit_and_are_disjoint tiles 2 10 geo 1 2 Hgeo _ _ _ _)))) _);
    cbn; lia.
Defined.

Lemma paste_tiles_keeps_gaps_witness :
  let geo := mkGeometry 200 100 2 1 10 410 100 in
  let tiles := [("a", tile_200x100); ("b", tile_200x100)] in
  let canvas := mkImage RGBA 410 100 (fun _ _ => (9, 9, 9, 255)) in
  getpixel (paste_tiles Demo.src_over geo 0 tiles canvas) 205 50 = (9, 9, 9, 255).
Proof.
  intros geo tiles canvas.
  apply (paste_tiles_keeps_gaps Demo.src_over geo tiles 0 canvas 205 50).
  intros k code tile Hk. destruct k as [| [| k]]; cbn in Hk.
  - injection Hk as <- <-. cbn. lia.
  - injection Hk as <- <-. cbn. lia.
  - destruct k; discriminate Hk.
Defined.

Lemma demo_grid_returns :
  exists res, fst (demo_grid ["au"; "zz"] 8 12 250 "#fff" "pad" demo_world) = Return res.
Proof. eexists. vm_compute. reflexivity. Qed.

Lemma grid_partitions_codes_witness :
  let run := demo_grid ["au"; "zz"] 8 12 250 "#fff" "pad" demo_world in
  let res := match fst run with Return r => r | Raise _ => no_result end in
  run = (Return res, snd run)
  /\ placed res = ["au"] /\ missing res = ["zz"].
Proof.
  intros run res.
  pose proof (run_returned run no_result demo_grid_returns) as H.
  split; [exact H |].
  destruct (grid_partitions_codes _ _ _ _ _ _ _ _ _ _ _ _ _ _ _ _ _ _ _ H)
    as (Hp & Hm & _).
  split; (etransitivity; [eassumption | vm_compute; reflexivity]).
Defined.

Lemma grid_writes_flattened_canvas_witness :
  let run := demo_grid ["au"; "zz"] 8 12 250 "#fff" "pad" demo_world in
  let res := match fst run with Return r => r | Raise _ => no_result end in
  run = (Return res, snd run)
  /\ exists out : Image,
       uploads Demo.Rng (snd run) = [(output_path "tshirt/flags" (filename res), out)]
       /\ mode out = RGB.
Proof.
  intros run res.
  pose proof (run_returned run no_result demo_grid_returns) as H.
  split; [exact H |].
  destruct (grid_writes_flattened_canvas _ _ _ _ _ _ _ _ _ _ _ _ _ _ _ _ _ _ _ H)
    as (tiles & geo & bg_rgba & out & _ & _ & _ & _ & _ & Hbg & Hup & _ & Hm).
  exists out. split; [exact Hup |].
  rewrite Hm. vm_compute in Hbg. injection Hbg as <-. reflexivity.
Defined.

Lemma grid_first_failure_aborts_witness :
  flag_codes ["au"; "xx"; "zz"] = ["au"] ++ "xx" :: ["zz"]
  /\ build_flag_grid Demo.Rng Demo.choices Demo.utcnow Demo.nearest Demo.src_over
       Demo.decode (Some "bkt") "flags/png1000px" "tshirt/flags" broken_bucket
       ["au"; "xx"; "zz"] 8 12 250 "transparent" "pad" demo_world
     = (Raise (OSError "cannot identify image file"), demo_world).
Proof.
  split; [reflexivity |].
  apply (grid_first_failure_aborts Demo.Rng Demo.choices Demo.utcnow Demo.nearest
           Demo.src_over Demo.decode (Some "bkt") "flags/png1000px" "tshirt/flags"
           broken_bucket ["au"; "xx"; "zz"] ["au"] ["zz"] "xx").
  - reflexivity.
  - intros c' [<- | []]. eexists. vm_compute. reflexivity.
  - reflexivity.
Defined.

(** *** Colours *)

Lemma hex_to_rgba_well_formed_witness :
  well_formed_hex "#1a2B3c" = true
  /\ exists r g b : Z, hex_to_rgba "#1a2B3c" = Return (Some (r, g, b, 255)).
Proof.
  split; [reflexivity |].
  destruct (hex_to_rgba_well_formed "#1a2B3c" eq_refl) as (r & g & b & H & _).
  exists r, g, b. exact H.
Defined.

Lemma hex_to_rgba_short_form_raises_witness :
  is_hex_digit "1" && is_hex_digit "g" && is_hex_digit "2" = false
  /\ exists msg : string, hex_to_rgba "#1g2" = Raise (ValueError msg).
Proof.
  split; [reflexivity |].
  exact (hex_to_rgba_short_form_raises "1" "g" "2" eq_refl).
Defined.

Lemma hex_to_rgba_fallback_white_witness :
  String.eqb (lower "White") "transparent" = false
  /\ startswith "#" "White" = false
  /\ hex_to_rgba "White" = Return (Some (255, 255, 255, 255)).
Proof.
  split; [reflexivity |]. split; [reflexivity |].
  exact (hex_to_rgba_fallback_white "White" eq_refl (or_introl eq_refl)).
Defined.

(** *** The handler *)

Lemma handler_reads_body_first_witness :
  "POST" <> "OPTIONS"
  /\ compose_passport_stamps_http Demo.Rng Demo.randint Demo.uniform Demo.choices
       Demo.utcnow Demo.nearest Demo.nearest Demo.src_over Demo.rotate Demo.decode
       (Some "bkt") "passportStamps" "tshirt/flags" Demo.bucket
       unit (fun _ => true) (fun _ => "?")
       (mkRequest unit "POST" true (Some (JArray unit [JString unit "au"]))
          [("codes", "au,zz")])
       demo_world
     = (mkResponse 500 (Failure "'list' object has no attribute 'get'"), demo_world).
Proof.
  assert (H : "POST" <> "OPTIONS") by discriminate.
  split; [exact H |].
  exact (proj1 (handler_reads_body_first Demo.Rng Demo.randint Demo.uniform Demo.choices
                  Demo.utcnow Demo.nearest Demo.nearest Demo.src_over Demo.rotate
                  Demo.decode (Some "bkt") "passportStamps" "tshirt/flags" Demo.bucket
                  unit (fun _ => true) (fun _ => "?")
                  "POST" [("codes", "au,zz")] [] demo_world H)
           (JString unit "au") []).
Defined.


Local Notation "'demo_handler'" :=
  (compose_passport_stamps_http Demo.Rng Demo.randint Demo.uniform Demo.choices
     Demo.utcnow Demo.nearest Demo.nearest Demo.src_over Demo.rotate Demo.decode
     (Some "bkt") "passportStamps" "tshirt/flags" Demo.bucket
     unit (fun _ => true) (fun _ => "?")).

(** A GET request for [au, ,zz]: the pipeline is run on [au] and [zz], one
    stamp is placed and the answer is 200. *)
Lemma handler_answers_witness :
  let req := mkRequest unit "GET" false None [("codes", "au, ,zz")] in
  let resp := fst (demo_handler req demo_world) in
  req_method unit req <> "OPTIONS"
  /\ request_codes unit (fun _ => true) (fun _ => "?") req = inr ["au"; "zz"]
  /\ status resp = 200
  /\ exists (res : CompositionResult) (canvas : Image),
       demo_compose ["au"; "zz"] demo_world
       = (Return res, snd (demo_handler req demo_world))
       /\ payload resp = Success res
       /\ uploads Demo.Rng (snd (demo_handler req demo_world))
          = [(output_path "tshirt/flags" (filename res), canvas)]
       /\ size canvas = (CANVAS_WIDTH, CANVAS_HEIGHT).
Proof.
  intros req resp.
  assert (Hm : req_method unit req <> "OPTIONS") by discriminate.
  assert (Hc : request_codes unit (fun _ => true) (fun _ => "?") req = inr ["au"; "zz"])
    by reflexivity.
  split; [exact Hm |]. split; [exact Hc |].
  pose proof (handler_answers Demo.Rng Demo.randint Demo.uniform Demo.choices
                Demo.utcnow Demo.nearest Demo.nearest Demo.src_over Demo.rotate Demo.decode
                (Some "bkt") "passportStamps" "tshirt/flags" Demo.bucket
                unit (fun _ => true) (fun _ => "?") req demo_world) as H.
  cbv zeta in H. fold resp in H.
  destruct H as (_ & _ & _ & _ & _ & _ & Hrun & _).
  specialize (Hrun ["au"; "zz"] Hm Hc ltac:(discriminate)).
  destruct demo_compose_returns as [res0 Hret].
  destruct (demo_compose ["au"; "zz"] demo_world) as [[res | e] w1];
    [| discriminate Hret].
  destruct Hrun as (Hresp & Hw & _ & canvas & Hup & _ & Hsz).
  split; [rewrite Hresp; reflexivity |].
  exists res, canvas. split; [rewrite Hw; reflexivity |].
  split; [rewrite Hresp; reflexivity |]. split; [exact Hup | exact Hsz].
Defined.

(** *** The command line *)

Local Notation "'demo_files'" :=
  (fun path : string =>
     if String.eqb path "/flags/au.png" then Some Demo.flag_4x2
     else if String.eqb path "/flags/xx.png" then Some []
     else None).

Local Notation "'demo_cli'" :=
  (cli_main Demo.nearest Demo.src_over Demo.decode demo_files "20240101_000000").

(** Three codes of which one has a file that is no image and one has no
    file: the program warns about the two, writes the grid of the third
    and ends with status 0. *)
Lemma cli_main_ends_witness :
  let args := mkArgs ["au"; "xx"; "zz"] "/flags" 8 12 250 "transparent" "pad" in
  let run := demo_cli args in
  filter (cli_resolves Demo.nearest Demo.src_over Demo.decode demo_files
            "/flags" 250 "pad") (flag_codes ["au"; "xx"; "zz"]) = ["au"]
  /\ exit_status (cli_end run) = 0
  /\ cli_end run = Printed "/tmp/flags_grid_20240101_000000.png"
  /\ exists saved : Image,
       cli_writes run = [("/tmp/flags_grid_20240101_000000.png", saved)].
Proof.
  intros args run.
  assert (Hst : exit_status (cli_end run) = 0) by (vm_compute; reflexivity).
  split; [vm_compute; reflexivity |]. split; [exact Hst |].
  split; [vm_compute; reflexivity |].
  pose proof (cli_main_ends Demo.nearest Demo.src_over Demo.decode demo_files
                "20240101_000000" args) as H.
  cbv zeta in H. fold run in H.
  destruct H as (_ & _ & _ & _ & H0 & _).
  exact (proj1 H0 Hst).
Defined.

(** The status 1 is not reserved to a run without codes: with the
    background [#ggg] the same run dies of the exception of the colour
    conversion, after the tile was built and without writing a file; and
    with a tile height of 0 it dies when the empty canvas is saved. *)
Lemma cli_uncaught_exception_exits_1 :
  let bad_colour :=
    demo_cli (mkArgs ["au"; "xx"; "zz"] "/flags" 8 12 250 "#ggg" "pad") in
  let no_height :=
    demo_cli (mkArgs ["au"; "xx"; "zz"] "/flags" 8 12 0 "transparent" "pad") in
  flag_codes ["au"; "xx"; "zz"] <> []
  /\ cli_end bad_colour = Uncaught invalid_literal
  /\ exit_status (cli_end bad_colour) = 1
  /\ cli_writes bad_colour = []
  /\ cli_end no_height = Uncaught (ValueError "cannot write empty image")
  /\ exit_status (cli_end no_height) = 1
  /\ cli_writes no_height = [].
Proof.
  intros bad_colour no_height.
  split; [discriminate |]. repeat split; vm_compute; reflexivity.
Qed.
